(* ===== verification/_CoqProject ===== *)
-Q . S2P
Prelude.v
JsString.v
StableSort.v
JsNumber.v
Pipeline.v
Favorites.v
Json.v
Store.v
App.v
AppInv.v
AppRender.v
ViewSpec.v
AppQuota.v
AppNull.v
