(* ===== verification/Prelude.v ===== *)
(** * Verification of the catalog browser script (src/script.js)

    The program is one event-driven script run on [DOMContentLoaded].  It
    keeps a small view state (current page, sort mode, category filter,
    favourites list) in closure variables, mirrors it write-through into
    [localStorage], and rearranges the pre-rendered product cards of the
    page.  Its parts and how they interact:

    - the filter-sort pipeline [applyFiltersAndSort] (lines 65-116): the
      search filter (trim, toLowerCase, includes), the category filter,
      the price sort ([Array.prototype.sort] with a [parseFloat]
      comparator), the fade-out of every card and the render of the
      visible cards deferred by [setTimeout] 200 ms;
    - the favourites list: [toggleFavorite] (lines 52-62) and the badge of
      [updateFavoritesCount] (lines 42-49);
    - the persistent store [localStorage] with its five keys, the JSON
      serialisation of the favourites (lines 18, 59) and the defaults read
      at start-up (lines 16-19);
    - the view controller [showPage] (lines 22-39), [updateUI]
      (lines 119-139), [updateAndSave] (lines 142-155), the event
      listeners (lines 158-211) and the start-up sequence (lines 214-228).

    A DOM event runs one handler; the handler mutates the closure state,
    writes [localStorage], and may call [showPage] or
    [applyFiltersAndSort], which computes the visible cards at once and
    schedules the DOM swap 200 ms later.  The script catches no
    exception: a throw ends the running handler where it happens, the
    effects before it stay, and the browser reports it and goes on
    dispatching events.

    ** Files, in dependency order

    - [Prelude] (this file): the notation scope, the hint databases
      [catalog] and [catalog_rw], the tactics ([case_zcmp] for nested
      integer tests, [case_lit] for matches on integer literals,
      [bool_hyps]) and the list lemmas the components share.
    - [JsString]: a JS string as its UTF-16 code units ([jsstr]);
      modules [Trim], [Lower] and [Includes] for [trim], [toLowerCase]
      and [includes] (lines 71-75), with the substring characterisation
      of [includes] and the idempotence of [toLowerCase].
    - [StableSort]: module [ArraySort], a stable insertion sort driven by
      the comparator's sign, proved a sorted stable permutation and the
      only one (so every conforming engine sort agrees with it when the
      comparator is consistent; class [Consistent]).
    - [JsNumber]: [jsnum] (NaN, infinities, finite values as exact
      rationals), module [ParseFloat] ([parseFloat]'s longest decimal
      prefix) and module [NumOrder] (SortCompare reading NaN as equal);
      C7: [parseFloat] reads a decimal price as its exact value.
    - [Pipeline]: the [card] record and module [Pipeline] with one
      definition per block of [applyFiltersAndSort]: [search_step],
      [filter_step], [sort_step] composed into [visible_cards].
      Theorems C1-C6: the category and search filters, both price orders
      with stability, the default order, permutation in every sort mode,
      and agreement with any conforming engine sort when prices parse.
    - [Favorites]: module [Fav] with [indexOf], [push], [splice] (JS
      semantics of a negative start), [toggle] and the badge; the
      equivalence [same_members] with its [Proper] instances.  Theorems
      C8-C10: no duplicates with the membership flip, the double toggle
      (identity when absent, reordering when present), and the agreement
      of the [indexOf]/[push]/[splice] update with a reference toggle.
    - [Json]: module [Stringify] (QuoteJSONString and an array of
      strings) and module [Parse] (a recursive-descent parser of the
      whole JSON grammar).  C11 is the round trip of the persisted
      favourites and C12 that the parser's fuel is enough.
    - [Store]: [storage] as stdpp's [gmap] from strings to strings and
      module [Store]: the keys, [getItem], [setItem], [getItem(k) || d]
      and the start-up reads; C13 is the round trip of a preference,
      with the empty string read back as the default.
    - [App]: the records [config] (the static page: cards, pages,
      anchors, buttons, optional elements), [view] (the closure
      variables), [dom] (what the script writes to the document) and
      [state] (view, dom, store, clock and the queue of pending
      callbacks); module [App] with one definition per function of the
      script ([apply_filters_and_sort], [render], [update_ui],
      [toggle_favorite], [show_page], [update_and_save], the listeners
      in [handle], start-up in [init]) and the step relation [step]
      interleaving events, callbacks and waits; [reachable] is the set
      of states reachable from a start-up.  [handle_ind] and
      [handle_pres] reduce a fact about every listener to one fact per
      helper the listeners call.
    - [AppInv]: invariants over the reachable states, each proved by rule
      induction ([App.reachable_ind]) from one lemma per helper, a demo
      page for the concrete runs, and the theorems C16-C19, C24-C26 and
      C28: the 200 ms bound on pending callbacks with renders queued
      after every pending one, the reload contract, the hearts, the
      badge, and the findings (highlight not refreshed, fade-out never
      removed, unknown page ids and stray active anchors in one theorem,
      malformed favourites).
    - [AppRender]: the callback queue and the grid: the grid shows the
      current view once nothing is pending (C20), the first visit of the
      catalog renders (C21), the queue drains (C22), a page without a
      grid never renders (C23), and the stale first render of start-up
      (C27).
    - [ViewSpec]: the spec's abstract machine, a record [vstate] of page,
      sort, filter, search text and a [gset] of favourite ids with the
      transitions [astep] of section 4.6, and the abstraction [abs] of a
      script state.  C14: every run of the script is a run of the
      abstract machine with stutters; C15: every control on the page
      realises its abstract transition in one step.
    - [AppQuota]: the write of [localStorage.setItem], which throws a
      [QuotaExceededError] when the store would outgrow the origin's
      quota ([Quota.set_item]; a rewrite of the value already stored
      never throws), and the handlers that write ([show_page],
      [update_and_save], [toggle_favorite], the listeners and start-up)
      in module [AppQ], written in a small state and exception monad
      ([act], with [;;] in [script_scope]) so that each stops at a
      failing write keeping what it did before.  With storage that
      accepts every write these are the handlers of [App], step for step
      ([unlimited_storage_agrees]), so the theorems above are those of
      the script in such a browser.  C29-C30: what a failing write
      leaves: a toggled array with the old badge, hearts and store, or a
      new sort or filter with no render and only the earlier writes
      done.
    - [AppNull]: stored favourites that parse to [null] (the text that
      [setItem(k, null)] leaves).  Start-up throws at line 43 once the
      listeners are installed, heart clicks throw at line 53 and renders
      throw at line 106 after emptying the grid; module [AppNull] reuses
      the handlers of [AppQ] for every listener that does not read
      [favorites].  C31: the grid only ever holds its markup or cards
      without a heart button and no heart is set, so on a page whose
      cards all have one the catalog is empty.

    ** Bounds and fuel

    The parser of JSON.parse runs on fuel [2 * length text + 2]: every
    nesting level and every array element or object member spends one
    unit and consumes at least one code unit, so the fuel bounds the
    recursion; [Json.parse_total] proves that this fuel never runs out.
    The callback queue needs no fuel: [AppRender.queue_drains] shows by a
    weight argument (a render weighs 1, the start-up callback 2) that it
    empties.  Integers of the model are unbounded ([Z]); the only counts
    the script computes are list lengths.

    ** What is not modelled

    - IEEE-754 rounding: prices are exact rationals, so two decimal
      prices that round to the same double compare as different.
    - [toLowerCase] outside the Latin, Latin-1, Greek and Cyrillic
      letters keeps the code unit unchanged (titles in other scripts are
      matched case-sensitively in the model), and the context-dependent
      Final_Sigma rule is left out: a capital sigma always becomes the
      medial small sigma, never the final one.
    - With a NaN comparator (a price that does not parse) the order
      [Array.prototype.sort] returns is implementation-defined; the
      model's insertion sort is one admissible choice, and the theorems
      about the price orders assume parseable prices.
    - Stored favourites that are valid JSON but neither an array of
      strings nor [null]: start-up returns [None] in the model
      ([App.init], [AppQ.init] and [AppNull.init]).  In the browser the
      listeners are installed (lines 158-211) before the first use of
      [favorites] at line 214, so such a value leaves a page that keeps
      running: numbers, booleans and objects give an undefined or
      member [length] to the badge and throw a TypeError at line 131 and
      later in every toggle (line 53) and every render (line 106); a
      string runs on with [length], [includes] and [indexOf] on strings
      and a TypeError at [push] or [splice]; an array with non-string
      items runs on and is re-serialised with Number-to-String.
      Modelling them needs a JS value in place of the list of strings
      every component reads, the text [textContent] shows for
      [undefined] and for any JSON value, and the printing of IEEE
      doubles; the model has none of these and leaves every run that
      starts from such a value out.  [null], which needs none of them,
      is modelled in [AppNull].
    - The quota is counted in UTF-16 code units of keys and values; a
      browser counts bytes its own way, but the failure theorems of
      [AppQuota] hold for every quota.  A browser that blocks storage outright
      throws already at line 16, before any listener exists, and is not
      modelled.
    - The HTML and CSS, the text of the heart glyph and of the badge's
      aria-label (the model keeps the flag and the count they show),
      and [preventDefault] and [stopPropagation] (browser actions only).
    - The markup is abstracted by [config]: card ids, categories and
      prices are taken as strings, so a missing [data-*] attribute
      ([undefined]) is not represented, nor a nav link without [href]
      (a TypeError at line 188) or a sort or filter button without its
      [data-*] value.  The config records whether a card has a heart
      button and a title element.  The active classes and hearts the
      markup starts with are taken to be absent: [App.init] overwrites
      the classes at once, while in [AppNull], where start-up stops
      before [showPage], they stay absent in the model.
    - [showPage] with an id that names an element which is not a
      [.page] section would give that element the [active] class
      (line 25), which the model does not track; an id containing a
      double quote makes the selector of line 30 throw, which is not
      modelled either. *)

From stdpp Require Export base list strings gmap.
From Stdlib Require Export ZArith Lia.

Declare Scope catalog_scope.
Delimit Scope catalog_scope with catalog.
Open Scope catalog_scope.

Create HintDb catalog discriminated.
Create Rewrite HintDb catalog_rw.

(** ** Tactics *)

(** Case analysis on the integer comparisons of the goal, outermost
    first, simplifying after each split and discarding the branches whose
    arithmetic facts contradict each other, so that nested tests of the
    modelled code split into as many cases as they have live branches. *)
Ltac zcmp_step :=
  match goal with
  | |- context [Z.eqb ?a ?b] => destruct (Z.eqb_spec a b)
  | |- context [Z.leb ?a ?b] => destruct (Z.leb_spec a b)
  | |- context [Z.ltb ?a ?b] => destruct (Z.ltb_spec a b)
  | H : context [Z.eqb ?a ?b] |- _ => destruct (Z.eqb_spec a b)
  | H : context [Z.leb ?a ?b] |- _ => destruct (Z.leb_spec a b)
  | H : context [Z.ltb ?a ?b] |- _ => destruct (Z.ltb_spec a b)
  end; simpl in *; try (exfalso; lia).

Ltac case_zcmp := repeat zcmp_step.

(** Case analysis on an integer [z] scrutinised by a match on integer
    literals: split it into its binary digits until the match reduces,
    closing with [done] the branches that need no further work. *)
Ltac case_lit z :=
  destruct z as [|z|z];
  [| repeat (match goal with |- context [z] => destruct z as [z|z|] end; try done) |];
  try done.

(** Split the boolean connectives of hypotheses into their parts. *)
Ltac bool_hyps :=
  repeat match goal with
  | H : (_ && _)%bool = true |- _ => apply andb_prop in H as [? ?]
  | H : (_ || _)%bool = false |- _ => apply orb_false_elim in H as [? ?]
  | H : negb _ = true |- _ => apply negb_true_iff in H
  | H : negb _ = false |- _ => apply negb_false_iff in H
  end.

(** ** Shared list lemmas *)

Section ListFacts.
Context {A : Type}.

(** What survives a boolean [filter] is what was there and passes. *)
Lemma filter_In_iff (f : A → bool) (l : list A) x :
  In x (List.filter f l) ↔ In x l ∧ f x = true.
Proof. apply filter_In. Qed.

(** Two boolean filters commute. *)
Lemma filter_filter_comm (f g : A → bool) (l : list A) :
  List.filter f (List.filter g l) = List.filter g (List.filter f l).
Proof.
  induction l as [|x l IH]; simpl; [done|].
  destruct (g x) eqn:Hg, (f x) eqn:Hf; simpl; rewrite ?Hg, ?Hf, IH; done.
Qed.

(** A filter passes every element exactly when it is the identity. *)
Lemma filter_all (f : A → bool) (l : list A) :
  Forall (λ x, f x = true) l → List.filter f l = l.
Proof. induction 1; simpl; [done|]. by rewrite H, IHForall. Qed.

(** The result of a filter satisfies its predicate. *)
Lemma Forall_filter_pred (f : A → bool) (l : list A) :
  Forall (λ x, f x = true) (List.filter f l).
Proof.
  induction l as [|x l IH]; simpl; [constructor|].
  destruct (f x) eqn:Hf; [by constructor|done].
Qed.

(** A filter keeps a subsequence of its input. *)
Lemma filter_sublist_l (f : A → bool) (l : list A) :
  sublist (List.filter f l) l.
Proof.
  induction l as [|x l IH]; simpl; [constructor|].
  destruct (f x); by constructor.
Qed.

(** Two boolean filters in a row are one filter on the conjunction. *)
Lemma filter_filter_andb (f g : A → bool) (l : list A) :
  List.filter f (List.filter g l) = List.filter (λ x, g x && f x) l.
Proof.
  induction l as [|x l IH]; simpl; [done|].
  destruct (g x); simpl; [destruct (f x); simpl|]; by rewrite IH.
Qed.

(** A filter keeps every property its input has. *)
Lemma Forall_filter_of (P : A → Prop) (f : A → bool) (l : list A) :
  Forall P l → Forall P (List.filter f l).
Proof. induction 1; simpl; [constructor|]. destruct (f x); [by constructor|done]. Qed.

End ListFacts.

#[export] Hint Resolve Forall_filter_pred filter_sublist_l Forall_filter_of : catalog.
