(* ===== verification/JsString.v ===== *)
(** JavaScript strings as the script uses them: a string is a list of
    UTF-16 code units (integers in [0, 65536)).  This file models the three
    string operations of the search filter of [applyFiltersAndSort]
    (src/script.js lines 71-75): [String.prototype.trim],
    [String.prototype.toLowerCase] and [String.prototype.includes], and
    proves their characterisations. *)

From S2P Require Import Prelude.
Local Open Scope Z_scope.

(** A JS string: its UTF-16 code units.  An abbreviation, not a
    definition, so that stdpp's map and list lemmas apply without
    unfolding. *)
Abbreviation jsstr := (list Z).

(** String literals of the source, which are ASCII, as code units. *)
Definition js (s : string) : jsstr :=
  map (λ a, Z.of_N (Ascii.N_of_ascii a)) (String.list_ascii_of_string s).

(** A code unit is valid when it fits in 16 bits. *)
Definition code_unit_ok (c : Z) : bool := (0 <=? c) && (c <? 65536).
Definition jsstr_ok (s : jsstr) : bool := forallb code_unit_ok s.

Module Trim.

(** ECMAScript WhiteSpace and LineTerminator code points, all of which are
    single code units: TAB, LF, VT, FF, CR, SP, NBSP, OGHAM SPACE MARK,
    U+2000..U+200A, LS, PS, NNBSP, MMSP, IDEOGRAPHIC SPACE and the BOM. *)
Definition is_js_space (c : Z) : bool :=
  (9 <=? c) && (c <=? 13) || (c =? 32) || (c =? 160) || (c =? 5760)
  || (8192 <=? c) && (c <=? 8202) || (c =? 8232) || (c =? 8233)
  || (c =? 8239) || (c =? 8287) || (c =? 12288) || (c =? 65279).

Fixpoint trim_start (s : jsstr) : jsstr :=
  match s with
  | [] => []
  | c :: s' => if is_js_space c then trim_start s' else s
  end.

Definition trim_end (s : jsstr) : jsstr := rev (trim_start (rev s)).

(** [s.trim()]: TrimString(s, start+end). *)
Definition trim (s : jsstr) : jsstr := trim_end (trim_start s).

End Trim.

Module Lower.

(** [toLowerCase] on one code unit, for the blocks the catalog's titles
    use: Basic Latin, Latin-1, Greek and Cyrillic.  Every other code unit
    is returned unchanged, and the capital sigma always becomes the
    medial small sigma: the context-dependent Final_Sigma rule is left
    out (see the root file for these modelling limits). *)
Definition lower_unit (c : Z) : Z :=
  if (65 <=? c) && (c <=? 90) then c + 32
  else if (192 <=? c) && (c <=? 222) && negb (c =? 215) then c + 32
  else if (913 <=? c) && (c <=? 937) && negb (c =? 930) then c + 32
  else if (1040 <=? c) && (c <=? 1071) then c + 32
  else if (1024 <=? c) && (c <=? 1039) then c + 80
  else c.

Definition to_lower (s : jsstr) : jsstr := map lower_unit s.

End Lower.

Module Includes.

(** [s.startsWith(q)] at offset 0. *)
Fixpoint starts_with (q s : jsstr) : bool :=
  match q, s with
  | [], _ => true
  | a :: q', b :: s' => (a =? b) && starts_with q' s'
  | _ :: _, [] => false
  end.

(** [s.includes(q)]: some position of [s] starts with [q]. *)
Fixpoint includes (s q : jsstr) : bool :=
  starts_with q s || match s with [] => false | _ :: s' => includes s' q end.

End Includes.

(** ** Properties of the string operations *)

Section StringFacts.
Import Trim Lower Includes.

Lemma starts_with_spec (q s : jsstr) :
  starts_with q s = true ↔ ∃ suf, s = q ++ suf.
Proof.
  revert s. induction q as [|a q IH]; intros [|b s]; simpl.
  - split; eauto.
  - split; eauto.
  - split; [done|]. by intros [? ?].
  - rewrite andb_true_iff, IH. case_zcmp; split.
    + intros [_ [suf ->]]. subst. eauto.
    + intros [suf Hs]. injection Hs as -> ->. eauto.
    + by intros [? _].
    + intros [suf Hs]. by injection Hs as -> _.
Qed.

(** [includes] is the substring relation. *)
Lemma includes_spec (s q : jsstr) :
  includes s q = true ↔ ∃ pre suf, s = pre ++ q ++ suf.
Proof.
  induction s as [|b s IH]; simpl; rewrite orb_true_iff, starts_with_spec.
  - split.
    + intros [[suf Hs]|]; [|done]. exists [], suf. done.
    + intros [[|? pre] [suf Hs]]; [by left; exists suf|done].
  - rewrite IH. split.
    + intros [[suf Hs]|[pre [suf ->]]].
      * exists [], suf. done.
      * exists (b :: pre), suf. done.
    + intros [[|c pre] [suf Hs]]; simpl in Hs.
      * left. by exists suf.
      * injection Hs as -> ->. right. eauto.
Qed.

Lemma includes_nil (s : jsstr) : includes s [] = true.
Proof. destruct s; done. Qed.

Lemma trim_start_spec (s : jsstr) :
  ∃ pre, s = pre ++ trim_start s ∧ Forall (λ c, is_js_space c = true) pre
         ∧ (∀ c rest, trim_start s = c :: rest → is_js_space c = false).
Proof.
  induction s as [|c s IH]; simpl.
  - exists []. repeat split; [constructor|done].
  - destruct (is_js_space c) eqn:Hc.
    + destruct IH as (pre & Hs & Hpre & Hhd). exists (c :: pre).
      split; [simpl; by rewrite <- Hs|]. split; [by constructor|done].
    + exists []. repeat split; [constructor|]. by intros ? ? [= <- _].
Qed.

(** A string trims to the empty string exactly when it is all whitespace,
    the case in which the search filter is skipped (line 71). *)
Lemma trim_nil_iff (s : jsstr) :
  trim s = [] ↔ Forall (λ c, is_js_space c = true) s.
Proof.
  unfold trim, trim_end.
  assert (Hst : ∀ u, trim_start u = [] ↔ Forall (λ c, is_js_space c = true) u).
  { induction u as [|c u IH]; simpl; [split; [constructor|done]|].
    destruct (is_js_space c) eqn:Hc; rewrite ?IH.
    - split; [by constructor|]. by inversion 1.
    - split; [done|]. inversion 1; congruence. }
  split.
  - intros H. apply (f_equal (@rev Z)) in H. rewrite rev_involutive in H.
    apply Hst, Forall_rev in H. rewrite rev_involutive in H.
    destruct (trim_start_spec s) as (pre & Hs & Hpre & _).
    rewrite Hs. by apply Forall_app.
  - intros H. by rewrite (proj2 (Hst s) H).
Qed.

Lemma lower_unit_idem (c : Z) : lower_unit (lower_unit c) = lower_unit c.
Proof. unfold lower_unit. case_zcmp; lia. Qed.

(** [toLowerCase] is idempotent, so a lower-cased query matched against a
    lower-cased title is a case-insensitive match. *)
Lemma to_lower_idem (s : jsstr) : to_lower (to_lower s) = to_lower s.
Proof.
  unfold to_lower. rewrite map_map. apply map_ext, lower_unit_idem.
Qed.

Lemma to_lower_length (s : jsstr) : length (to_lower s) = length s.
Proof. apply length_map. Qed.

End StringFacts.
