(* ===== verification/StableSort.v ===== *)
(** [Array.prototype.sort] with a comparator function, as the pipeline
    calls it (src/script.js lines 88-94).  ECMAScript requires the sort to
    be stable (since ES2019) and leaves the order implementation-defined
    when the comparator is not consistent.  The model is a stable
    insertion sort driven by the sign of the comparator, with SortCompare's
    rule that a NaN result counts as +0 already folded into the
    [comparison] the comparator returns.  The file proves that the result
    is a sorted, stable permutation of the input and that it is the only
    such list, so that every conforming engine sort (V8's TimSort among
    them) returns the same array when the comparator is consistent. *)

From S2P Require Import Prelude.
From Stdlib Require Import Sorted Permutation.

Module ArraySort.

Section StableSort.
Context {A : Type} (cmp : A → A → comparison).

(** Insert [x] before the first element it does not compare greater
    than: equal elements keep [x] in front, which makes the sort stable. *)
Fixpoint insert (x : A) (l : list A) : list A :=
  match l with
  | [] => [x]
  | y :: l' => match cmp x y with Gt => y :: insert x l' | _ => x :: y :: l' end
  end.

(** [arr.sort(cmp)]. *)
Fixpoint sort (l : list A) : list A :=
  match l with
  | [] => []
  | x :: l' => insert x (sort l')
  end.

(** The order the comparator induces, and its equivalence classes. *)
Definition cmp_le (x y : A) : Prop := cmp x y ≠ Gt.
Definition cmp_eqv (x y : A) : bool := match cmp x y with Eq => true | _ => false end.

(** A stable result keeps, inside every class of equivalent elements, the
    order of the input. *)
Definition stable (out inp : list A) : Prop :=
  ∀ x, List.filter (cmp_eqv x) out = List.filter (cmp_eqv x) inp.

Lemma insert_perm x l : Permutation (insert x l) (x :: l).
Proof.
  induction l as [|y l IH]; simpl; [done|].
  destruct (cmp x y); try done.
  rewrite IH. apply perm_swap.
Qed.

Lemma sort_perm l : Permutation (sort l) l.
Proof.
  induction l as [|x l IH]; simpl; [done|].
  by rewrite insert_perm, IH.
Qed.

(** A consistent comparator: antisymmetric and transitive, that is, the
    comparison of a total preorder. *)
Class Consistent : Prop := {
  cmp_opp x y : cmp y x = CompOpp (cmp x y);
  cmp_le_trans x y z : cmp_le x y → cmp_le y z → cmp_le x z
}.

Section WithConsistent.
Context `{!Consistent}.

Lemma cmp_le_total x y : cmp_le x y ∨ cmp_le y x.
Proof.
  unfold cmp_le. rewrite (cmp_opp x y). destruct (cmp x y); simpl; auto; by left.
Qed.

Lemma cmp_gt_le x y : cmp x y = Gt → cmp_le y x.
Proof. unfold cmp_le. rewrite (cmp_opp x y). by intros ->. Qed.

Lemma cmp_eqv_iff x y : cmp_eqv x y = true ↔ cmp_le x y ∧ cmp_le y x.
Proof.
  unfold cmp_eqv, cmp_le. rewrite (cmp_opp x y).
  destruct (cmp x y); simpl; intuition congruence.
Qed.

Lemma cmp_eqv_refl x : cmp_eqv x x = true.
Proof.
  apply cmp_eqv_iff. by destruct (cmp_le_total x x).
Qed.

#[local] Instance cmp_le_Transitive : Transitive cmp_le.
Proof. intros x y z. apply cmp_le_trans. Qed.

Lemma insert_sorted x l : Sorted cmp_le l → Sorted cmp_le (insert x l).
Proof.
  induction 1 as [|y l Hl IH Hhd]; simpl; [by repeat constructor|].
  destruct (cmp x y) eqn:Hxy.
  1,2: constructor; [by constructor|constructor; unfold cmp_le; congruence].
  constructor; [done|].
  destruct l as [|z l]; simpl; [constructor; by apply cmp_gt_le|].
  inversion Hhd; subst. destruct (cmp x z); constructor; eauto using cmp_gt_le.
Qed.

(** The sorted order of the result. *)
Lemma sort_sorted l : Sorted cmp_le (sort l).
Proof. induction l; simpl; [constructor|by apply insert_sorted]. Qed.

(** Equivalent elements are not reordered by an insertion. *)
Lemma insert_stable x y l :
  List.filter (cmp_eqv y) (insert x l) = List.filter (cmp_eqv y) (x :: l).
Proof.
  induction l as [|z l IH]; simpl; [done|].
  destruct (cmp x z) eqn:Hxz; try done.
  simpl. rewrite IH. simpl.
  destruct (cmp_eqv y x) eqn:Hyx, (cmp_eqv y z) eqn:Hyz; try done.
  exfalso. apply cmp_eqv_iff in Hyx as [H1 H2], Hyz as [H3 H4].
  apply (cmp_le_trans x y z H2) in H3. unfold cmp_le in H3. congruence.
Qed.

Lemma sort_stable l : stable (sort l) l.
Proof.
  intros y. induction l as [|x l IH]; simpl; [done|].
  rewrite insert_stable. simpl. by rewrite IH.
Qed.

Lemma sorted_head_le a l y : Sorted cmp_le (a :: l) → In y (a :: l) → cmp_le a y.
Proof.
  intros Hs Hy. apply Sorted_StronglySorted in Hs; [|exact cmp_le_trans].
  apply StronglySorted_inv in Hs as [_ Hall].
  destruct Hy as [<-|Hy].
  - apply cmp_eqv_iff, cmp_eqv_refl.
  - by apply (proj1 (List.Forall_forall _ _) Hall).
Qed.

(** Two sorted, stable permutations of each other are equal: a stable
    sort has exactly one possible result. *)
Lemma sorted_stable_unique l1 l2 :
  Permutation l1 l2 → Sorted cmp_le l1 → Sorted cmp_le l2 →
  (∀ x, List.filter (cmp_eqv x) l1 = List.filter (cmp_eqv x) l2) → l1 = l2.
Proof.
  revert l2. induction l1 as [|a r1 IH]; intros l2 Hp Hs1 Hs2 Hf.
  { by apply Permutation_nil in Hp. }
  destruct l2 as [|b r2]; [by apply Permutation_sym, Permutation_nil in Hp|].
  assert (Hab : cmp_eqv a b = true).
  { apply cmp_eqv_iff. split.
    - apply (sorted_head_le a r1); [done|]. apply (Permutation_in b (Permutation_sym Hp)). by left.
    - apply (sorted_head_le b r2); [done|]. apply (Permutation_in a Hp). by left. }
  assert (a = b) as <-.
  { specialize (Hf a). simpl in Hf. rewrite cmp_eqv_refl, Hab in Hf. by injection Hf. }
  f_equal. apply IH.
  - by apply Permutation_cons_inv in Hp.
  - by apply Sorted_inv in Hs1 as [? _].
  - by apply Sorted_inv in Hs2 as [? _].
  - intros x. specialize (Hf x). simpl in Hf.
    destruct (cmp_eqv x a); [by injection Hf|done].
Qed.

(** Any sorted, stable permutation of the input is the model's result:
    the insertion sort stands for every conforming implementation. *)
Lemma sort_unique l out :
  Permutation out l → Sorted cmp_le out → stable out l → out = sort l.
Proof.
  intros Hp Hs Hst. apply sorted_stable_unique.
  - by rewrite Hp, sort_perm.
  - done.
  - apply sort_sorted.
  - intros x. by rewrite Hst, sort_stable.
Qed.

End WithConsistent.
End StableSort.

(** Reversing the arguments of a consistent comparator (a descending
    sort) keeps it consistent. *)
#[export] Instance consistent_flip {A} (cmp : A → A → comparison) :
  Consistent cmp → Consistent (λ x y, cmp y x).
Proof.
  intros Hc. split.
  - intros x y. exact (cmp_opp cmp y x).
  - intros x y z Hxy Hyz. exact (cmp_le_trans cmp z y x Hyz Hxy).
Qed.

Section SortExt.
Context {A : Type}.

(** The result depends only on the comparisons among the input's own
    elements. *)
Lemma insert_ext_in (cmp1 cmp2 : A → A → comparison) x l :
  (∀ y, In y l → cmp1 x y = cmp2 x y) → insert cmp1 x l = insert cmp2 x l.
Proof.
  induction l as [|y l IH]; intros H; simpl; [done|].
  rewrite (H y (or_introl eq_refl)).
  destruct (cmp2 x y); try done. f_equal. apply IH. intros z Hz. apply H. by right.
Qed.

Lemma sort_ext_in (cmp1 cmp2 : A → A → comparison) l :
  (∀ x y, In x l → In y l → cmp1 x y = cmp2 x y) → sort cmp1 l = sort cmp2 l.
Proof.
  induction l as [|x l IH]; intros H; simpl; [done|].
  rewrite IH by (intros y z Hy Hz; apply H; by right).
  apply insert_ext_in. intros y Hy. apply H; [by left|].
  apply (Permutation_in y (sort_perm cmp2 l)) in Hy. by right.
Qed.

End SortExt.

End ArraySort.
