(* ===== verification/JsNumber.v ===== *)
(** JS numbers as the price sort uses them: [parseFloat] of a card's
    [data-price] attribute and the sign of the comparator
    [parseFloat(a) - parseFloat(b)] (src/script.js lines 89 and 93).
    A number is NaN, an infinity or a finite value; finite values are
    kept as exact rationals (see the root file for what this leaves out
    of IEEE-754 rounding). *)

From S2P Require Import Prelude JsString StableSort.
From Stdlib Require Import QArith Qfield.
Local Open Scope Z_scope.

Inductive jsnum := NaN | NegInf | Fin (q : Q) | PosInf.

Module ParseFloat.

Definition is_digit (c : Z) : bool := (48 <=? c) && (c <=? 57).

(** The longest run of decimal digits at the front: its value, its
    length and what follows it. *)
Fixpoint digits (s : jsstr) (acc : Z) (n : nat) : Z * nat * jsstr :=
  match s with
  | c :: s' => if is_digit c then digits s' (10 * acc + (c - 48)) (S n) else (acc, n, s)
  | [] => (acc, n, [])
  end.

(** The optional ExponentPart [e|E sign? digits]; when no digit follows,
    the exponent is not part of the longest valid prefix and counts as 0. *)
Definition exponent (s : jsstr) : Z :=
  match s with
  | e :: s' =>
      if (e =? 101) || (e =? 69) then
        let '(sg, r) := match s' with
                        | 45 :: r => (-1, r)
                        | 43 :: r => (1, r)
                        | _ => (1, s')
                        end in
        let '(v, n, _) := digits r 0 O in
        if (n =? 0)%nat then 0 else sg * v
      else 0
  | [] => 0
  end.

(** The value [m * 10^-k * 10^e] of a decimal literal. *)
Definition scale (m : Z) (k : nat) (e : Z) : Q :=
  let base := (inject_Z m / inject_Z (10 ^ Z.of_nat k))%Q in
  if 0 <=? e then (base * inject_Z (10 ^ e))%Q else (base / inject_Z (10 ^ (- e)))%Q.

(** StrUnsignedDecimalLiteral: [Infinity], or digits with an optional
    fraction and exponent, at least one digit in all. *)
Definition unsigned (s : jsstr) : jsnum :=
  if Includes.starts_with (js "Infinity") s then PosInf
  else
    let '(ip, n1, r1) := digits s 0 O in
    let '(fp, n2, r2) := match r1 with
                         | 46 :: r => digits r ip O
                         | _ => (ip, O, r1)
                         end in
    if ((n1 + n2) =? 0)%nat then NaN
    else Fin (scale fp n2 (exponent r2)).

Definition negate (x : jsnum) : jsnum :=
  match x with NaN => NaN | NegInf => PosInf | PosInf => NegInf | Fin q => Fin (- q)%Q end.

(** [parseFloat(s)]: trim the leading white space, read an optional sign
    and the longest StrDecimalLiteral prefix, NaN when there is none. *)
Definition parseFloat (s : jsstr) : jsnum :=
  match Trim.trim_start s with
  | 45 :: r => negate (unsigned r)
  | 43 :: r => unsigned r
  | r => unsigned r
  end.

End ParseFloat.

(** The value of a string of decimal digits, read left to right: the
    reference against which [parseFloat] is checked. *)
Definition dstep (acc c : Z) : Z := 10 * acc + (c - 48).
Definition dval (ds : jsstr) : Z := fold_left dstep ds 0.

Module NumOrder.

(** The sign of [a - b] as SortCompare reads it: a NaN difference counts
    as +0, and [Infinity - Infinity] is NaN. *)
Definition sort_compare (a b : jsnum) : comparison :=
  match a, b with
  | NaN, _ | _, NaN => Eq
  | Fin p, Fin q => Qcompare p q
  | NegInf, NegInf | PosInf, PosInf => Eq
  | NegInf, _ | _, PosInf => Lt
  | PosInf, _ | _, NegInf => Gt
  end.

(** A total order on numbers that agrees with [sort_compare] away from
    NaN and puts NaN above everything. *)
Definition rank (a : jsnum) : nat :=
  match a with NegInf => 0 | Fin _ => 1 | PosInf => 2 | NaN => 3 end.

Definition total_compare (a b : jsnum) : comparison :=
  match a, b with
  | Fin p, Fin q => Qcompare p q
  | _, _ => Nat.compare (rank a) (rank b)
  end.

Definition is_nan (a : jsnum) : bool := match a with NaN => true | _ => false end.

End NumOrder.

(** ** The order on numbers *)

Section NumFacts.
Import NumOrder.

Lemma total_compare_opp a b : total_compare b a = CompOpp (total_compare a b).
Proof.
  destruct a, b; simpl; try done; by rewrite Qcompare_antisym.
Qed.

Lemma total_compare_le_trans a b c :
  total_compare a b ≠ Gt → total_compare b c ≠ Gt → total_compare a c ≠ Gt.
Proof.
  destruct a, b, c; simpl; try done;
  rewrite <- ?Qle_alt; intros; eauto using Qle_trans.
Qed.

(** Comparing cards through a numeric key is a consistent comparator. *)
#[export] Instance total_compare_consistent {A} (k : A → jsnum) :
  ArraySort.Consistent (λ x y, total_compare (k x) (k y)).
Proof.
  split.
  - intros x y. apply total_compare_opp.
  - intros x y z. apply total_compare_le_trans.
Qed.

(** Away from NaN, SortCompare of a difference is the total order. *)
Lemma sort_compare_total a b :
  is_nan a = false → is_nan b = false → sort_compare a b = total_compare a b.
Proof. destruct a, b; done. Qed.

End NumFacts.

(** ** [parseFloat] on decimal literals *)

Section ParseFloatFacts.
Import ParseFloat.


Lemma digits_app ds r acc n :
  Forall (λ c, is_digit c = true) ds →
  (∀ c r', r = c :: r' → is_digit c = false) →
  digits (ds ++ r) acc n = (fold_left dstep ds acc, (n + length ds)%nat, r).
Proof.
  intros Hds Hr. revert acc n. induction Hds as [|c ds Hc Hds IH]; intros acc n; simpl.
  - destruct r as [|c r']; simpl; [by rewrite Nat.add_0_r|].
    rewrite (Hr c r' eq_refl). by rewrite Nat.add_0_r.
  - rewrite Hc, IH. unfold dstep. by rewrite Nat.add_succ_r.
Qed.

Lemma digits_all ds acc n :
  Forall (λ c, is_digit c = true) ds → digits ds acc n = (fold_left dstep ds acc, (n + length ds)%nat, []).
Proof. intros Hds. rewrite <- (app_nil_r ds) at 1. apply digits_app; [done|by intros ? ? ?]. Qed.

Lemma fold_dstep_shift ds acc :
  fold_left dstep ds acc = acc * 10 ^ Z.of_nat (length ds) + fold_left dstep ds 0.
Proof.
  revert acc. induction ds as [|c ds IH]; intros acc; simpl; [lia|].
  rewrite IH, (IH (dstep 0 c)). unfold dstep. rewrite Nat2Z.inj_succ, Z.pow_succ_r by lia. lia.
Qed.

Lemma digit_not_space c : is_digit c = true → Trim.is_js_space c = false.
Proof. unfold is_digit, Trim.is_js_space. intros H. bool_hyps. case_zcmp; lia. Qed.

Lemma parseFloat_digit_head c r : is_digit c = true → parseFloat (c :: r) = unsigned (c :: r).
Proof.
  intros Hc. unfold parseFloat. simpl. rewrite digit_not_space by done.
  revert Hc. case_lit c; intros Hc; try done.
Qed.

Lemma unsigned_not_infinity c r : is_digit c = true → Includes.starts_with (js "Infinity") (c :: r) = false.
Proof.
  unfold is_digit. intros H. bool_hyps. apply Z.leb_le in H, H0.
  replace (js "Infinity") with (73 :: js "nfinity") by reflexivity. cbn [Includes.starts_with].
  replace (73 =? c) with false by (symmetry; apply Z.eqb_neq; lia). reflexivity.
Qed.

Lemma pow10_nonzero k : 0 <= k → ¬ (inject_Z (10 ^ k) == 0)%Q.
Proof. intros Hk H. unfold Qeq in H. simpl in H. pose proof (Z.pow_pos_nonneg 10 k). lia. Qed.

Lemma scale_exp0 m k : (scale m k 0 == inject_Z m / inject_Z (10 ^ Z.of_nat k))%Q.
Proof.
  unfold scale. replace (0 <=? 0) with true by reflexivity.
  replace (inject_Z (10 ^ 0)) with 1%Q by reflexivity. apply Qmult_1_r.
Qed.

(** C7. [parseFloat] reads a price attribute written as decimal digits,
    with or without a fractional part, as its decimal value: ["10"] is
    10 and ["10.50"] is 10 + 50/100. *)
Theorem parseFloat_decimal ip fp :
  ip ≠ [] → Forall (λ c, is_digit c = true) ip → Forall (λ c, is_digit c = true) fp →
  (∃ q, parseFloat ip = Fin q ∧ (q == inject_Z (dval ip))%Q) ∧
  (∃ q, parseFloat (ip ++ 46 :: fp) = Fin q ∧
        (q == inject_Z (dval ip) + inject_Z (dval fp) / inject_Z (10 ^ Z.of_nat (length fp)))%Q).
Proof.
  intros Hne Hip Hfp. destruct ip as [|c ip']; [done|].
  pose proof Hip as Hc. apply Forall_cons in Hc as [Hc _].
  split.
  - rewrite parseFloat_digit_head by done. unfold unsigned. rewrite unsigned_not_infinity by done.
    rewrite digits_all by done. eexists. split; [reflexivity|].
    change (exponent []) with 0. rewrite scale_exp0.
    replace (inject_Z (10 ^ Z.of_nat 0)) with 1%Q by reflexivity. unfold dval. cbn [fold_left]. field.
  - rewrite <- app_comm_cons, parseFloat_digit_head by done. unfold unsigned.
    rewrite unsigned_not_infinity by done.
    rewrite app_comm_cons, (digits_app (c :: ip')) by (done || by intros ? ? [= <- _]).
    rewrite digits_all by done. eexists. split; [reflexivity|].
    change (exponent []) with 0. rewrite scale_exp0, fold_dstep_shift.
    pose proof (pow10_nonzero (Z.of_nat (length fp)) ltac:(lia)).
    rewrite inject_Z_plus, inject_Z_mult. rewrite Nat.add_0_l. unfold dval. cbn [fold_left]. field. done.
Qed.

Lemma parseFloat_decimal_witness :
  (∃ q, parseFloat (js "10") = Fin q ∧ (q == inject_Z (dval (js "10")))%Q) ∧
  (∃ q, parseFloat (js "10" ++ 46 :: js "50") = Fin q ∧
        (q == inject_Z (dval (js "10")) + inject_Z (dval (js "50")) / inject_Z (10 ^ Z.of_nat (length (js "50"))))%Q).
Proof. apply parseFloat_decimal; [discriminate|repeat constructor..]. Defined.

End ParseFloatFacts.
