(* ===== verification/Pipeline.v ===== *)
(** The filter-sort pipeline of [applyFiltersAndSort]
    (src/script.js lines 65-95): from the card registry, the search box
    and the current filter and sort, the list [visibleCards] that the
    deferred render appends to the grid.  The render itself, the fade-out
    and the guard on [grid] are modelled with the rest of the DOM in
    [App]. *)

From S2P Require Import Prelude JsString StableSort JsNumber.
From Stdlib Require Import Sorted Permutation QArith.
Local Open Scope Z_scope.

(** A [.product-card] element: its [data-id], [data-category] and
    [data-price] attributes, the text of its [.product-title] child when
    it has one, and the [data-id] of its [.btn-fav] child when it has
    one. *)
Record card := {
  card_id : jsstr;
  card_category : jsstr;
  card_price : jsstr;
  card_title : option jsstr;
  card_btn : option jsstr
}.

#[export] Instance card_eq_dec : EqDecision card.
Proof. solve_decision. Defined.

Module Pipeline.
Import Trim Lower Includes ParseFloat NumOrder.

(** Line 74: the lower-cased title, or [''] without a title element. *)
Definition title_text (c : card) : jsstr :=
  match card_title c with Some t => to_lower t | None => [] end.

(** Lines 71-77: the search step, with [searchInput] possibly absent. *)
Definition search_step (search : option jsstr) (cs : list card) : list card :=
  match search with
  | Some v =>
      match trim v with
      | [] => cs
      | t => let query := to_lower t in
             List.filter (λ c, includes (title_text c) query) cs
      end
  | None => cs
  end.

(** Lines 80-84: the category step. *)
Definition filter_step (currentFilter : jsstr) (cs : list card) : list card :=
  if bool_decide (currentFilter = js "all") then cs
  else List.filter (λ c, bool_decide (card_category c = currentFilter)) cs.

Definition price (c : card) : jsnum := parseFloat (card_price c).

(** The two comparators of lines 88-94, read through SortCompare. *)
Definition cmp_asc (a b : card) : comparison := sort_compare (price a) (price b).
Definition cmp_desc (a b : card) : comparison := sort_compare (price b) (price a).

(** Lines 87-95: the sort step. *)
Definition sort_step (currentSort : jsstr) (cs : list card) : list card :=
  if bool_decide (currentSort = js "price-asc") then ArraySort.sort cmp_asc cs
  else if bool_decide (currentSort = js "price-desc") then ArraySort.sort cmp_desc cs
  else cs.

(** Lines 68-95: [visibleCards], starting from the copy [[...cards]]. *)
Definition visible_cards (cards : list card) (search : option jsstr)
    (currentFilter currentSort : jsstr) : list card :=
  sort_step currentSort (filter_step currentFilter (search_step search cards)).

(** ** Abstract specification: which cards a view state shows *)

(** A card passes the search when the trimmed query is empty or its
    lower-cased title contains the lower-cased query. *)
Definition search_ok (search : option jsstr) (c : card) : bool :=
  match search with
  | Some v =>
      match trim v with
      | [] => true
      | t => includes (title_text c) (to_lower t)
      end
  | None => true
  end.

(** A card passes the filter when the filter is ["all"] or names its
    category. *)
Definition filter_ok (currentFilter : jsstr) (c : card) : bool :=
  bool_decide (currentFilter = js "all") || bool_decide (card_category c = currentFilter).

Definition matches (search : option jsstr) (currentFilter : jsstr) (c : card) : bool :=
  search_ok search c && filter_ok currentFilter c.

(** The NaN-last total order on prices, ascending and descending. *)
Definition total_asc (a b : card) : comparison := total_compare (price a) (price b).
Definition total_desc (a b : card) : comparison := total_compare (price b) (price a).

Definition price_ok (c : card) : bool := negb (is_nan (price c)).

(** Sample cards for the concrete runs below: the two cards of the spec's
    scenario. *)
Definition mk_card (id cat pr title : string) : card :=
  {| card_id := js id; card_category := js cat; card_price := js pr;
     card_title := Some (js title); card_btn := Some (js id) |}.

Definition phone := mk_card "1" "a" "10" "Phone One".
Definition case_two := mk_card "2" "b" "5" "Case Two".

End Pipeline.

(** ** Properties of the pipeline *)

Section PipelineFacts.
Import Trim Lower Includes ParseFloat NumOrder Pipeline.

Lemma search_step_filter search cs :
  search_step search cs = List.filter (search_ok search) cs.
Proof.
  unfold search_step, search_ok. destruct search as [v|]; [|by rewrite filter_all; [|apply Forall_forall]].
  destruct (trim v); [|done]. rewrite filter_all; [done|]. by apply Forall_forall.
Qed.

Lemma filter_step_filter f cs :
  filter_step f cs = List.filter (filter_ok f) cs.
Proof.
  unfold filter_step, filter_ok. case_bool_decide; simpl; [|done].
  rewrite filter_all; [done|]. by apply Forall_forall.
Qed.

(** The two filters together keep exactly the matching cards, in
    registry order. *)
Lemma filters_matches search f cs :
  filter_step f (search_step search cs) = List.filter (matches search f) cs.
Proof.
  by rewrite filter_step_filter, search_step_filter, filter_filter_andb.
Qed.

#[export] Instance total_asc_consistent : ArraySort.Consistent total_asc.
Proof. apply (total_compare_consistent price). Qed.

#[export] Instance total_desc_consistent : ArraySort.Consistent total_desc.
Proof. apply (ArraySort.consistent_flip (λ a b, total_compare (price a) (price b))), _. Qed.

Lemma sort_step_perm s cs : Permutation (sort_step s cs) cs.
Proof.
  unfold sort_step. do 2 (case_bool_decide; [apply ArraySort.sort_perm|]). done.
Qed.

(** Without NaN prices the comparators of lines 88-94 are the total order
    on prices. *)
Lemma cmp_asc_total cs :
  Forall (λ c, price_ok c = true) cs →
  ArraySort.sort cmp_asc cs = ArraySort.sort total_asc cs.
Proof.
  intros Hok. apply ArraySort.sort_ext_in. intros a b Ha Hb.
  rewrite List.Forall_forall in Hok. apply Hok, negb_true_iff in Ha, Hb.
  by apply sort_compare_total.
Qed.

Lemma cmp_desc_total cs :
  Forall (λ c, price_ok c = true) cs →
  ArraySort.sort cmp_desc cs = ArraySort.sort total_desc cs.
Proof.
  intros Hok. apply ArraySort.sort_ext_in. intros a b Ha Hb.
  rewrite List.Forall_forall in Hok. apply Hok, negb_true_iff in Ha, Hb.
  by apply sort_compare_total.
Qed.

Lemma js_asc_desc : js "price-asc" ≠ js "price-desc".
Proof. done. Qed.

End PipelineFacts.

Section PipelineTheorems.
Import Trim Lower Includes ParseFloat NumOrder Pipeline.

(** The visible list is a sort of the matching cards. *)
Lemma visible_cards_sort cards search f s :
  visible_cards cards search f s = sort_step s (List.filter (matches search f) cards).
Proof. unfold visible_cards. by rewrite filters_matches. Qed.

Lemma in_visible_cards cards search f s c :
  In c (visible_cards cards search f s) ↔ In c cards ∧ matches search f c = true.
Proof.
  rewrite visible_cards_sort, <- filter_In. split.
  - apply Permutation_in, sort_step_perm.
  - apply Permutation_in, Permutation_sym, sort_step_perm.
Qed.

(** With a filter other than ["all"], every visible card has exactly
    that category (line 82). *)
Lemma visible_category_of cards search f s c :
  f ≠ js "all" → In c (visible_cards cards search f s) → card_category c = f.
Proof.
  intros Hf Hc. apply in_visible_cards in Hc as [_ Hm].
  apply andb_prop in Hm as [_ Hm]. unfold filter_ok in Hm.
  apply orb_true_iff in Hm as [Hm|Hm]; apply bool_decide_eq_true in Hm; done.
Qed.

(** With a search text that is not blank, every visible card has a
    title element whose lower-cased text contains the trimmed, lower-cased
    query (lines 71-76). *)
Lemma visible_search_of cards v f s c :
  trim v ≠ [] → In c (visible_cards cards (Some v) f s) →
  ∃ t, card_title c = Some t ∧ ∃ pre suf, to_lower t = pre ++ to_lower (trim v) ++ suf.
Proof.
  intros Hv Hc. apply in_visible_cards in Hc as [_ Hm].
  apply andb_prop in Hm as [Hm _]. unfold search_ok in Hm.
  destruct (trim v) as [|u q] eqn:Ht; [done|].
  unfold title_text in Hm. destruct (card_title c) as [t|].
  - exists t. split; [done|]. by apply includes_spec.
  - apply includes_spec in Hm as ([|? ?] & ? & ?); done.
Qed.

(** C1. Every visible card passes the active filters: with a filter
    other than ["all"] it has exactly that category (line 82), and with
    a search text that is not blank it has a title element whose
    lower-cased text contains the trimmed, lower-cased query (lines
    71-76). *)
Theorem visible_filtered cards search f s c :
  In c (visible_cards cards search f s) →
  (f ≠ js "all" → card_category c = f) ∧
  (∀ v, search = Some v → trim v ≠ [] →
   ∃ t, card_title c = Some t ∧ ∃ pre suf, to_lower t = pre ++ to_lower (trim v) ++ suf).
Proof.
  intros Hc. split; [intros Hf; by eapply visible_category_of|].
  intros v -> Hv. by eapply visible_search_of.
Qed.

(** C2. Sorting by ascending price (line 88), when every card's price
    parses, yields prices in non-decreasing order and keeps cards of equal
    price in registry order. *)
Theorem visible_asc_sorted cards search f :
  Forall (λ c, price_ok c = true) cards →
  let out := visible_cards cards search f (js "price-asc") in
  Sorted (λ a b, total_compare (price a) (price b) ≠ Gt) out ∧
  ArraySort.stable total_asc out (List.filter (matches search f) cards).
Proof.
  intros Hok out. unfold out. rewrite visible_cards_sort.
  unfold sort_step. rewrite bool_decide_true by done.
  rewrite cmp_asc_total by auto with catalog.
  split; [apply (ArraySort.sort_sorted total_asc)|apply ArraySort.sort_stable]; apply _.
Qed.

(** C3. Sorting by descending price (line 93), when every card's price
    parses, yields prices in non-increasing order and keeps cards of equal
    price in registry order. *)
Theorem visible_desc_sorted cards search f :
  Forall (λ c, price_ok c = true) cards →
  let out := visible_cards cards search f (js "price-desc") in
  Sorted (λ a b, total_compare (price b) (price a) ≠ Gt) out ∧
  ArraySort.stable total_desc out (List.filter (matches search f) cards).
Proof.
  intros Hok out. unfold out. rewrite visible_cards_sort.
  unfold sort_step. rewrite bool_decide_false by done. rewrite bool_decide_true by done.
  rewrite cmp_desc_total by auto with catalog.
  split; [apply (ArraySort.sort_sorted total_desc)|apply ArraySort.sort_stable]; apply _.
Qed.

(** C4. Any sort value other than ["price-asc"] and ["price-desc"] (the
    default included) leaves the filtered cards in registry order. *)
Theorem visible_default_order cards search f s :
  s ≠ js "price-asc" → s ≠ js "price-desc" →
  visible_cards cards search f s = List.filter (matches search f) cards.
Proof.
  intros Ha Hd. rewrite visible_cards_sort. unfold sort_step.
  by rewrite !bool_decide_false.
Qed.

(** C5. Every sort mode returns a permutation of the matching cards:
    sorting neither drops nor duplicates a card, NaN prices included. *)
Theorem visible_perm cards search f s :
  Permutation (visible_cards cards search f s) (List.filter (matches search f) cards).
Proof. rewrite visible_cards_sort. apply sort_step_perm. Qed.

Lemma visible_filtered_witness :
  card_category case_two = js "b" ∧
  ∃ t, card_title phone = Some t ∧ ∃ pre suf, to_lower t = pre ++ to_lower (trim (js " PHONE ")) ++ suf.
Proof.
  split.
  - apply (visible_filtered [phone; case_two] None (js "b") (js "default") case_two);
      [vm_compute; tauto|done].
  - apply (visible_filtered [phone; case_two] (Some (js " PHONE ")) (js "all") (js "default") phone);
      [vm_compute; tauto|reflexivity|vm_compute; done].
Defined.

Lemma visible_asc_sorted_witness :
  let out := visible_cards [phone; case_two] None (js "all") (js "price-asc") in
  Sorted (λ a b, total_compare (price a) (price b) ≠ Gt) out ∧
  ArraySort.stable total_asc out (List.filter (matches None (js "all")) [phone; case_two]).
Proof. apply visible_asc_sorted. repeat constructor. Defined.

Lemma visible_desc_sorted_witness :
  let out := visible_cards [phone; case_two] None (js "all") (js "price-desc") in
  Sorted (λ a b, total_compare (price b) (price a) ≠ Gt) out ∧
  ArraySort.stable total_desc out (List.filter (matches None (js "all")) [phone; case_two]).
Proof. apply visible_desc_sorted. repeat constructor. Defined.

Lemma visible_default_order_witness :
  visible_cards [phone; case_two] None (js "all") (js "default") =
  List.filter (matches None (js "all")) [phone; case_two].
Proof. apply visible_default_order; done. Defined.

(** C6. The model of [Array.prototype.sort] is not a choice: when every
    price parses, any list that a conforming engine's stable sort could
    return for the price-asc comparator (a permutation of the matching
    cards, ordered by price, keeping equal prices in registry order) is
    the list [visibleCards] of the model. *)
Theorem engine_sort_agrees cards search f out :
  Forall (λ c, price_ok c = true) cards →
  Permutation out (List.filter (matches search f) cards) →
  Sorted (λ a b, total_compare (price a) (price b) ≠ Gt) out →
  ArraySort.stable total_asc out (List.filter (matches search f) cards) →
  out = visible_cards cards search f (js "price-asc").
Proof.
  intros Hok Hp Hs Hst. rewrite visible_cards_sort. unfold sort_step.
  rewrite bool_decide_true by done. rewrite cmp_asc_total by auto with catalog.
  eapply ArraySort.sort_unique; [apply _|exact Hp|exact Hs|exact Hst].
Qed.

Lemma engine_sort_agrees_witness :
  [case_two; phone] = visible_cards [case_two; phone] None (js "all") (js "price-asc").
Proof.
  apply engine_sort_agrees.
  - repeat constructor.
  - vm_compute. reflexivity.
  - repeat constructor; vm_compute; discriminate.
  - intros x. vm_compute. reflexivity.
Defined.

End PipelineTheorems.
