(* ===== verification/Favorites.v ===== *)
(** The favourites list of the script (src/script.js lines 18, 42-62):
    [toggleFavorite]'s update of the array with [indexOf], [push] and
    [splice], and the badge that [updateFavoritesCount] derives from its
    length.  The write to [localStorage] and the refresh of the buttons
    that follow the update are modelled in [App]. *)

From S2P Require Import Prelude JsString.
Local Open Scope Z_scope.
Local Set Warnings "-clear-no-such-hyp".

Module Fav.

(** [Array.prototype.indexOf] with strict equality, as the loop of the
    specification runs it: the first index [k] holding [x], or -1. *)
Fixpoint index_from (x : jsstr) (l : list jsstr) (k : Z) : Z :=
  match l with
  | [] => -1
  | y :: l' => if bool_decide (y = x) then k else index_from x l' (k + 1)
  end.

Definition index_of (x : jsstr) (l : list jsstr) : Z := index_from x l 0.

(** [arr.splice(start, 1)]: a negative start counts from the end, a start
    past the end removes nothing. *)
Definition splice_one {A} (l : list A) (start : Z) : list A :=
  let len := Z.of_nat (length l) in
  let k := if start <? 0 then Z.max (len + start) 0 else Z.min start len in
  take (Z.to_nat k) l ++ drop (Z.to_nat k + 1) l.

(** [arr.push(x)]. *)
Definition push {A} (l : list A) (x : A) : list A := l ++ [x].

(** [arr.includes(x)] with SameValueZero, which is equality on strings. *)
Definition includes_id (l : list jsstr) (x : jsstr) : bool :=
  existsb (λ y, bool_decide (y = x)) l.

(** Lines 53-58: the update [toggleFavorite] makes to [favorites]. *)
Definition toggle (id : jsstr) (favorites : list jsstr) : list jsstr :=
  let idx := index_of id favorites in
  if idx =? -1 then push favorites id else splice_one favorites idx.

(** The reference behaviour: drop the first occurrence. *)
Fixpoint remove_first (x : jsstr) (l : list jsstr) : list jsstr :=
  match l with
  | [] => []
  | y :: l' => if bool_decide (y = x) then l' else y :: remove_first x l'
  end.

(** The badge of [updateFavoritesCount] (lines 42-49): the count shown,
    and the two background colours it switches between. *)
Inductive badge_color := Accent | Neutral.

Record badge := { badge_count : Z; badge_color_of : badge_color }.

Definition update_favorites_count (favorites : list jsstr) : badge :=
  let count := Z.of_nat (length favorites) in
  {| badge_count := count; badge_color_of := if 0 <? count then Accent else Neutral |}.

End Fav.

(** Two favourites lists with the same members: the equivalence under
    which every reader of the list but its serialisation agrees. *)
Definition same_members (l1 l2 : list jsstr) : Prop := ∀ x, In x l1 ↔ In x l2.

(** ** The list operations *)

Section FavFacts.
Import Fav.

#[export] Instance same_members_equiv : Equivalence same_members.
Proof. split; repeat intro; unfold same_members in *; firstorder. Qed.

Lemma includes_id_In l x : includes_id l x = true ↔ In x l.
Proof.
  unfold includes_id. rewrite existsb_exists. split.
  - intros (y & Hy & Hyx). apply bool_decide_eq_true in Hyx. by subst.
  - intros Hx. exists x. split; [done|]. by apply bool_decide_eq_true.
Qed.

(** [includes] reads a list only through its members. *)
#[export] Instance includes_id_proper : Proper (same_members ==> eq ==> eq) includes_id.
Proof.
  intros l1 l2 Hl x ? <-. apply eq_bool_prop_intro.
  rewrite !Is_true_true, !includes_id_In. apply Hl.
Qed.

Lemma index_from_absent x l k : ¬ In x l → index_from x l k = -1.
Proof.
  revert k. induction l as [|y l IH]; intros k Hx; simpl; [done|].
  rewrite bool_decide_false by (intros ->; apply Hx; by left).
  apply IH. intros H. apply Hx. by right.
Qed.

Lemma index_from_in x l k :
  In x l → ∃ i : nat, index_from x l k = k + Z.of_nat i ∧ (i < length l)%nat ∧
                      take i l ++ drop (S i) l = remove_first x l.
Proof.
  revert k. induction l as [|y l IH]; intros k Hx; [done|]. simpl.
  case_bool_decide as Hyx.
  - exists O. split; [lia|]. split; [simpl; lia|done].
  - destruct Hx as [->|Hx]; [done|].
    destruct (IH (k + 1) Hx) as (i & Hi & Hlt & Hsp). exists (S i).
    split; [lia|]. split; [simpl; lia|]. simpl. by rewrite Hsp.
Qed.

Lemma toggle_absent id l : ¬ In id l → toggle id l = l ++ [id].
Proof. intros H. unfold toggle, index_of. by rewrite index_from_absent. Qed.

Lemma toggle_present id l : In id l → toggle id l = remove_first id l.
Proof.
  intros H. unfold toggle, index_of.
  destruct (index_from_in id l 0 H) as (i & -> & Hlt & Hsp).
  rewrite Z.add_0_l. unfold splice_one.
  destruct (Z.eqb_spec (Z.of_nat i) (-1)); [lia|].
  rewrite (proj2 (Z.ltb_ge _ _)) by lia. rewrite Z.min_l by lia.
  by rewrite Nat2Z.id, Nat.add_1_r.
Qed.

Lemma remove_first_notin x l : ¬ In x l → remove_first x l = l.
Proof.
  induction l as [|y l IH]; intros H; simpl; [done|].
  rewrite bool_decide_false by (intros ->; apply H; by left).
  rewrite IH; [done|]. intros ?; apply H; by right.
Qed.

Lemma remove_first_app_last x l : ¬ In x l → remove_first x (l ++ [x]) = l.
Proof.
  induction l as [|y l IH]; intros H; simpl; [by rewrite bool_decide_true|].
  rewrite bool_decide_false by (intros ->; apply H; by left).
  rewrite IH; [done|]. intros ?; apply H; by right.
Qed.

Lemma remove_first_In_nodup x y l :
  NoDup l → In y (remove_first x l) ↔ In y l ∧ y ≠ x.
Proof.
  induction 1 as [|z l Hz Hl IH]; simpl; [tauto|].
  case_bool_decide as Hzx.
  - subst. split.
    + intros Hy. split; [by right|]. intros ->. by apply Hz, list_elem_of_In.
    + intros [[->|Hy] Hne]; done.
  - simpl. rewrite IH. split; [intros [->|[? ?]]; auto|intros [[->|?] ?]; auto].
Qed.

Lemma remove_first_nodup x l : NoDup l → NoDup (remove_first x l).
Proof.
  induction 1 as [|z l Hz Hl IH]; simpl; [constructor|].
  case_bool_decide; [done|]. constructor; [|done].
  intros Hin%list_elem_of_In. apply Hz, list_elem_of_In.
  apply (proj1 (remove_first_In_nodup x z l Hl) Hin).
Qed.

Lemma remove_first_In x y l : In y (remove_first x l) → In y l.
Proof.
  induction l as [|z l IH]; simpl; [done|].
  case_bool_decide; [by right|]. intros [->|Hy]; [by left|by right; apply IH].
Qed.

(** Whatever the list, toggling adds at most the toggled id. *)
Lemma toggle_In_incl id l x : In x (toggle id l) → x = id ∨ In x l.
Proof.
  destruct (in_dec (λ a b : jsstr, decide (a = b)) id l) as [Hin|Hin].
  - rewrite toggle_present by done. intros H. right. by eapply remove_first_In.
  - rewrite toggle_absent by done. rewrite in_app_iff. simpl. intuition.
Qed.

End FavFacts.

#[export] Hint Resolve remove_first_nodup : catalog.

Section FavTheorems.
Import Fav.

Lemma toggle_nodup_helper id l : NoDup l → NoDup (toggle id l).
Proof.
  intros Hl. destruct (in_dec (λ a b : jsstr, decide (a = b)) id l) as [Hin|Hin].
  - rewrite toggle_present by done. by apply remove_first_nodup.
  - rewrite toggle_absent by done. apply NoDup_app. split; [done|]. split.
    + intros x Hx ->%list_elem_of_singleton. by apply Hin, list_elem_of_In.
    + apply NoDup_singleton.
Qed.

Lemma toggle_In_helper id l x :
  NoDup l → In x (toggle id l) ↔ (x = id ∧ ¬ In id l) ∨ (x ≠ id ∧ In x l).
Proof.
  intros Hl. destruct (in_dec (λ a b : jsstr, decide (a = b)) id l) as [Hin|Hin].
  - rewrite toggle_present, remove_first_In_nodup by done. naive_solver.
  - rewrite toggle_absent by done. rewrite in_app_iff. simpl.
    split; [intros [Hx|[<-|[]]]; [|by left]|intros [[-> _]|[_ Hx]]; auto].
    right. split; [by intros ->|done].
Qed.

(** C8. [toggleFavorite] keeps the favourites free of duplicates, and
    after [toggleFavorite(id)] the list holds [id] exactly when it did not
    hold it before, and every other id as before. *)
Theorem toggle_nodup id l :
  NoDup l →
  NoDup (toggle id l) ∧ ∀ x, In x (toggle id l) ↔ (x = id ∧ ¬ In id l) ∨ (x ≠ id ∧ In x l).
Proof. intros Hl. split; [by apply toggle_nodup_helper|]. intros x. by apply toggle_In_helper. Qed.

Lemma toggle_nodup_witness :
  NoDup (toggle (js "1") [js "2"; js "3"]) ∧
  ∀ x, In x (toggle (js "1") [js "2"; js "3"]) ↔
       (x = js "1" ∧ ¬ In (js "1") [js "2"; js "3"]) ∨ (x ≠ js "1" ∧ In x [js "2"; js "3"]).
Proof. apply toggle_nodup. repeat constructor; set_solver. Defined.

Lemma toggle_twice_absent_helper id l : ¬ In id l → toggle id (toggle id l) = l.
Proof.
  intros Hin. rewrite (toggle_absent id l Hin).
  rewrite toggle_present by (apply in_or_app; right; by left).
  by apply remove_first_app_last.
Qed.

Lemma toggle_twice_present_helper id l :
  NoDup l → In id l → toggle id (toggle id l) = remove_first id l ++ [id].
Proof.
  intros Hl Hin. rewrite (toggle_present id l Hin).
  apply toggle_absent. intros H%(remove_first_In_nodup id id l Hl). tauto.
Qed.

(** C9. Toggling an id twice restores the list, order included, when
    the id was not a favourite; when it was one, of a duplicate-free list,
    the id is removed from its place and appended at the end. *)
Theorem toggle_twice id l :
  (¬ In id l → toggle id (toggle id l) = l) ∧
  (NoDup l → In id l → toggle id (toggle id l) = remove_first id l ++ [id]).
Proof. split; [apply toggle_twice_absent_helper|apply toggle_twice_present_helper]. Qed.

Lemma toggle_twice_witness :
  toggle (js "3") (toggle (js "3") [js "1"; js "2"]) = [js "1"; js "2"] ∧
  toggle (js "1") (toggle (js "1") [js "1"; js "2"]) = remove_first (js "1") [js "1"; js "2"] ++ [js "1"].
Proof.
  split.
  - apply (proj1 (toggle_twice (js "3") [js "1"; js "2"])). vm_compute. intuition congruence.
  - apply (proj2 (toggle_twice (js "1") [js "1"; js "2"])); [repeat constructor; set_solver|by left].
Defined.

(** C10. The [indexOf]/[push]/[splice] update of lines 53-58 computes
    the reference toggle: drop the first occurrence of a present id,
    append an absent one. *)
Theorem toggle_reference id l :
  toggle id l = if bool_decide (id ∈ l) then remove_first id l else l ++ [id].
Proof.
  case_bool_decide as H; rewrite list_elem_of_In in H;
    [by apply toggle_present|by apply toggle_absent].
Qed.

End FavTheorems.
