(* ===== verification/Json.v ===== *)
(** JSON serialisation of the favourites (src/script.js line 59,
    [JSON.stringify(favorites)]) and its reading back at start-up
    (line 18, [JSON.parse(localStorage.getItem('sotohit-favorites') || '[]')]).
    [stringify] follows ECMAScript's QuoteJSONString on UTF-16 code units;
    [parse] is a recursive-descent parser of the whole JSON grammar (RFC
    8259) driven by fuel, with SyntaxError as an error value.  The main
    theorems are the round trip (what the script writes it reads back)
    and the adequacy of the fuel (the parser never runs out of it). *)

From S2P Require Import Prelude JsString.
Local Open Scope Z_scope.

#[local] Set Warnings "-register-all".

(** A JSON value; a number is kept as its lexeme. *)
Inductive json :=
  | JNull
  | JBool (b : bool)
  | JNum (lexeme : jsstr)
  | JStr (s : jsstr)
  | JArr (items : list json)
  | JObj (members : list (jsstr * json)).

(** Why [JSON.parse] fails: the text is not JSON, or the parser's fuel
    ran out (which enough fuel rules out, see [parse_fuel_enough]). *)
Inductive json_error := SyntaxError | OutOfFuel.

Module Stringify.

(** A hexadecimal digit in lower case, as UnicodeEscape writes it. *)
Definition hex_digit (d : Z) : Z := if d <? 10 then 48 + d else 87 + d.

(** UnicodeEscape(c): [\u] and four lower-case hex digits. *)
Definition unicode_escape (c : Z) : jsstr :=
  [92; 117; hex_digit (c / 4096); hex_digit (c / 256 mod 16);
   hex_digit (c / 16 mod 16); hex_digit (c mod 16)].

Definition is_high (c : Z) : bool := (55296 <=? c) && (c <=? 56319).
Definition is_low (c : Z) : bool := (56320 <=? c) && (c <=? 57343).

(** The short escapes of QuoteJSONString's table. *)
Definition short_escape (c : Z) : option Z :=
  if c =? 8 then Some 98 else if c =? 9 then Some 116
  else if c =? 10 then Some 110 else if c =? 12 then Some 102
  else if c =? 13 then Some 114 else if c =? 34 then Some 34
  else if c =? 92 then Some 92 else None.

(** The body of QuoteJSONString, code point by code point: a surrogate
    pair is one code point and is copied, a lone surrogate is escaped. *)
Fixpoint quote_body (s : jsstr) : jsstr :=
  match s with
  | [] => []
  | c :: r =>
      match short_escape c with
      | Some e => 92 :: e :: quote_body r
      | None =>
          if c <? 32 then unicode_escape c ++ quote_body r
          else if is_high c then
            match r with
            | d :: r' => if is_low d then c :: d :: quote_body r'
                         else unicode_escape c ++ quote_body r
            | [] => unicode_escape c
            end
          else if is_low c then unicode_escape c ++ quote_body r
          else c :: quote_body r
      end
  end.

Definition quote (s : jsstr) : jsstr := 34 :: quote_body s ++ [34].

(** SerializeJSONArray of strings, without indentation. *)
Fixpoint join_items (l : list jsstr) : jsstr :=
  match l with
  | [] => []
  | [s] => quote s
  | s :: l' => quote s ++ 44 :: join_items l'
  end.

Definition stringify_strings (l : list jsstr) : jsstr := 91 :: join_items l ++ [93].

End Stringify.

Module Parse.

(** JSON white space: tab, line feed, carriage return, space. *)
Definition is_ws (c : Z) : bool := (c =? 9) || (c =? 10) || (c =? 13) || (c =? 32).

Fixpoint skip_ws (s : jsstr) : jsstr :=
  match s with
  | c :: r => if is_ws c then skip_ws r else s
  | [] => []
  end.

Definition hex_value (c : Z) : option Z :=
  if (48 <=? c) && (c <=? 57) then Some (c - 48)
  else if (65 <=? c) && (c <=? 70) then Some (c - 55)
  else if (97 <=? c) && (c <=? 102) then Some (c - 87)
  else None.

Definition hex4 (a b c d : Z) : option Z :=
  match hex_value a, hex_value b, hex_value c, hex_value d with
  | Some x, Some y, Some z, Some w => Some (4096 * x + 256 * y + 16 * z + w)
  | _, _, _, _ => None
  end.

(** The one-character escapes: quote, backslash, slash, b, f, n, r, t. *)
Definition unescape (e : Z) : option Z :=
  if e =? 34 then Some 34 else if e =? 92 then Some 92
  else if e =? 47 then Some 47 else if e =? 98 then Some 8
  else if e =? 102 then Some 12 else if e =? 110 then Some 10
  else if e =? 114 then Some 13 else if e =? 116 then Some 9 else None.

(** The characters of a string after its opening quote, up to and
    without the closing quote; a raw control character is an error. *)
Fixpoint parse_chars (s : jsstr) : option (jsstr * jsstr) :=
  match s with
  | [] => None
  | c :: r =>
      if c =? 34 then Some ([], r)
      else if c =? 92 then
        match r with
        | e :: r' =>
            match unescape e with
            | Some u => '(str, rest) ← parse_chars r'; Some (u :: str, rest)
            | None =>
                if e =? 117 then
                  match r' with
                  | a :: b :: x :: d :: r'' =>
                      u ← hex4 a b x d; '(str, rest) ← parse_chars r''; Some (u :: str, rest)
                  | _ => None
                  end
                else None
            end
        | [] => None
        end
      else if c <? 32 then None
      else '(str, rest) ← parse_chars r; Some (c :: str, rest)
  end.

Definition is_digit (c : Z) : bool := (48 <=? c) && (c <=? 57).

Fixpoint take_digits (s : jsstr) : jsstr * jsstr :=
  match s with
  | c :: r => if is_digit c then let '(ds, rest) := take_digits r in (c :: ds, rest) else ([], s)
  | [] => ([], [])
  end.

(** The parts of a number lexeme [-? (0 | [1-9][0-9]* ) (. [0-9]+)?
    ([eE] [+-]? [0-9]+)?], each returning the part and the rest. *)
Definition num_sign (s : jsstr) : jsstr * jsstr :=
  match s with
  | c :: r => if c =? 45 then ([45], r) else ([], s)
  | [] => ([], s)
  end.

Definition num_int (s : jsstr) : option (jsstr * jsstr) :=
  match s with
  | c :: r => if c =? 48 then Some ([48], r)
              else if (49 <=? c) && (c <=? 57)
              then let '(ds, r') := take_digits r in Some (c :: ds, r')
              else None
  | [] => None
  end.

Definition num_frac (s : jsstr) : option (jsstr * jsstr) :=
  match s with
  | c :: r => if c =? 46 then
                let '(ds, r') := take_digits r in
                if bool_decide (ds = []) then None else Some (46 :: ds, r')
              else Some ([], s)
  | [] => Some ([], s)
  end.

Definition num_exp (s : jsstr) : option (jsstr * jsstr) :=
  match s with
  | e :: r =>
      if (e =? 101) || (e =? 69) then
        let '(sg, r1) := match r with
                         | c :: r1 => if c =? 43 then ([43], r1)
                                      else if c =? 45 then ([45], r1) else ([], r)
                         | [] => ([], r)
                         end in
        let '(ds, r2) := take_digits r1 in
        if bool_decide (ds = []) then None else Some (e :: sg ++ ds, r2)
      else Some ([], s)
  | [] => Some ([], s)
  end.

(** A number lexeme and the rest. *)
Definition parse_number (s : jsstr) : option (jsstr * jsstr) :=
  let '(sign, s1) := num_sign s in
  '(ip, s2) ← num_int s1;
  '(fp, s3) ← num_frac s2;
  '(ep, s4) ← num_exp s3;
  Some (sign ++ ip ++ fp ++ ep, s4).

Definition literal (word : string) (v : json) (s : jsstr) : json_error + (json * jsstr) :=
  if Includes.starts_with (js word) s then inr (v, drop (length (js word)) s)
  else inl SyntaxError.

(** One JSON value after optional white space; arrays and objects call
    the element and member loops with the remaining fuel. *)
Fixpoint parse_value (fuel : nat) (s : jsstr) : json_error + (json * jsstr) :=
  match fuel with
  | O => inl OutOfFuel
  | S f =>
      match skip_ws s with
      | [] => inl SyntaxError
      | c :: r =>
          if c =? 34 then
            match parse_chars r with Some (str, r') => inr (JStr str, r') | None => inl SyntaxError end
          else if c =? 91 then
            match skip_ws r with
            | 93 :: r' => inr (JArr [], r')
            | _ => match parse_elements f r with
                   | inr (vs, r') => inr (JArr vs, r')
                   | inl e => inl e
                   end
            end
          else if c =? 123 then
            match skip_ws r with
            | 125 :: r' => inr (JObj [], r')
            | _ => match parse_members f r with
                   | inr (ms, r') => inr (JObj ms, r')
                   | inl e => inl e
                   end
            end
          else if c =? 116 then literal "true" (JBool true) (c :: r)
          else if c =? 102 then literal "false" (JBool false) (c :: r)
          else if c =? 110 then literal "null" JNull (c :: r)
          else match parse_number (c :: r) with
               | Some (lx, r') => inr (JNum lx, r')
               | None => inl SyntaxError
               end
      end
  end
(** The elements of an array up to its closing bracket. *)
with parse_elements (fuel : nat) (s : jsstr) : json_error + (list json * jsstr) :=
  match fuel with
  | O => inl OutOfFuel
  | S f =>
      match parse_value f s with
      | inl e => inl e
      | inr (v, r) =>
          match skip_ws r with
          | 44 :: r' => match parse_elements f r' with
                        | inr (vs, r'') => inr (v :: vs, r'')
                        | inl e => inl e
                        end
          | 93 :: r' => inr ([v], r')
          | _ => inl SyntaxError
          end
      end
  end
(** The members of an object up to its closing brace. *)
with parse_members (fuel : nat) (s : jsstr) : json_error + (list (jsstr * json) * jsstr) :=
  match fuel with
  | O => inl OutOfFuel
  | S f =>
      match skip_ws s with
      | 34 :: r =>
          match parse_chars r with
          | None => inl SyntaxError
          | Some (k, r1) =>
              match skip_ws r1 with
              | 58 :: r2 =>
                  match parse_value f r2 with
                  | inl e => inl e
                  | inr (v, r3) =>
                      match skip_ws r3 with
                      | 44 :: r4 => match parse_members f r4 with
                                    | inr (ms, r5) => inr ((k, v) :: ms, r5)
                                    | inl e => inl e
                                    end
                      | 125 :: r4 => inr ([(k, v)], r4)
                      | _ => inl SyntaxError
                      end
                  end
              | _ => inl SyntaxError
              end
          end
      | _ => inl SyntaxError
      end
  end.

(** [JSON.parse(text)]: one value, then only white space. *)
Definition parse (text : jsstr) : json_error + json :=
  match parse_value (2 * length text + 2) text with
  | inl e => inl e
  | inr (v, rest) => if bool_decide (skip_ws rest = []) then inr v else inl SyntaxError
  end.

End Parse.

(** ** Round trip of the serialisation *)

Section JsonFacts.
Import Stringify Parse.

#[local] Arguments unicode_escape : simpl never.

Lemma hex_value_digit d : 0 <= d < 16 → hex_value (hex_digit d) = Some d.
Proof.
  intros Hd. unfold hex_digit, hex_value. case_zcmp; f_equal; lia.
Qed.

(** The four hex digits of a code unit read back as the code unit. *)
Lemma hex4_escape c :
  0 <= c < 65536 →
  hex4 (hex_digit (c / 4096)) (hex_digit (c / 256 mod 16))
       (hex_digit (c / 16 mod 16)) (hex_digit (c mod 16)) = Some c.
Proof.
  intros Hc. unfold hex4.
  assert (H16 : c / 16 = 16 * (c / 256) + c / 16 mod 16).
  { rewrite (Z.div_mod (c / 16) 16) at 1 by lia. by rewrite Z.div_div by lia. }
  assert (H256 : c / 256 = 16 * (c / 4096) + c / 256 mod 16).
  { rewrite (Z.div_mod (c / 256) 16) at 1 by lia. by rewrite Z.div_div by lia. }
  pose proof (Z.div_mod c 16 ltac:(lia)).
  assert (0 <= c / 4096 < 16) by (split; [apply Z.div_pos|apply Z.div_lt_upper_bound]; lia).
  rewrite !hex_value_digit by (try apply Z.mod_pos_bound; lia).
  f_equal. lia.
Qed.

Lemma short_escape_unescape c e : short_escape c = Some e → unescape e = Some c.
Proof. unfold short_escape. case_zcmp; intros H; inversion H; subst; reflexivity. Qed.

Lemma short_escape_none c : short_escape c = None → c ≠ 34 ∧ c ≠ 92.
Proof. unfold short_escape. case_zcmp; done. Qed.

Lemma parse_chars_escape c rest :
  0 <= c < 65536 →
  parse_chars (unicode_escape c ++ rest) =
    '(str, r) ← parse_chars rest; Some (c :: str, r).
Proof.
  intros Hc. unfold unicode_escape. simpl. rewrite hex4_escape by done. done.
Qed.

Lemma parse_chars_raw c rest :
  32 <= c → c ≠ 34 → c ≠ 92 →
  parse_chars (c :: rest) = '(str, r) ← parse_chars rest; Some (c :: str, r).
Proof. intros H1 H2 H3. simpl. case_zcmp; done. Qed.

Lemma quote_body_cons c r :
  quote_body (c :: r) =
    match short_escape c with
    | Some e => 92 :: e :: quote_body r
    | None =>
        if c <? 32 then unicode_escape c ++ quote_body r
        else if is_high c then
          match r with
          | d :: r' => if is_low d then c :: d :: quote_body r'
                       else unicode_escape c ++ quote_body r
          | [] => unicode_escape c
          end
        else if is_low c then unicode_escape c ++ quote_body r
        else c :: quote_body r
    end.
Proof. reflexivity. Qed.

(** QuoteJSONString's body parses back to the string, up to the closing
    quote. *)
Lemma is_high_bound c : is_high c = true → c < 65536.
Proof. unfold is_high. intros H. apply andb_prop in H as [_ H]. apply Z.leb_le in H. lia. Qed.

Lemma is_low_bound c : is_low c = true → c < 65536.
Proof. unfold is_low. intros H. apply andb_prop in H as [_ H]. apply Z.leb_le in H. lia. Qed.

Lemma parse_chars_quote s rest :
  Forall (λ c, 0 <= c) s →
  parse_chars (quote_body s ++ 34 :: rest) = Some (s, rest).
Proof.
  induction s as [s IH] using (induction_ltof1 _ (@length Z)); unfold ltof in IH.
  intros Hs. destruct s as [|c r]; [done|].
  apply Forall_cons in Hs as [Hc Hr]. rewrite quote_body_cons.
  destruct (short_escape c) as [e|] eqn:He.
  { simpl. rewrite (short_escape_unescape c e He), IH by (simpl; lia || done). done. }
  destruct (short_escape_none c He) as [H34 H92].
  destruct (Z.ltb_spec c 32); cbv beta iota.
  { rewrite <- app_assoc, parse_chars_escape, IH by (simpl; lia || done). done. }
  destruct (is_high c) eqn:Hh; cbv beta iota.
  - destruct r as [|d r'].
    + pose proof (is_high_bound c Hh). rewrite parse_chars_escape by lia. done.
    + apply Forall_cons in Hr as [Hd Hr']. destruct (is_low d) eqn:Hl; cbv beta iota.
      * unfold is_low in Hl. apply andb_prop in Hl as [Hl1 _]. apply Z.leb_le in Hl1.
        simpl app. rewrite parse_chars_raw, parse_chars_raw, IH by (simpl; lia || done).
        done.
      * pose proof (is_high_bound c Hh).
        rewrite <- app_assoc, parse_chars_escape, IH by (simpl; lia || by constructor).
        done.
  - destruct (is_low c) eqn:Hl; cbv beta iota.
    + pose proof (is_low_bound c Hl).
      rewrite <- app_assoc, parse_chars_escape, IH by (simpl; lia || done). done.
    + simpl app. rewrite parse_chars_raw, IH by (simpl; lia || done). done.
Qed.

Lemma parse_value_quote f s rest :
  (1 <= f)%nat → Forall (λ c, 0 <= c) s →
  parse_value f (quote s ++ rest) = inr (JStr s, rest).
Proof.
  intros Hf Hs. destruct f as [|f]; [lia|]. unfold quote. simpl.
  rewrite <- app_assoc. simpl. by rewrite parse_chars_quote.
Qed.

Lemma join_items_cons_quote s l : ∃ t, join_items (s :: l) = 34 :: t.
Proof. destruct l; simpl; eauto. Qed.

Lemma parse_elements_join f l rest :
  l ≠ [] → (length l < f)%nat → Forall (Forall (λ c, 0 <= c)) l →
  parse_elements f (join_items l ++ 93 :: rest) = inr (map JStr l, rest).
Proof.
  revert f. induction l as [|s l IH]; intros f Hne Hf Hl; [done|].
  apply Forall_cons in Hl as [Hs Hl]. destruct f as [|f]; [simpl in Hf; lia|].
  destruct l as [|s2 l'].
  - change (join_items [s]) with (quote s). cbn [parse_elements].
    rewrite parse_value_quote by (simpl in Hf; lia || done). done.
  - change (join_items (s :: s2 :: l')) with (quote s ++ 44 :: join_items (s2 :: l')).
    cbn [parse_elements]. rewrite <- app_assoc. cbn [app].
    rewrite parse_value_quote by (simpl in Hf; lia || done). simpl skip_ws.
    cbv beta iota. rewrite IH by (simpl in *; lia || done). done.
Qed.

Lemma join_items_length l : (length l <= length (join_items l))%nat.
Proof.
  induction l as [|s l IH]; [simpl; lia|].
  destruct l as [|s2 l]; simpl; [lia|].
  rewrite length_app. simpl in *. lia.
Qed.

End JsonFacts.

(** ** What the parser produces *)

Section ParsedUnits.
Import Parse.

Lemma unescape_nonneg e u : unescape e = Some u → 0 <= u.
Proof. unfold unescape. case_zcmp; intros H; inversion H; lia. Qed.

Lemma hex_value_nonneg c v : hex_value c = Some v → 0 <= v.
Proof. unfold hex_value. case_zcmp; intros Hsome; inversion Hsome; lia. Qed.

Lemma hex4_nonneg a b c d u : hex4 a b c d = Some u → 0 <= u.
Proof.
  unfold hex4.
  destruct (hex_value a) eqn:Ha, (hex_value b) eqn:Hb, (hex_value c) eqn:Hc,
    (hex_value d) eqn:Hd; intros H; inversion H; subst.
  apply hex_value_nonneg in Ha, Hb, Hc, Hd. lia.
Qed.

(** Every code unit of a parsed string is non-negative: raw units are at
    least 32 and escapes denote non-negative values. *)
Lemma parse_chars_nonneg s str r :
  parse_chars s = Some (str, r) → Forall (λ c, 0 <= c) str.
Proof.
  revert str r.
  induction s as [s IH] using (induction_ltof1 _ (@length Z)); unfold ltof in IH.
  intros str r H. destruct s as [|c s']; [done|]. simpl in H.
  destruct (Z.eqb_spec c 34); [by injection H as <- _|].
  destruct (Z.eqb_spec c 92).
  - destruct s' as [|esc r']; [done|].
    destruct (unescape esc) as [u|] eqn:Hu.
    + destruct (parse_chars r') as [[str' rest]|] eqn:Hp; [|done]. simpl in H.
      injection H as <- _. constructor; [by eapply unescape_nonneg|].
      eapply (IH r'); [simpl; lia|exact Hp].
    + destruct (Z.eqb_spec esc 117); [|done].
      destruct r' as [|a [|b [|x [|d r'']]]]; try done.
      destruct (hex4 a b x d) as [u|] eqn:Hx; [|done]. simpl in H.
      destruct (parse_chars r'') as [[str' rest]|] eqn:Hp; [|done]. simpl in H.
      injection H as <- _. constructor; [by eapply hex4_nonneg|].
      eapply (IH r''); [simpl; lia|exact Hp].
  - destruct (Z.ltb_spec c 32); [done|].
    destruct (parse_chars s') as [[str' rest]|] eqn:Hp; [|done]. simpl in H.
    injection H as <- _. constructor; [lia|]. eapply (IH s'); [simpl; lia|exact Hp].
Qed.

Lemma parse_value_str_nonneg f s str r :
  parse_value f s = inr (JStr str, r) → Forall (λ c, 0 <= c) str.
Proof.
  destruct f as [|f]; [done|]. simpl.
  destruct (skip_ws s) as [|c r0]; [done|].
  destruct (c =? 34).
  { destruct (parse_chars r0) as [[str' r']|] eqn:Hp; [|done].
    intros [= <- _]. by eapply parse_chars_nonneg. }
  destruct (c =? 91).
  { destruct (skip_ws r0) as [|z r1]; [|destruct z as [|[]|]];
      repeat match goal with |- context [match ?x with _ => _ end] => destruct x end; done. }
  destruct (c =? 123).
  { destruct (skip_ws r0) as [|z r1]; [|destruct z as [|[]|]];
      repeat match goal with |- context [match ?x with _ => _ end] => destruct x end; done. }
  unfold literal.
  destruct (c =? 116); [destruct (Includes.starts_with _ _); done|].
  destruct (c =? 102); [destruct (Includes.starts_with _ _); done|].
  destruct (c =? 110); [destruct (Includes.starts_with _ _); done|].
  destruct (parse_number (c :: r0)) as [[lx r']|]; done.
Qed.

Lemma parse_elements_str_nonneg f s items r :
  parse_elements f s = inr (items, r) →
  ∀ str, In (JStr str) items → Forall (λ c, 0 <= c) str.
Proof.
  revert s items r. induction f as [|f IH]; intros s items r; [done|]. simpl.
  destruct (parse_value f s) as [e|[v r1]] eqn:Hv; [done|].
  destruct (skip_ws r1) as [|z r2]; [done|].
  case_lit z.
  - intros [= <- _] str [->|[]]. by eapply parse_value_str_nonneg.
  - destruct (parse_elements f r2) as [e|[vs r3]] eqn:He; [done|].
    intros [= <- _] str [->|Hin]; [by eapply parse_value_str_nonneg|].
    by eapply IH.
Qed.

Lemma parse_value_arr_nonneg f s items r :
  parse_value f s = inr (JArr items, r) →
  ∀ str, In (JStr str) items → Forall (λ c, 0 <= c) str.
Proof.
  destruct f as [|f]; [done|]. simpl.
  destruct (skip_ws s) as [|c r0]; [done|].
  destruct (c =? 34).
  { destruct (parse_chars r0) as [[str' r']|]; done. }
  destruct (c =? 91).
  { destruct (skip_ws r0) as [|z r1].
    - destruct (parse_elements f r0) as [e|[vs r2]] eqn:He; [done|].
      intros [= <- _]. by eapply parse_elements_str_nonneg.
    - case_lit z; try (intros [= <- _]; done);
        destruct (parse_elements f r0) as [e|[vs r2]] eqn:He; try done;
        intros [= <- _]; by eapply parse_elements_str_nonneg. }
  destruct (c =? 123).
  { destruct (skip_ws r0) as [|z r1]; [|case_lit z];
      destruct (parse_members f r0) as [e|[ms r2]]; intros H; inversion H. }
  unfold literal.
  destruct (c =? 116); [destruct (Includes.starts_with _ _); done|].
  destruct (c =? 102); [destruct (Includes.starts_with _ _); done|].
  destruct (c =? 110); [destruct (Includes.starts_with _ _); done|].
  destruct (parse_number (c :: r0)) as [[lx r']|]; done.
Qed.

Lemma parse_arr_nonneg text items :
  parse text = inr (JArr items) → ∀ str, In (JStr str) items → Forall (λ c, 0 <= c) str.
Proof.
  unfold parse. destruct (parse_value _ text) as [e|[v rest]] eqn:Hv; [done|].
  case_bool_decide; [|done]. intros [= ->]. by eapply parse_value_arr_nonneg.
Qed.

End ParsedUnits.

(** ** The fuel of the parser is enough *)

Section ParserFuel.
Import Parse.

Lemma skip_ws_length s : (length (skip_ws s) <= length s)%nat.
Proof. induction s as [|c s IH]; simpl; [lia|]. destruct (is_ws c); simpl; lia. Qed.

Lemma take_digits_length s : (length (take_digits s).2 <= length s)%nat.
Proof.
  induction s as [|c s IH]; simpl; [lia|]. destruct (is_digit c); [|simpl; lia].
  destruct (take_digits s) eqn:E. simpl in *. lia.
Qed.

Lemma parse_chars_length n : ∀ s str r, (length s <= n)%nat → parse_chars s = Some (str, r) →
  (length r < length s)%nat.
Proof.
  induction n as [|n IH]; intros [|c s] str r Hl H; simpl in *; try lia; try done.
  assert (Hrec : ∀ t u, (length t <= n)%nat →
            parse_chars t ≫= (λ '(str, rest), Some (u :: str, rest)) = Some (str, r) →
            (length r < length t)%nat).
  { intros t u Ht. destruct (parse_chars t) as [[s1 r1]|] eqn:E; simpl; [|done].
    intros [= _ <-]. by apply (IH t s1). }
  destruct (c =? 34); [injection H as _ <-; lia|].
  destruct (c =? 92).
  - destruct s as [|e s]; [done|]. destruct (unescape e).
    + apply Hrec in H; simpl in *; lia.
    + destruct (e =? 117); [|done]. destruct s as [|a [|b [|x [|d s]]]]; try done.
      destruct (hex4 a b x d); simpl in H; [|done]. apply Hrec in H; simpl in *; lia.
  - destruct (c <? 32); [done|]. apply Hrec in H; lia.
Qed.

Lemma num_sign_length s : (length (num_sign s).2 <= length s)%nat.
Proof. destruct s as [|c s]; simpl; [lia|]. destruct (c =? 45); simpl; lia. Qed.

Lemma num_int_length s ip r : num_int s = Some (ip, r) → (length r < length s)%nat.
Proof.
  destruct s as [|c s]; simpl; [done|]. destruct (c =? 48); [intros [= _ <-]; lia|].
  destruct (_ && _); [|done]. pose proof (take_digits_length s).
  destruct (take_digits s). intros [= _ <-]. simpl in *. lia.
Qed.

Lemma num_frac_length s fp r : num_frac s = Some (fp, r) → (length r <= length s)%nat.
Proof.
  destruct s as [|c s]; simpl; [intros [= _ <-]; simpl; lia|].
  destruct (c =? 46); [|intros [= _ <-]; simpl; lia].
  pose proof (take_digits_length s). destruct (take_digits s).
  case_bool_decide; [done|]. intros [= _ <-]. simpl in *. lia.
Qed.

Lemma num_exp_length s ep r : num_exp s = Some (ep, r) → (length r <= length s)%nat.
Proof.
  destruct s as [|e s]; simpl; [intros [= _ <-]; simpl; lia|].
  destruct (_ || _); [|intros [= _ <-]; simpl; lia].
  match goal with |- context [let '(_, _) := ?m in _] => destruct m as [sg r1] eqn:E end.
  assert (Hr1 : (length r1 <= length s)%nat).
  { destruct s as [|c s]; [injection E as _ <-; simpl; lia|].
    destruct (c =? 43); [|destruct (c =? 45)]; injection E as _ <-; simpl; lia. }
  pose proof (take_digits_length r1). destruct (take_digits r1).
  case_bool_decide; [done|]. intros [= _ <-]. simpl in *. lia.
Qed.

Lemma parse_number_length s lx r : parse_number s = Some (lx, r) → (length r < length s)%nat.
Proof.
  unfold parse_number. pose proof (num_sign_length s). destruct (num_sign s) as [sign s1].
  destruct (num_int s1) as [[ip s2]|] eqn:E2; simpl; [|done]. apply num_int_length in E2.
  destruct (num_frac s2) as [[fp s3]|] eqn:E3; simpl; [|done]. apply num_frac_length in E3.
  destruct (num_exp s3) as [[ep s4]|] eqn:E4; simpl; [|done]. apply num_exp_length in E4.
  intros [= _ <-]. simpl in *. lia.
Qed.

Lemma literal_length word v s v' r :
  js word ≠ [] → literal word v s = inr (v', r) → (length r < length s)%nat.
Proof.
  unfold literal. intros Hw. destruct (Includes.starts_with (js word) s) eqn:E; [|done].
  intros [= _ <-]. apply starts_with_spec in E as [suf ->].
  rewrite drop_app_length, length_app. destruct (js word); [done|]. simpl. lia.
Qed.

(** A parser result spends no more fuel than it may: it is not an
    [OutOfFuel] error, and a success consumes at least one code unit. *)
Definition fuel_ok {A} (res : json_error + (A * jsstr)) (s : jsstr) : Prop :=
  match res with inl e => e ≠ OutOfFuel | inr (_, r) => (length r < length s)%nat end.

Lemma fuel_ok_mono {A} (res : json_error + (A * jsstr)) s s' :
  fuel_ok res s → (length s <= length s')%nat → fuel_ok res s'.
Proof. destruct res as [|[? ?]]; simpl; [done|lia]. Qed.

Lemma fuel_ok_map {A B} (g : A → B) (x : json_error + (A * jsstr)) s :
  fuel_ok x s → fuel_ok (match x with inl e => inl e | inr (a, r) => inr (g a, r) end) s.
Proof. by destruct x as [|[? ?]]. Qed.

Local Ltac sub_ok IH r :=
  apply fuel_ok_map; apply (fuel_ok_mono _ r); simpl in *; [apply IH; lia|lia].

Section FuelStep.
Variable f : nat.
Hypothesis IHv : ∀ s, (2 * length s + 1 <= f)%nat → fuel_ok (parse_value f s) s.
Hypothesis IHe : ∀ s, (2 * length s + 2 <= f)%nat → fuel_ok (parse_elements f s) s.
Hypothesis IHm : ∀ s, (2 * length s + 2 <= f)%nat → fuel_ok (parse_members f s) s.

Lemma value_fuel_step s : (2 * length s + 1 <= S f)%nat → fuel_ok (parse_value (S f) s) s.
Proof.
  intros Hn. simpl. pose proof (skip_ws_length s) as Hws.
  destruct (skip_ws s) as [|c r] eqn:E; [done|]. simpl in Hws.
  destruct (c =? 34).
  { destruct (parse_chars r) as [[str r']|] eqn:Ec; [|done].
    apply (parse_chars_length (length r)) in Ec; [simpl; lia|lia]. }
  destruct (c =? 91).
  { pose proof (skip_ws_length r). destruct (skip_ws r) as [|z t]; [sub_ok IHe r|].
    case_lit z; try (simpl in *; lia); sub_ok IHe r. }
  destruct (c =? 123).
  { pose proof (skip_ws_length r). destruct (skip_ws r) as [|z t]; [sub_ok IHm r|].
    case_lit z; try (simpl in *; lia); sub_ok IHm r. }
  assert (Hlit : ∀ w v, js w ≠ [] → fuel_ok (literal w v (c :: r)) s).
  { intros w v Hw. destruct (literal w v (c :: r)) as [e|[v' r']] eqn:El.
    - unfold literal in El. by destruct (Includes.starts_with _ _); simplify_eq.
    - apply literal_length in El; [simpl in *; lia|done]. }
  destruct (c =? 116); [by apply Hlit|]. destruct (c =? 102); [by apply Hlit|].
  destruct (c =? 110); [by apply Hlit|].
  destruct (parse_number (c :: r)) as [[lx r']|] eqn:En; [|done].
  apply parse_number_length in En. simpl in *. lia.
Qed.

Lemma elements_fuel_step s : (2 * length s + 2 <= S f)%nat → fuel_ok (parse_elements (S f) s) s.
Proof.
  intros Hn. simpl. pose proof (IHv s ltac:(lia)) as Hv.
  destruct (parse_value f s) as [e|[v r]]; [done|]. simpl in Hv.
  pose proof (skip_ws_length r). destruct (skip_ws r) as [|z t]; [done|].
  case_lit z; try (simpl in *; lia); sub_ok IHe t.
Qed.

Lemma members_fuel_step s : (2 * length s + 2 <= S f)%nat → fuel_ok (parse_members (S f) s) s.
Proof.
  intros Hn. simpl. pose proof (skip_ws_length s).
  destruct (skip_ws s) as [|z r]; [done|]. case_lit z.
  destruct (parse_chars r) as [[k r1]|] eqn:Ec; [|done].
  apply (parse_chars_length (length r)) in Ec; [|lia]. pose proof (skip_ws_length r1).
  destruct (skip_ws r1) as [|z r2]; [done|]. case_lit z.
  pose proof (IHv r2 ltac:(simpl in *; lia)) as Hv.
  destruct (parse_value f r2) as [e|[v r3]]; [done|]. simpl in Hv.
  pose proof (skip_ws_length r3). destruct (skip_ws r3) as [|z r4]; [done|].
  case_lit z; try (simpl in *; lia); sub_ok IHm r4.
Qed.
End FuelStep.

Lemma parse_fuel_ok n :
  (∀ s, (2 * length s + 1 <= n)%nat → fuel_ok (parse_value n s) s) ∧
  (∀ s, (2 * length s + 2 <= n)%nat → fuel_ok (parse_elements n s) s) ∧
  (∀ s, (2 * length s + 2 <= n)%nat → fuel_ok (parse_members n s) s).
Proof.
  induction n as [|f (IHv & IHe & IHm)]; [repeat split; intros s Hs; lia|].
  split; [|split]; intros s; [apply value_fuel_step|apply elements_fuel_step|apply members_fuel_step]; done.
Qed.

End ParserFuel.

Section JsonTheorems.
Import Stringify Parse.

Lemma jsstr_ok_Forall s : jsstr_ok s = true → Forall (λ c, 0 <= c) s.
Proof.
  unfold jsstr_ok, code_unit_ok. rewrite forallb_forall. intros H.
  apply Forall_forall. intros c Hc%list_elem_of_In. apply H in Hc.
  apply andb_prop in Hc as [H1 H2]. apply Z.leb_le in H1. apply Z.ltb_lt in H2. lia.
Qed.

Lemma parse_stringify_strings l :
  Forall (Forall (λ c, 0 <= c)) l →
  parse (stringify_strings l) = inr (JArr (map JStr l)).
Proof.
  intros Hl. unfold parse, stringify_strings.
  pose proof (join_items_length l) as Hlen.
  remember (2 * length (91%Z :: join_items l ++ [93%Z]) + 2)%nat as fuel eqn:Hfuel.
  destruct fuel as [|f]; [lia|].
  destruct l as [|s l']; [reflexivity|].
  destruct (join_items_cons_quote s l') as [t Ht]. rewrite Ht. simpl.
  change (34 :: t ++ [93]) with ((34 :: t) ++ [93]). rewrite <- Ht.
  rewrite parse_elements_join.
  - done.
  - done.
  - rewrite length_cons, length_app in Hfuel. change (length [93%Z]) with 1%nat in Hfuel. lia.
  - done.
Qed.

(** C11. Round trip of the persisted favourites: [JSON.parse] of
    [JSON.stringify(favorites)] is the array of the same strings, for every
    list of well-formed JS strings. *)
Theorem json_roundtrip l :
  Forall (λ s, jsstr_ok s = true) l →
  parse (stringify_strings l) = inr (JArr (map JStr l)).
Proof.
  intros Hl. apply parse_stringify_strings.
  eapply Forall_impl; [exact Hl|]. intros x. apply jsstr_ok_Forall.
Qed.

Lemma json_roundtrip_witness :
  parse (stringify_strings [js "1"; [34; 92; 10; 55296; 1092]]) =
  inr (JArr (map JStr [js "1"; [34; 92; 10; 55296; 1092]])).
Proof. apply json_roundtrip. repeat constructor. Defined.

(** C12. The fuel [2 * length text + 2] given to [JSON.parse] is enough:
    on every input the parser answers a value or a [SyntaxError], never
    [OutOfFuel], so the fuel bound does not change the behaviour of
    [JSON.parse] (line 18). *)
Theorem parse_total text : Parse.parse text ≠ inl OutOfFuel.
Proof.
  unfold Parse.parse. pose proof (proj1 (parse_fuel_ok (2 * length text + 2)) text ltac:(lia)) as H.
  destruct (parse_value _ text) as [e|[v r]]; [by intros [= ->]|].
  by case_bool_decide.
Qed.

End JsonTheorems.
