(* ===== verification/Store.v ===== *)
(** The persistent store: [localStorage] as a finite map from keys to
    strings (src/script.js lines 16-19, 38, 59, 146-150, 218-219), the
    script's five keys, and the start-up reads, whose [|| default] treats
    a missing value and an empty string alike. *)

From S2P Require Import Prelude JsString Json.
Local Open Scope Z_scope.

(** [localStorage]: string keys to string values. *)
Abbreviation storage := (gmap jsstr jsstr).

Module Store.

Definition key_sort : jsstr := js "sotohit-sort".
Definition key_filter : jsstr := js "sotohit-filter".
Definition key_favorites : jsstr := js "sotohit-favorites".
Definition key_page : jsstr := js "sotohit-page".
Definition key_search : jsstr := js "sotohit-search".

(** [localStorage.getItem(k)]: the value or null. *)
Definition get_item (st : storage) (k : jsstr) : option jsstr := st !! k.

(** [localStorage.setItem(k, v)]. *)
Definition set_item (st : storage) (k v : jsstr) : storage := <[k := v]> st.

(** [getItem(k) || d]: null and the empty string are falsy. *)
Definition get_or (st : storage) (k d : jsstr) : jsstr :=
  match st !! k with
  | Some ((_ :: _) as v) => v
  | _ => d
  end.

(** Line 16. *)
Definition load_sort (st : storage) : jsstr := get_or st key_sort (js "default").
(** Line 17. *)
Definition load_filter (st : storage) : jsstr := get_or st key_filter (js "all").
(** Line 19. *)
Definition load_page (st : storage) : jsstr := get_or st key_page (js "home").

(** Line 18: [JSON.parse(getItem(...) || '[]')].  A parse error is
    thrown (the [inl] case); a value that is not an array of strings is
    reported as [None] ([AppNull] models the value [null]; the others
    are outside the model). *)
Definition strings_of_json (v : json) : option (list jsstr) :=
  match v with
  | JArr items =>
      fold_right (λ it acc, match it, acc with
                            | JStr s, Some l => Some (s :: l)
                            | _, _ => None
                            end) (Some []) items
  | _ => None
  end.

Definition load_favorites (st : storage) : json_error + option (list jsstr) :=
  match Parse.parse (get_or st key_favorites (js "[]")) with
  | inl e => inl e
  | inr v => inr (strings_of_json v)
  end.

(** Lines 218-220: the search box takes the stored text when it is
    truthy, and keeps its own value otherwise. *)
Definition load_search (st : storage) (current : jsstr) : jsstr :=
  match st !! key_search with
  | Some ((_ :: _) as v) => v
  | _ => current
  end.

End Store.

Section StoreFacts.
Import Store.

Lemma get_or_set_same st k v d : v ≠ [] → get_or (set_item st k v) k d = v.
Proof. intros Hv. unfold get_or, set_item. rewrite lookup_insert_eq. destruct v; [contradiction|reflexivity]. Qed.

Lemma get_or_set_other st k k' v d : k ≠ k' → get_or (set_item st k v) k' d = get_or st k' d.
Proof. intros Hk. unfold get_or, set_item. by rewrite lookup_insert_ne. Qed.

Lemma load_search_set_other st k v cur : k ≠ key_search →
  load_search (set_item st k v) cur = load_search st cur.
Proof. intros Hk. unfold load_search, set_item. by rewrite lookup_insert_ne. Qed.

Lemma strings_of_json_map l : strings_of_json (JArr (map JStr l)) = Some l.
Proof. induction l as [|s l IH]; simpl in *; [done|]. by rewrite IH. Qed.

Lemma stringify_strings_nonempty l : Stringify.stringify_strings l ≠ [].
Proof. done. Qed.

(** What [toggleFavorite] writes, start-up reads back. *)
Lemma load_favorites_stringify st l :
  Forall (Forall (λ c, 0 <= c)) l →
  load_favorites (set_item st key_favorites (Stringify.stringify_strings l)) = inr (Some l).
Proof.
  intros Hl. unfold load_favorites. rewrite get_or_set_same by done.
  rewrite parse_stringify_strings by done. by rewrite strings_of_json_map.
Qed.

Lemma strings_of_json_in v l s :
  strings_of_json v = Some l → In s l → ∃ items, v = JArr items ∧ In (JStr s) items.
Proof.
  destruct v as [| | | |items|]; try done. simpl. intros Hl Hs. exists items. split; [done|].
  revert l Hl Hs. induction items as [|it items IH]; simpl; intros l Hl Hs.
  - by injection Hl as <-.
  - destruct it; try done.
    destruct (fold_right _ _ items) as [l'|] eqn:He; [|done].
    injection Hl as <-. destruct Hs as [->|Hs]; [by left|]. right. by eapply IH.
Qed.

(** The favourites read at start-up consist of non-negative code units,
    whatever the store holds. *)
Lemma load_favorites_nonneg st l :
  load_favorites st = inr (Some l) → Forall (Forall (λ c, 0 <= c)) l.
Proof.
  unfold load_favorites. destruct (Parse.parse _) as [e|v] eqn:Hp; [done|].
  intros [= Hl]. apply Forall_forall. intros x Hx%list_elem_of_In.
  destruct (strings_of_json_in v l x Hl Hx) as (items & -> & Hin).
  by eapply parse_arr_nonneg.
Qed.

Lemma keys_distinct :
  key_sort ≠ key_filter ∧ key_sort ≠ key_favorites ∧ key_sort ≠ key_page ∧
  key_sort ≠ key_search ∧ key_filter ≠ key_favorites ∧ key_filter ≠ key_page ∧
  key_filter ≠ key_search ∧ key_favorites ≠ key_page ∧ key_favorites ≠ key_search ∧
  key_page ≠ key_search.
Proof. vm_compute. repeat split; congruence. Qed.

Lemma load_favorites_set_other st k v :
  k ≠ key_favorites → load_favorites (set_item st k v) = load_favorites st.
Proof. intros Hk. unfold load_favorites. by rewrite get_or_set_other by done. Qed.

Lemma load_search_set_same st v cur :
  load_search (set_item st key_search v) cur = match v with [] => cur | _ => v end.
Proof. unfold load_search, set_item. rewrite lookup_insert_eq. by destruct v. Qed.

Lemma get_or_set st k v d : get_or (set_item st k v) k d = match v with [] => d | _ => v end.
Proof. unfold get_or, set_item. rewrite lookup_insert_eq. by destruct v. Qed.

End StoreFacts.

Section StoreTheorems.
Import Store.

(** C13. Round trip of the preferences through [localStorage]: what
    [setItem] stores under a preference key, start-up reads back, except
    the empty string, which [getItem(k) || default] reads as missing, so
    a stored empty sort, filter or page comes back as the default and a
    stored empty search text leaves the box as it is. *)
Theorem prefs_roundtrip st v cur :
  load_sort (set_item st key_sort v) = match v with [] => js "default" | _ => v end ∧
  load_filter (set_item st key_filter v) = match v with [] => js "all" | _ => v end ∧
  load_page (set_item st key_page v) = match v with [] => js "home" | _ => v end ∧
  load_search (set_item st key_search v) cur = match v with [] => cur | _ => v end.
Proof.
  unfold load_sort, load_filter, load_page. rewrite !get_or_set. split_and!; [done..|].
  apply load_search_set_same.
Qed.

End StoreTheorems.

#[export] Hint Rewrite get_or_set_same get_or_set_other load_search_set_other using done : catalog_rw.
