(* ===== verification/App.v ===== *)
(** The whole script as a state machine (src/script.js lines 1-229):
    the closure variables, the parts of the DOM the script writes, the
    store and the pending [setTimeout] callbacks form one state; each
    handler of the script is a function on it, and [step] relates a state
    to the states a DOM event, a timer firing or the passing of time lead
    to.  Start-up is [init], a partial function because line 18 can
    throw. *)

From S2P Require Import Prelude JsString StableSort JsNumber Pipeline Favorites Json Store.
Local Open Scope Z_scope.

(** The static page the script runs on: the cards in document order, the
    children [#products-grid] starts with (if it exists), the ids of the
    [.page] sections, every anchor's [href] with whether it is one of
    [navLinks] (line 9), the [data-sort] and [data-category] values of the
    sort and filter buttons, and whether the search box and the
    go-to-catalog button exist. *)
Record config := {
  cfg_cards : list card;
  cfg_has_grid : bool;
  cfg_grid0 : list card;
  cfg_pages : list jsstr;
  cfg_links : list (jsstr * bool);
  cfg_sort_btns : list jsstr;
  cfg_filter_btns : list jsstr;
  cfg_has_search : bool;
  cfg_search0 : jsstr;
  cfg_has_go_btn : bool
}.

(** A pending [setTimeout] callback: the render of lines 100-115, which
    captured [visibleCards], or the start-up callback of lines 224-227. *)
Inductive task :=
  | RenderTask (visible : list card)
  | InitApplyTask.

(** The closure variables of lines 2 and 16-19, with [grid] reduced to
    whether it is bound, and the search box's value. *)
Record view := {
  v_sort : jsstr;
  v_filter : jsstr;
  v_favorites : list jsstr;
  v_page : jsstr;
  v_grid : bool;
  v_search : jsstr
}.

(** What the script writes into the document: the grid's children, the
    cards detached by [grid.innerHTML = ''], the [fade-out] class, each
    card's heart button (true: active), the active pages and anchors, the
    [data-sort] and [data-category] values whose buttons carry [active],
    and the favourites badge. *)
Record dom := {
  d_children : list card;
  d_detached : list card;
  d_faded : bool;
  d_heart : card → bool;
  d_active_pages : list jsstr;
  d_active_links : list bool;
  d_sort_hl : jsstr;
  d_filter_hl : jsstr;
  d_badge : Fav.badge
}.

Record state := {
  st_view : view;
  st_dom : dom;
  st_store : storage;
  st_now : Z;
  st_timers : list (Z * task)
}.

Module App.

(** Field updates. *)
Definition with_view (f : view → view) (s : state) : state :=
  {| st_view := f (st_view s); st_dom := st_dom s; st_store := st_store s;
     st_now := st_now s; st_timers := st_timers s |}.
Definition with_dom (f : dom → dom) (s : state) : state :=
  {| st_view := st_view s; st_dom := f (st_dom s); st_store := st_store s;
     st_now := st_now s; st_timers := st_timers s |}.
Definition with_store (f : storage → storage) (s : state) : state :=
  {| st_view := st_view s; st_dom := st_dom s; st_store := f (st_store s);
     st_now := st_now s; st_timers := st_timers s |}.
Definition with_timers (f : list (Z * task) → list (Z * task)) (s : state) : state :=
  {| st_view := st_view s; st_dom := st_dom s; st_store := st_store s;
     st_now := st_now s; st_timers := f (st_timers s) |}.

Definition set_sort x (v : view) : view :=
  {| v_sort := x; v_filter := v_filter v; v_favorites := v_favorites v;
     v_page := v_page v; v_grid := v_grid v; v_search := v_search v |}.
Definition set_filter x (v : view) : view :=
  {| v_sort := v_sort v; v_filter := x; v_favorites := v_favorites v;
     v_page := v_page v; v_grid := v_grid v; v_search := v_search v |}.
Definition set_favorites x (v : view) : view :=
  {| v_sort := v_sort v; v_filter := v_filter v; v_favorites := x;
     v_page := v_page v; v_grid := v_grid v; v_search := v_search v |}.
Definition set_page x (v : view) : view :=
  {| v_sort := v_sort v; v_filter := v_filter v; v_favorites := v_favorites v;
     v_page := x; v_grid := v_grid v; v_search := v_search v |}.
Definition set_grid x (v : view) : view :=
  {| v_sort := v_sort v; v_filter := v_filter v; v_favorites := v_favorites v;
     v_page := v_page v; v_grid := x; v_search := v_search v |}.
Definition set_search x (v : view) : view :=
  {| v_sort := v_sort v; v_filter := v_filter v; v_favorites := v_favorites v;
     v_page := v_page v; v_grid := v_grid v; v_search := x |}.

(** [setTimeout(f, delay)]: the callback joins the queue after every
    callback due no later than it, so callbacks run by due time and, at
    equal times, in the order they were scheduled. *)
Fixpoint insert_timer (due : Z) (t : task) (q : list (Z * task)) : list (Z * task) :=
  match q with
  | [] => [(due, t)]
  | (d, t') :: q' => if d <=? due then (d, t') :: insert_timer due t q' else (due, t) :: q
  end.

Definition set_timeout (delay : Z) (t : task) (s : state) : state :=
  with_timers (insert_timer (st_now s + delay) t) s.

Definition attached (d : dom) (c : card) : bool := negb (bool_decide (c ∈ d_detached d)).

Section Handlers.
Variable cfg : config.

(** The search text the pipeline reads: [searchInput?.value]. *)
Definition search_of (v : view) : option jsstr :=
  if cfg_has_search cfg then Some (v_search v) else None.

(** [applyFiltersAndSort] (lines 65-116): nothing without a grid; else
    compute [visibleCards] now, mark every card [fade-out] and schedule
    the render 200 ms later. *)
Definition apply_filters_and_sort (s : state) : state :=
  let v := st_view s in
  if negb (v_grid v) then s
  else
    let visible := Pipeline.visible_cards (cfg_cards cfg) (search_of v) (v_filter v) (v_sort v) in
    set_timeout 200 (RenderTask visible)
      (with_dom (λ d, {| d_children := d_children d; d_detached := d_detached d; d_faded := true;
                        d_heart := d_heart d; d_active_pages := d_active_pages d;
                        d_active_links := d_active_links d; d_sort_hl := d_sort_hl d;
                        d_filter_hl := d_filter_hl d; d_badge := d_badge d |}) s).

(** The render callback (lines 100-115), with [favorites] read when it
    runs: empty the grid, then append each visible card after setting its
    heart from [card.dataset.id]. *)
Definition render (visible : list card) (s : state) : state :=
  let favs := v_favorites (st_view s) in
  with_dom (λ d,
    {| d_children := visible;
       d_detached := List.filter (λ c, negb (bool_decide (c ∈ visible))) (d_detached d ++ d_children d);
       d_faded := d_faded d;
       d_heart := λ c, if bool_decide (c ∈ visible) && bool_decide (card_btn c ≠ None)
                       then Fav.includes_id favs (card_id c) else d_heart d c;
       d_active_pages := d_active_pages d; d_active_links := d_active_links d;
       d_sort_hl := d_sort_hl d; d_filter_hl := d_filter_hl d; d_badge := d_badge d |}) s.

(** [updateFavoritesCount] (lines 42-49). *)
Definition update_favorites_count (s : state) : state :=
  let favs := v_favorites (st_view s) in
  with_dom (λ d,
    {| d_children := d_children d; d_detached := d_detached d; d_faded := d_faded d;
       d_heart := d_heart d; d_active_pages := d_active_pages d;
       d_active_links := d_active_links d; d_sort_hl := d_sort_hl d;
       d_filter_hl := d_filter_hl d; d_badge := Fav.update_favorites_count favs |}) s.

(** [updateUI] (lines 119-139): the filter and sort buttons' [active]
    class, and the heart of every [.btn-fav] still in the document, from
    the button's own [data-id]. *)
Definition update_ui (s : state) : state :=
  let v := st_view s in
  with_dom (λ d,
    {| d_children := d_children d; d_detached := d_detached d; d_faded := d_faded d;
       d_heart := λ c, match card_btn c with
                       | Some bid => if attached d c then Fav.includes_id (v_favorites v) bid
                                     else d_heart d c
                       | None => d_heart d c
                       end;
       d_active_pages := d_active_pages d; d_active_links := d_active_links d;
       d_sort_hl := v_sort v; d_filter_hl := v_filter v; d_badge := d_badge d |}) s.

(** [toggleFavorite(id)] (lines 52-62). *)
Definition toggle_favorite (id : jsstr) (s : state) : state :=
  let favs := Fav.toggle id (v_favorites (st_view s)) in
  let s1 := with_view (set_favorites favs) s in
  let s2 := with_store (λ st, Store.set_item st Store.key_favorites
                                 (Stringify.stringify_strings favs)) s1 in
  update_ui (update_favorites_count s2).

(** [showPage(pageId)] (lines 22-39). *)
Definition show_page (pageId : jsstr) (s : state) : state :=
  let s1 := with_view (set_page pageId) s in
  let s2 := with_dom (λ d,
    {| d_children := d_children d; d_detached := d_detached d; d_faded := d_faded d;
       d_heart := d_heart d;
       d_active_pages := List.filter (λ p, bool_decide (p = pageId)) (cfg_pages cfg);
       d_active_links :=
         zip_with (λ (link : jsstr * bool) (act : bool),
                     if bool_decide (link.1 = js "#" ++ pageId) then true
                     else if link.2 then false else act) (cfg_links cfg) (d_active_links d);
       d_sort_hl := d_sort_hl d; d_filter_hl := d_filter_hl d; d_badge := d_badge d |}) s1 in
  let s3 := if bool_decide (pageId = js "catalog")
            then apply_filters_and_sort (with_view (set_grid (cfg_has_grid cfg)) s2)
            else s2 in
  with_store (λ st, Store.set_item st Store.key_page pageId) s3.

(** [updateAndSave(sortType, filterType)] (lines 142-155). *)
Definition update_and_save (sortType filterType : option jsstr) (s : state) : state :=
  let s1 := match sortType with Some x => with_view (set_sort x) s | None => s end in
  let s2 := match filterType with Some x => with_view (set_filter x) s1 | None => s1 end in
  let v := st_view s2 in
  let s3 := with_store (λ st,
              let st1 := Store.set_item st Store.key_sort (v_sort v) in
              let st2 := Store.set_item st1 Store.key_filter (v_filter v) in
              if cfg_has_search cfg then Store.set_item st2 Store.key_search (v_search v) else st2) s2 in
  if bool_decide (v_page v = js "catalog") && v_grid v then apply_filters_and_sort s3 else s3.

End Handlers.

(** The DOM events the script listens to. *)
Inductive event :=
  | ClickSort (value : jsstr)          (** a [.sort-btn], lines 158-162 *)
  | ClickFilter (value : jsstr)        (** a [.filter-btn], lines 164-168 *)
  | InputSearch (value : jsstr)        (** typing in [#search-input], lines 170-174 *)
  | ClickFav (c : card)                (** the [.btn-fav] of card [c], lines 176-182 *)
  | KeyCard (c : card) (key : jsstr)   (** a keydown on card [c], lines 203-211 *)
  | ClickLink (i : nat)                (** the [i]-th anchor, lines 185-191 *)
  | ClickGoCatalog.                    (** [#go-to-catalog-btn], lines 194-200 *)

Section Events.
Variable cfg : config.

(** The handler an event runs, or [None] when the page has no element to
    receive it (a button that does not exist, a detached card, an anchor
    that is not one of [navLinks]). *)
Definition handle (ev : event) (s : state) : option state :=
  match ev with
  | ClickSort x =>
      if bool_decide (x ∈ cfg_sort_btns cfg) then Some (update_and_save cfg (Some x) None s) else None
  | ClickFilter x =>
      if bool_decide (x ∈ cfg_filter_btns cfg) then Some (update_and_save cfg None (Some x) s) else None
  | InputSearch x =>
      if cfg_has_search cfg then Some (update_and_save cfg None None (with_view (set_search x) s))
      else None
  | ClickFav c =>
      if bool_decide (c ∈ cfg_cards cfg) && attached (st_dom s) c then
        match card_btn c with Some id => Some (toggle_favorite id s) | None => None end
      else None
  | KeyCard c key =>
      if bool_decide (c ∈ cfg_cards cfg) && attached (st_dom s) c then
        Some (if bool_decide (key = js "Enter") || bool_decide (key = js " ") then
                match card_btn c with Some id => toggle_favorite id s | None => s end
              else s)
      else None
  | ClickLink i =>
      match cfg_links cfg !! i with
      | Some (href, true) =>
          let target := drop 1 href in
          Some (if bool_decide (target = []) then s else show_page cfg target s)
      | _ => None
      end
  | ClickGoCatalog => if cfg_has_go_btn cfg then Some (show_page cfg (js "catalog") s) else None
  end.

(** A timer callback runs. *)
Definition run_task (t : task) (s : state) : state :=
  match t with
  | RenderTask visible => render visible s
  | InitApplyTask => apply_filters_and_sort cfg (with_view (set_grid (cfg_has_grid cfg)) s)
  end.

(** The earliest pending callback fires at its due time. *)
Definition fire (s : state) : option state :=
  match st_timers s with
  | [] => None
  | (due, t) :: q =>
      Some (run_task t {| st_view := st_view s; st_dom := st_dom s; st_store := st_store s;
                          st_now := Z.max (st_now s) due; st_timers := q |})
  end.

Definition advance (delta : Z) (s : state) : state :=
  {| st_view := st_view s; st_dom := st_dom s; st_store := st_store s;
     st_now := st_now s + delta; st_timers := st_timers s |}.

(** Start-up (lines 1-228) on the stored preferences [store0]: read the
    state, refresh the badge and the buttons, show the stored page,
    restore the search text, and schedule the delayed re-render when the
    page is the catalog.  [None] when line 18 throws, before any
    listener exists; also [None], as a run the model leaves out, when the
    stored favourites are valid JSON but not an array of strings
    ([AppNull] models [null]).  Every write is taken to succeed;
    [AppQuota] models writes that throw. *)
Definition init_state (store0 : storage) (favs : list jsstr) : state :=
  {| st_view := {| v_sort := Store.load_sort store0; v_filter := Store.load_filter store0;
                   v_favorites := favs; v_page := Store.load_page store0;
                   v_grid := false; v_search := cfg_search0 cfg |};
     st_dom := {| d_children := cfg_grid0 cfg; d_detached := []; d_faded := false;
                  d_heart := λ _, false; d_active_pages := [];
                  d_active_links := map (λ _, false) (cfg_links cfg);
                  d_sort_hl := []; d_filter_hl := [];
                  d_badge := Fav.update_favorites_count [] |};
     st_store := store0; st_now := 0; st_timers := [] |}.

(** Lines 218-228, after [showPage(currentPage)]. *)
Definition init_finish (s1 : state) : state :=
  let s2 := if cfg_has_search cfg
            then with_view (set_search (Store.load_search (st_store s1) (v_search (st_view s1)))) s1
            else s1 in
  if bool_decide (v_page (st_view s2) = js "catalog") then set_timeout 100 InitApplyTask s2 else s2.

Definition init (store0 : storage) : option state :=
  match Store.load_favorites store0 with
  | inr (Some favs) =>
      let s0 := init_state store0 favs in
      Some (init_finish (show_page cfg (v_page (st_view s0)) (update_ui (update_favorites_count s0))))
  | _ => None
  end.

(** One step of the page: an event, a callback, or time passing without
    overtaking a pending callback. *)
Inductive step : state → state → Prop :=
  | step_event ev s s' : handle ev s = Some s' → step s s'
  | step_fire s s' : fire s = Some s' → step s s'
  | step_wait s delta :
      0 <= delta → Forall (λ e, st_now s + delta <= e.1) (st_timers s) →
      step s (advance delta s).

Definition reachable (s : state) : Prop :=
  ∃ store0 s0, init store0 = Some s0 ∧ rtc step s0 s.

End Events.

End App.

Section Reach.
Import App.
Variable cfg : config.

(** Rule induction over the reachable states: an invariant holds of
    every reachable state when start-up establishes it and every step
    keeps it. *)
Lemma reachable_ind (I : state → Prop) :
  (∀ store0 s0, init cfg store0 = Some s0 → I s0) →
  (∀ s s', I s → step cfg s s' → I s') →
  ∀ s, reachable cfg s → I s.
Proof.
  intros Hinit Hstep s (store0 & s0 & Hs0 & Hrtc).
  apply Hinit in Hs0. induction Hrtc as [|x y z Hxy Hyz IH]; [done|].
  apply IH. by apply (Hstep x y).
Qed.

Lemma reachable_step s s' : reachable cfg s → step cfg s s' → reachable cfg s'.
Proof.
  intros (store0 & s0 & Hi & Hr) Hs. exists store0, s0. split; [done|]. by eapply rtc_r.
Qed.

(** What a handler does, up to the helper it calls: [updateAndSave]
    (after a new search text for an input event), [toggleFavorite],
    [showPage], or nothing.  A relation between the states before and
    after that every helper satisfies holds of every handler. *)
Lemma handle_ind (P : state → state → Prop) :
  (∀ so fo s, P s (update_and_save cfg so fo s)) →
  (∀ x s, P s (update_and_save cfg None None (with_view (set_search x) s))) →
  (∀ id s, P s (toggle_favorite id s)) →
  (∀ p s, P s (show_page cfg p s)) →
  (∀ s, P s s) →
  ∀ ev s s', handle cfg ev s = Some s' → P s s'.
Proof.
  intros Hus Hse Hto Hsh Hid ev s s' Hh. destruct ev as [x|x|x|c|c key|i|]; simpl in Hh.
  - case_bool_decide; [|done]. by injection Hh as <-.
  - case_bool_decide; [|done]. by injection Hh as <-.
  - destruct (cfg_has_search cfg); [|done]. by injection Hh as <-.
  - destruct (_ && _); [|done]. destruct (card_btn c); [|done]. by injection Hh as <-.
  - destruct (_ && _); [|done]. injection Hh as <-. by destruct (_ || _); [destruct (card_btn c)|].
  - destruct (cfg_links cfg !! i) as [[href []]|]; try done. injection Hh as <-. by case_bool_decide.
  - destruct (cfg_has_go_btn cfg); [|done]. by injection Hh as <-.
Qed.

(** The same for an invariant of the state. *)
Lemma handle_pres (I : state → Prop) :
  (∀ so fo s, I s → I (update_and_save cfg so fo s)) →
  (∀ x s, I s → I (update_and_save cfg None None (with_view (set_search x) s))) →
  (∀ id s, I s → I (toggle_favorite id s)) →
  (∀ p s, I s → I (show_page cfg p s)) →
  ∀ ev s s', I s → handle cfg ev s = Some s' → I s'.
Proof.
  intros Hus Hse Hto Hsh ev s s' Hs Hh.
  exact (handle_ind (λ a b, I a → I b) Hus Hse Hto Hsh (λ _ H, H) ev s s' Hh Hs).
Qed.

(** A step is an event, a callback or a wait: case analysis for
    preservation proofs. *)
Lemma step_cases (I : state → Prop) :
  (∀ ev s s', I s → handle cfg ev s = Some s' → I s') →
  (∀ s s', I s → fire cfg s = Some s' → I s') →
  (∀ s delta, I s → 0 <= delta → Forall (λ e, st_now s + delta <= e.1) (st_timers s) →
              I (advance delta s)) →
  ∀ s s', I s → step cfg s s' → I s'.
Proof. intros He Hf Hw s s' HI Hs. destruct Hs; eauto. Qed.

End Reach.
