(* ===== verification/AppInv.v ===== *)
(** Invariants of the application model [App] over every reachable
    state: the bound on pending callbacks and the order in which renders
    join the queue, the agreement of the persisted preferences with the
    closure state (the reload contract), the heart buttons and the badge,
    and the facts about the DOM that the script never undoes; with a
    small demo page on which the theorems are run. *)

From S2P Require Import Prelude JsString StableSort JsNumber Pipeline Favorites Json Store App.
Local Open Scope Z_scope.

(** Every pending callback is due within 200 ms of the current time. *)
Definition timers_bounded (s : state) : Prop :=
  Forall (λ e, e.1 <= st_now s + 200) (st_timers s).

(** [s'] is [s] after synchronous code: the clock is unchanged and only
    renders due in 200 ms were scheduled, after the pending callbacks. *)
Definition sched_ext (s s' : state) : Prop :=
  st_now s' = st_now s ∧
  ∃ extra, st_timers s' = st_timers s ++ extra ∧
           Forall (λ e, e.1 = st_now s + 200 ∧ ∃ v, e.2 = RenderTask v) extra.

Section Sched.
Import App.
Variable cfg : config.

Lemma insert_timer_last due t q :
  Forall (λ e, e.1 <= due) q → insert_timer due t q = q ++ [(due, t)].
Proof.
  induction 1 as [|[d t'] q Hd Hq IH]; simpl; [done|].
  simpl in Hd. case_zcmp. by rewrite IH.
Qed.

Lemma sched_ext_same s s' :
  st_now s' = st_now s → st_timers s' = st_timers s → sched_ext s s'.
Proof. intros Hn Ht. split; [done|]. exists []. by rewrite app_nil_r. Qed.

Lemma sched_ext_id s : sched_ext s s.
Proof. by apply sched_ext_same. Qed.

Lemma sched_ext_trans s1 s2 s3 : sched_ext s1 s2 → sched_ext s2 s3 → sched_ext s1 s3.
Proof.
  intros [Hn1 (e1 & Ht1 & He1)] [Hn2 (e2 & Ht2 & He2)]. split; [congruence|].
  exists (e1 ++ e2). rewrite Ht2, Ht1, app_assoc. split; [done|].
  apply Forall_app. split; [done|]. by rewrite <- Hn1.
Qed.

Lemma sched_ext_bounded s s' : timers_bounded s → sched_ext s s' → timers_bounded s'.
Proof.
  intros Hb [Hn (e & Ht & He)]. unfold timers_bounded. rewrite Ht, Hn.
  apply Forall_app. split; [done|]. eapply Forall_impl; [exact He|]. intros x [-> _]. lia.
Qed.

(** [applyFiltersAndSort] with a bound grid appends its render after
    every pending callback. *)
Lemma apply_sched s :
  timers_bounded s → sched_ext s (apply_filters_and_sort cfg s).
Proof.
  intros Hb. unfold apply_filters_and_sort. destruct (v_grid (st_view s)); simpl; [|apply sched_ext_id].
  split; [done|]. eexists. unfold set_timeout. simpl. rewrite insert_timer_last by done.
  split; [done|]. repeat constructor. eauto.
Qed.

Lemma sched_ext_view f s : sched_ext s (with_view f s).
Proof. by apply sched_ext_same. Qed.
Lemma sched_ext_dom f s : sched_ext s (with_dom f s).
Proof. by apply sched_ext_same. Qed.
Lemma sched_ext_store f s : sched_ext s (with_store f s).
Proof. by apply sched_ext_same. Qed.

(** Synchronous code around an [applyFiltersAndSort]. *)
Lemma sched_ext_apply_after s s1 :
  timers_bounded s → sched_ext s s1 → sched_ext s (apply_filters_and_sort cfg s1).
Proof.
  intros Hb H1. eapply sched_ext_trans; [exact H1|].
  apply apply_sched. eapply sched_ext_bounded; eauto.
Qed.

Ltac sched_solve :=
  repeat first
    [ apply sched_ext_id
    | apply sched_ext_view | apply sched_ext_dom | apply sched_ext_store
    | eapply sched_ext_trans; [|apply sched_ext_store]
    | eapply sched_ext_trans; [|apply sched_ext_view]
    | eapply sched_ext_trans; [|apply sched_ext_dom]
    | apply sched_ext_apply_after; [assumption|] ].

Lemma show_page_sched p s : timers_bounded s → sched_ext s (show_page cfg p s).
Proof.
  intros Hb. unfold show_page. case_bool_decide; sched_solve.
Qed.

Lemma update_and_save_sched so fo s : timers_bounded s → sched_ext s (update_and_save cfg so fo s).
Proof.
  intros Hb. unfold update_and_save.
  destruct so, fo; simpl; destruct (bool_decide _ && _); sched_solve.
Qed.

Lemma toggle_favorite_sched id s : sched_ext s (App.toggle_favorite id s).
Proof. by apply sched_ext_same. Qed.

Lemma handle_sched ev s s' :
  timers_bounded s → handle cfg ev s = Some s' → sched_ext s s'.
Proof.
  intros Hb Hh. revert Hb. apply (handle_ind cfg (λ a b, timers_bounded a → sched_ext a b)) with ev; [..|exact Hh].
  - intros so fo t H. by apply update_and_save_sched.
  - intros x t H. eapply sched_ext_trans; [apply sched_ext_view|]. by apply update_and_save_sched.
  - intros id t _. apply toggle_favorite_sched.
  - intros p t H. by apply show_page_sched.
  - intros t _. apply sched_ext_id.
Qed.

Lemma insert_timer_Forall (P : Z * task → Prop) due t q :
  P (due, t) → Forall P q → Forall P (insert_timer due t q).
Proof.
  intros Hp. induction 1 as [|[d t'] q Hd Hq IH]; simpl; [by constructor|].
  destruct (d <=? due); by repeat constructor.
Qed.

Lemma insert_timer_in due t q : In (due, t) (insert_timer due t q).
Proof. induction q as [|[d t'] q IH]; simpl; [by left|]. destruct (d <=? due); simpl; auto. Qed.

Lemma init_finish_bounded s1 : timers_bounded s1 → timers_bounded (init_finish cfg s1).
Proof.
  intros Hs. unfold init_finish.
  destruct (cfg_has_search cfg); case_bool_decide; try exact Hs;
    unfold set_timeout; apply insert_timer_Forall; simpl; try lia; exact Hs.
Qed.

Lemma init_bounded store0 s0 : init cfg store0 = Some s0 → timers_bounded s0.
Proof.
  unfold init. destruct (Store.load_favorites store0) as [|[favs|]]; try done.
  intros [= <-]. apply init_finish_bounded.
  eapply sched_ext_bounded; [|apply show_page_sched]; constructor.
Qed.

Lemma fire_bounded s s' : timers_bounded s → fire cfg s = Some s' → timers_bounded s'.
Proof.
  unfold fire. destruct (st_timers s) as [|[due t] q] eqn:Ht; [done|].
  intros Hb [= <-]. unfold timers_bounded in Hb. rewrite Ht in Hb.
  apply Forall_cons in Hb as [_ Hq].
  assert (Hq' : timers_bounded {| st_view := st_view s; st_dom := st_dom s; st_store := st_store s;
                                  st_now := Z.max (st_now s) due; st_timers := q |}).
  { eapply Forall_impl; [exact Hq|]. simpl. lia. }
  destruct t; simpl; [exact Hq'|].
  eapply sched_ext_bounded; [|apply apply_sched]; exact Hq'.
Qed.

Lemma step_bounded s s' : timers_bounded s → step cfg s s' → timers_bounded s'.
Proof.
  apply step_cases.
  - intros ev s1 s2 Hb Hh. eapply sched_ext_bounded; [exact Hb|]. by eapply handle_sched.
  - apply fire_bounded.
  - intros s1 d Hb Hd _. eapply Forall_impl; [exact Hb|]. simpl. lia.
Qed.

Lemma reachable_bounded s : reachable cfg s → timers_bounded s.
Proof. apply reachable_ind; [apply init_bounded|apply step_bounded]. Qed.

End Sched.

(** The persisted preferences read back the way start-up reads them
    (lines 16-19 and 218-220) agree with the closure state. *)
Definition persisted4 (s : state) : Prop :=
  Store.load_sort (st_store s) = v_sort (st_view s) ∧
  Store.load_filter (st_store s) = v_filter (st_view s) ∧
  Store.load_favorites (st_store s) = inr (Some (v_favorites (st_view s))) ∧
  Store.load_page (st_store s) = v_page (st_view s).

Definition persisted (cfg : config) (s : state) : Prop :=
  persisted4 s ∧
  (cfg_has_search cfg = true →
   Store.load_search (st_store s) (cfg_search0 cfg) = v_search (st_view s)).

(** What the page's markup must satisfy for the reload contract: every
    sort and filter button carries a non-empty value, the search box
    starts empty, and every heart button is labelled with its card's id,
    made of non-negative code units. *)
Record config_wf (cfg : config) : Prop := {
  wf_sort_btns : Forall (λ x, x ≠ []) (cfg_sort_btns cfg);
  wf_filter_btns : Forall (λ x, x ≠ []) (cfg_filter_btns cfg);
  wf_search0 : cfg_search0 cfg = [];
  wf_btn_id : Forall (λ c, card_btn c = None ∨ card_btn c = Some (card_id c)) (cfg_cards cfg);
  wf_id_units : Forall (λ c, Forall (λ u, 0 <= u) (card_id c)) (cfg_cards cfg)
}.

Ltac keys_neq := vm_compute; congruence.

Ltac store_simpl :=
  unfold persisted, persisted4, Store.load_sort, Store.load_filter, Store.load_page in *;
  repeat first
    [ rewrite Store.get_or_set_other by keys_neq
    | rewrite Store.load_favorites_set_other by keys_neq
    | rewrite Store.load_search_set_other by keys_neq
    | rewrite Store.load_search_set_same ].

Section Frame.
Import App.
Variable cfg : config.

(** The handlers that only touch the document and the queue. *)
Lemma apply_frame s :
  st_view (apply_filters_and_sort cfg s) = st_view s ∧ st_store (apply_filters_and_sort cfg s) = st_store s.
Proof. unfold apply_filters_and_sort. by destruct (negb _). Qed.

Lemma persisted_apply s : persisted cfg s → persisted cfg (apply_filters_and_sort cfg s).
Proof. unfold persisted, persisted4. by destruct (apply_frame s) as [-> ->]. Qed.

Lemma get_or_nonempty st k d : d ≠ [] → Store.get_or st k d ≠ [].
Proof. unfold Store.get_or. destruct (st !! k) as [[|? ?]|]; done. Qed.



Lemma update_and_save_persisted so fo s :
  config_wf cfg → persisted4 s →
  (∀ x, so = Some x → x ∈ cfg_sort_btns cfg) → (∀ x, fo = Some x → x ∈ cfg_filter_btns cfg) →
  persisted cfg (update_and_save cfg so fo s).
Proof.
  intros Hwf (Hso & Hfi & Hfa & Hpa) Hso_ok Hfo_ok.
  assert (Hsort : v_sort (st_view (match so with Some x => with_view (set_sort x) s | None => s end)) ≠ []).
  { destruct so as [x|]; simpl.
    - apply (proj1 (Forall_forall _ _) (wf_sort_btns cfg Hwf)). by apply Hso_ok.
    - rewrite <- Hso. by apply get_or_nonempty. }
  assert (Hfilt : v_filter (st_view (match fo with Some x => with_view (set_filter x) (match so with Some x => with_view (set_sort x) s | None => s end) | None => match so with Some x => with_view (set_sort x) s | None => s end end)) ≠ []).
  { destruct fo as [x|]; simpl.
    - apply (proj1 (Forall_forall _ _) (wf_filter_btns cfg Hwf)). by apply Hfo_ok.
    - destruct so; simpl; rewrite <- Hfi; by apply get_or_nonempty. }
  unfold update_and_save.
  match goal with |- persisted cfg (if ?b then _ else _) => destruct b end;
    [apply persisted_apply|]; destruct so, fo; simpl in *;
    (split; [repeat split|intros Hs; rewrite Hs]);
    destruct (cfg_has_search cfg); simpl; store_simpl;
    rewrite ?Store.get_or_set_same by done; try done;
    by rewrite (wf_search0 cfg Hwf); destruct (v_search _).
Qed.

Lemma toggle_favorite_persisted id s :
  persisted cfg s → Forall (λ u, 0 <= u) id → persisted cfg (toggle_favorite id s).
Proof.
  intros [(Hso & Hfi & Hfa & Hpa) Hse] Hid.
  pose proof (Store.load_favorites_nonneg _ _ Hfa) as Hfav.
  unfold toggle_favorite, update_ui, update_favorites_count, with_dom, with_store, with_view.
  unfold persisted, persisted4. simpl.
  split; [repeat split|]; store_simpl; try done.
  apply Store.load_favorites_stringify.
  apply Forall_forall. intros x Hx%list_elem_of_In.
  destruct (toggle_In_incl id _ x Hx) as [->|Hin]; [done|].
  by apply (proj1 (Forall_forall _ _) Hfav), list_elem_of_In.
Qed.

(** [showPage] writes the page it shows and leaves the search alone. *)
Lemma show_page_persisted4 p s :
  p ≠ [] → persisted4 s →
  persisted4 (show_page cfg p s) ∧
  (∀ d, Store.load_search (st_store (show_page cfg p s)) d = Store.load_search (st_store s) d) ∧
  v_search (st_view (show_page cfg p s)) = v_search (st_view s).
Proof.
  intros Hp (Hso & Hfi & Hfa & Hpa). unfold show_page.
  case_bool_decide.
  - match goal with |- context [apply_filters_and_sort cfg ?x] =>
      destruct (apply_frame x) as [Hv Hs] end.
    unfold persisted4, with_store. cbn [st_store st_view]. rewrite Hv, Hs.
    cbn [st_store st_view with_view with_dom with_store set_page set_grid
         v_sort v_filter v_favorites v_page v_search].
    split; [repeat split|split; [intros d|done]]; store_simpl; try done.
    by rewrite Store.get_or_set_same.
  - unfold persisted4.
    cbn [st_store st_view with_view with_dom with_store set_page set_grid
         v_sort v_filter v_favorites v_page v_search].
    split; [repeat split|split; [intros d|done]]; store_simpl; try done.
    by rewrite Store.get_or_set_same.
Qed.

Lemma show_page_persisted p s :
  p ≠ [] → persisted cfg s → persisted cfg (show_page cfg p s).
Proof.
  intros Hp [H4 Hse]. destruct (show_page_persisted4 p s Hp H4) as (H4' & Hls & Hvs).
  split; [done|]. intros Hs. by rewrite Hls, Hvs, Hse.
Qed.

Lemma btn_id_units c id :
  config_wf cfg → c ∈ cfg_cards cfg → card_btn c = Some id → Forall (λ u, 0 <= u) id.
Proof.
  intros Hwf Hc Hb.
  destruct (proj1 (Forall_forall _ _) (wf_btn_id cfg Hwf) c Hc) as [H|H]; rewrite Hb in H; [done|].
  injection H as ->. exact (proj1 (Forall_forall _ _) (wf_id_units cfg Hwf) c Hc).
Qed.

Lemma handle_persisted ev s s' :
  config_wf cfg → persisted cfg s → handle cfg ev s = Some s' → persisted cfg s'.
Proof.
  intros Hwf Hp Hh. destruct ev as [x|x|x|c|c key|i|]; simpl in Hh.
  - case_bool_decide; [|done]. injection Hh as <-.
    apply update_and_save_persisted; [done|apply Hp|intros ? [= <-]; done|done].
  - case_bool_decide; [|done]. injection Hh as <-.
    apply update_and_save_persisted; [done|apply Hp|done|intros ? [= <-]; done].
  - destruct (cfg_has_search cfg); [|done]. injection Hh as <-.
    apply update_and_save_persisted; [done|apply Hp|done|done].
  - destruct (bool_decide (c ∈ cfg_cards cfg)) eqn:Hc; [|done].
    destruct (attached _ _); [|done]. destruct (card_btn c) as [id|] eqn:Hb; [|done].
    injection Hh as <-. apply toggle_favorite_persisted; [done|].
    apply bool_decide_eq_true in Hc. by eapply btn_id_units.
  - destruct (bool_decide (c ∈ cfg_cards cfg)) eqn:Hc; [|done].
    destruct (attached _ _); [|done]. injection Hh as <-.
    destruct (_ || _); [|done]. destruct (card_btn c) as [id|] eqn:Hb; [|done].
    apply toggle_favorite_persisted; [done|].
    apply bool_decide_eq_true in Hc. by eapply btn_id_units.
  - destruct (cfg_links cfg !! i) as [[href []]|]; try done. injection Hh as <-.
    case_bool_decide; [done|]. by apply show_page_persisted.
  - destruct (cfg_has_go_btn cfg); [|done]. injection Hh as <-.
    by apply show_page_persisted.
Qed.

Lemma fire_persisted s s' : persisted cfg s → fire cfg s = Some s' → persisted cfg s'.
Proof.
  unfold fire. destruct (st_timers s) as [|[due t] q]; [done|]. intros Hp [= <-].
  destruct t; simpl; [exact Hp|]. by apply persisted_apply.
Qed.

Lemma init_finish_persisted s1 :
  persisted4 s1 → v_search (st_view s1) = cfg_search0 cfg → persisted cfg (init_finish cfg s1).
Proof.
  intros H4 Hvs. unfold init_finish.
  destruct (cfg_has_search cfg) eqn:Hs; case_bool_decide;
    (split; [exact H4|intros Hs'; try congruence]);
    unfold set_timeout, with_timers, with_view; cbn [st_store st_view v_search set_search];
    by rewrite Hvs.
Qed.

Lemma init_persisted store0 s0 : init cfg store0 = Some s0 → persisted cfg s0.
Proof.
  unfold init. destruct (Store.load_favorites store0) as [|[favs|]] eqn:Hfa; try done.
  intros [= <-].
  match goal with |- context [show_page cfg ?p ?x] =>
    assert (H4 : persisted4 x) by (unfold persisted4; simpl; by repeat split);
    destruct (show_page_persisted4 p x ltac:(apply get_or_nonempty; done) H4) as (H4' & Hls & Hvs)
  end.
  apply init_finish_persisted; [done|]. by rewrite Hvs.
Qed.

(** The persisted preferences track the closure state in every reachable
    state. *)
Lemma reachable_persisted s : config_wf cfg → reachable cfg s → persisted cfg s.
Proof.
  intros Hwf. apply reachable_ind; [apply init_persisted|].
  apply step_cases.
  - intros ev s1 s2 Hp Hh. by eapply handle_persisted.
  - apply fire_persisted.
  - intros s1 d Hp _ _. exact Hp.
Qed.

End Frame.

Section Reload.
Import App.
Variable cfg : config.

Lemma show_page_view p s :
  v_sort (st_view (show_page cfg p s)) = v_sort (st_view s) ∧
  v_filter (st_view (show_page cfg p s)) = v_filter (st_view s) ∧
  v_favorites (st_view (show_page cfg p s)) = v_favorites (st_view s) ∧
  v_page (st_view (show_page cfg p s)) = p ∧
  v_search (st_view (show_page cfg p s)) = v_search (st_view s).
Proof.
  unfold show_page. case_bool_decide; [|done].
  match goal with |- context [apply_filters_and_sort cfg ?x] =>
    destruct (apply_frame cfg x) as [Hv _] end.
  unfold with_store at 1 2 3 4 5. cbn [st_view]. rewrite Hv. done.
Qed.

(** What start-up reads: each view field from its key. *)
Lemma init_view store0 s :
  init cfg store0 = Some s →
  Store.load_favorites store0 = inr (Some (v_favorites (st_view s))) ∧
  v_sort (st_view s) = Store.load_sort store0 ∧
  v_filter (st_view s) = Store.load_filter store0 ∧
  v_page (st_view s) = Store.load_page store0 ∧
  (cfg_has_search cfg = true → v_search (st_view s) = Store.load_search store0 (cfg_search0 cfg)).
Proof.
  unfold init. destruct (Store.load_favorites store0) as [|[favs|]] eqn:Hfa; try done.
  intros [= <-].
  match goal with |- context [show_page cfg ?p ?x] =>
    destruct (show_page_view p x) as (Hso & Hfi & Hfv & Hpa & Hse);
    assert (Hst : ∀ d, Store.load_search (st_store (show_page cfg p x)) d = Store.load_search store0 d)
      by (intros d; unfold show_page; case_bool_decide;
          [ match goal with |- context [apply_filters_and_sort cfg ?y] =>
              destruct (apply_frame cfg y) as [_ Hs] end;
            unfold with_store at 1; cbn [st_store]; rewrite Hs; simpl;
            by rewrite Store.load_search_set_other by keys_neq
          | simpl; by rewrite Store.load_search_set_other by keys_neq ]);
    remember (show_page cfg p x) as s1 eqn:Hs1
  end.
  simpl in Hso, Hfi, Hfv, Hpa, Hse.
  unfold init_finish.
  destruct (cfg_has_search cfg); case_bool_decide;
    unfold set_timeout, with_timers, with_view; cbn [st_store st_view v_search set_search
      v_sort v_filter v_favorites v_page];
    rewrite ?Hso, ?Hfi, ?Hfv, ?Hpa; repeat split; try done;
    intros _; by rewrite Hst, Hse.
Qed.

End Reload.

(** Every heart button still in the document shows whether its card is a
    favourite. *)
Definition hearts_ok (cfg : config) (s : state) : Prop :=
  ∀ c b, c ∈ cfg_cards cfg → App.attached (st_dom s) c = true → card_btn c = Some b →
         d_heart (st_dom s) c = Fav.includes_id (v_favorites (st_view s)) b.

(** [s'] has the same hearts, detached cards and favourites as [s]. *)
Definition hearts_frame (s s' : state) : Prop :=
  d_heart (st_dom s') = d_heart (st_dom s) ∧ d_detached (st_dom s') = d_detached (st_dom s) ∧
  v_favorites (st_view s') = v_favorites (st_view s).

Section Hearts.
Import App.
Variable cfg : config.

Lemma hearts_frame_ok s s' : hearts_frame s s' → hearts_ok cfg s → hearts_ok cfg s'.
Proof.
  intros (Hh & Hd & Hf) Hok c b Hc Ha Hb. unfold attached in Ha.
  rewrite Hh, Hf. apply Hok; [done| |done]. unfold attached. by rewrite <- Hd.
Qed.

Lemma hearts_frame_trans s1 s2 s3 : hearts_frame s1 s2 → hearts_frame s2 s3 → hearts_frame s1 s3.
Proof. intros (? & ? & ?) (? & ? & ?). repeat split; congruence. Qed.

Lemma apply_hearts_frame s : hearts_frame s (apply_filters_and_sort cfg s).
Proof. unfold apply_filters_and_sort. by destruct (negb _). Qed.

Lemma show_page_hearts_frame p s : hearts_frame s (show_page cfg p s).
Proof.
  unfold show_page. case_bool_decide; [|done].
  eapply hearts_frame_trans; [|unfold with_store at 1; apply (apply_hearts_frame _)]. done.
Qed.

Lemma update_and_save_hearts_frame so fo s : hearts_frame s (update_and_save cfg so fo s).
Proof.
  unfold update_and_save.
  destruct so, fo; simpl; (destruct (_ && _); [eapply hearts_frame_trans; [|apply apply_hearts_frame]|]); done.
Qed.

(** [updateUI] sets every attached heart from the favourites. *)
Lemma update_ui_hearts s : hearts_ok cfg (update_ui s).
Proof.
  intros c b Hc Ha Hb. simpl. rewrite Hb. unfold attached in *. simpl in Ha. by rewrite Ha.
Qed.

Lemma toggle_favorite_hearts id s : hearts_ok cfg (toggle_favorite id s).
Proof. apply update_ui_hearts. Qed.

(** The render sets the hearts of the cards it appends from
    [card.dataset.id], which is the button's id on a well-formed page. *)
Lemma render_hearts vis s :
  Forall (λ c, card_btn c = None ∨ card_btn c = Some (card_id c)) (cfg_cards cfg) →
  hearts_ok cfg s → hearts_ok cfg (render vis s).
Proof.
  intros Hwf Hok c b Hc Ha Hb. unfold render, attached in *. simpl in *.
  destruct (bool_decide (c ∈ vis)) eqn:Hv; simpl.
  - rewrite bool_decide_true by congruence.
    destruct (proj1 (Forall_forall _ _) Hwf c Hc) as [H|H]; rewrite Hb in H; [done|].
    by injection H as ->.
  - apply negb_true_iff, bool_decide_eq_false in Ha.
    apply bool_decide_eq_false in Hv.
    apply Hok; [done| |done]. unfold attached. apply negb_true_iff, bool_decide_eq_false.
    intros Hd. apply Ha. apply list_elem_of_In, filter_In. split.
    + apply list_elem_of_In, elem_of_app. by left.
    + by rewrite bool_decide_false.
Qed.

Lemma init_finish_hearts_frame s : hearts_frame s (init_finish cfg s).
Proof. unfold init_finish. by destruct (cfg_has_search cfg); case_bool_decide. Qed.

Lemma handle_hearts ev s s' :
  hearts_ok cfg s → handle cfg ev s = Some s' → hearts_ok cfg s'.
Proof.
  revert ev s s'. apply handle_pres.
  - intros so fo t. apply hearts_frame_ok, update_and_save_hearts_frame.
  - intros x t H. eapply hearts_frame_ok; [apply update_and_save_hearts_frame|exact H].
  - intros id t _. apply toggle_favorite_hearts.
  - intros p t. apply hearts_frame_ok, show_page_hearts_frame.
Qed.

Lemma fire_hearts s s' :
  Forall (λ c, card_btn c = None ∨ card_btn c = Some (card_id c)) (cfg_cards cfg) →
  hearts_ok cfg s → fire cfg s = Some s' → hearts_ok cfg s'.
Proof.
  intros Hwf Hok. unfold fire. destruct (st_timers s) as [|[due t] q]; [done|]. intros [= <-].
  destruct t; simpl.
  - by apply render_hearts.
  - eapply hearts_frame_ok; [apply apply_hearts_frame|done].
Qed.

Lemma init_hearts store0 s0 : init cfg store0 = Some s0 → hearts_ok cfg s0.
Proof.
  unfold init. destruct (Store.load_favorites store0) as [|[favs|]]; try done. intros [= <-].
  eapply hearts_frame_ok; [apply init_finish_hearts_frame|].
  eapply hearts_frame_ok; [apply show_page_hearts_frame|]. apply update_ui_hearts.
Qed.

Lemma reachable_hearts s : config_wf cfg → reachable cfg s → hearts_ok cfg s.
Proof.
  intros Hwf. apply reachable_ind; [apply init_hearts|]. apply step_cases.
  - apply handle_hearts.
  - intros s1 s2. apply fire_hearts, (wf_btn_id cfg Hwf).
  - intros s1 d Hok _ _. exact Hok.
Qed.

End Hearts.

(** The badge shows the number of favourites, and its colour whether
    there is one. *)
Definition badge_ok (s : state) : Prop :=
  d_badge (st_dom s) = Fav.update_favorites_count (v_favorites (st_view s)).

(** [s'] has the badge and the favourites of [s]. *)
Definition badge_frame (s s' : state) : Prop :=
  d_badge (st_dom s') = d_badge (st_dom s) ∧ v_favorites (st_view s') = v_favorites (st_view s).

Section Badge.
Import App.
Variable cfg : config.

Lemma badge_frame_ok s s' : badge_frame s s' → badge_ok s → badge_ok s'.
Proof. unfold badge_ok. intros [-> ->]. done. Qed.

Lemma apply_badge_frame s : badge_frame s (apply_filters_and_sort cfg s).
Proof. unfold apply_filters_and_sort. by destruct (negb _). Qed.

Lemma show_page_badge_frame p s : badge_frame s (show_page cfg p s).
Proof.
  unfold show_page. case_bool_decide; [|done].
  match goal with |- context [apply_filters_and_sort cfg ?y] =>
    destruct (apply_badge_frame y) as [H1 H2]; split; [exact H1|exact H2] end.
Qed.

Lemma update_and_save_badge_frame so fo s : badge_frame s (update_and_save cfg so fo s).
Proof.
  unfold update_and_save. destruct so, fo; cbv zeta; destruct (_ && _); try done;
    match goal with |- context [apply_filters_and_sort cfg ?y] =>
      destruct (apply_badge_frame y) as [H1 H2]; split; [exact H1|exact H2] end.
Qed.

Lemma handle_badge ev s s' : badge_ok s → handle cfg ev s = Some s' → badge_ok s'.
Proof.
  revert ev s s'. apply handle_pres.
  - intros so fo t. apply badge_frame_ok, update_and_save_badge_frame.
  - intros x t H. eapply badge_frame_ok; [apply update_and_save_badge_frame|exact H].
  - done.
  - intros p t. apply badge_frame_ok, show_page_badge_frame.
Qed.

Lemma fire_badge s s' : badge_ok s → fire cfg s = Some s' → badge_ok s'.
Proof.
  intros Hok. unfold fire. destruct (st_timers s) as [|[due t] q]; [done|]. intros [= <-].
  destruct t; [done|]. eapply badge_frame_ok; [apply apply_badge_frame|done].
Qed.

Lemma init_badge store0 s0 : init cfg store0 = Some s0 → badge_ok s0.
Proof.
  unfold init. destruct (Store.load_favorites store0) as [|[favs|]]; try done. intros [= <-].
  match goal with |- badge_ok (init_finish cfg ?x) =>
    assert (Hx : badge_ok x) by (eapply badge_frame_ok; [apply show_page_badge_frame|done]) end.
  unfold init_finish. by destruct (cfg_has_search cfg); case_bool_decide.
Qed.

Lemma reachable_badge s : reachable cfg s → badge_ok s.
Proof.
  apply reachable_ind; [apply init_badge|]. apply step_cases; [apply handle_badge|apply fire_badge|].
  intros x d Hx _ _. exact Hx.
Qed.

End Badge.

Section DomFacts.
Import App.
Variable cfg : config.

(** [applyFiltersAndSort] touches only [fade-out] and the queue. *)
Lemma apply_dom s :
  d_sort_hl (st_dom (apply_filters_and_sort cfg s)) = d_sort_hl (st_dom s) ∧
  d_filter_hl (st_dom (apply_filters_and_sort cfg s)) = d_filter_hl (st_dom s) ∧
  d_active_pages (st_dom (apply_filters_and_sort cfg s)) = d_active_pages (st_dom s) ∧
  (d_faded (st_dom s) = true → d_faded (st_dom (apply_filters_and_sort cfg s)) = true).
Proof. unfold apply_filters_and_sort. by destruct (negb _). Qed.

Lemma update_and_save_hl so fo s :
  d_sort_hl (st_dom (update_and_save cfg so fo s)) = d_sort_hl (st_dom s) ∧
  d_filter_hl (st_dom (update_and_save cfg so fo s)) = d_filter_hl (st_dom s).
Proof.
  unfold update_and_save.
  destruct so, fo; simpl; (destruct (_ && _); [|done]);
    match goal with |- context [apply_filters_and_sort cfg ?x] =>
      by destruct (apply_dom x) as (-> & -> & _) end.
Qed.

Lemma update_and_save_sort x s : v_sort (st_view (update_and_save cfg (Some x) None s)) = x.
Proof.
  unfold update_and_save. simpl. destruct (_ && _); [|done].
  match goal with |- context [apply_filters_and_sort cfg ?y] =>
    by destruct (apply_frame cfg y) as [-> _] end.
Qed.

Lemma show_page_faded p s : d_faded (st_dom s) = true → d_faded (st_dom (show_page cfg p s)) = true.
Proof.
  intros Hf. unfold show_page. case_bool_decide; [|done].
  unfold with_store at 1. cbn [st_dom]. by apply apply_dom.
Qed.

Lemma update_and_save_faded so fo s :
  d_faded (st_dom s) = true → d_faded (st_dom (update_and_save cfg so fo s)) = true.
Proof.
  intros Hf. unfold update_and_save.
  destruct so, fo; simpl; (destruct (_ && _); [apply apply_dom|]); done.
Qed.

Lemma step_faded s s' : step cfg s s' → d_faded (st_dom s) = true → d_faded (st_dom s') = true.
Proof.
  intros Hs Hf. destruct Hs as [ev s s' Hh|s s' Hfire|s d _ _]; [|unfold fire in Hfire|done].
  - destruct ev as [x|x|x|c|c key|i|]; simpl in Hh.
    + case_bool_decide; [|done]. injection Hh as <-. by apply update_and_save_faded.
    + case_bool_decide; [|done]. injection Hh as <-. by apply update_and_save_faded.
    + destruct (cfg_has_search cfg); [|done]. injection Hh as <-. by apply update_and_save_faded.
    + destruct (_ && _); [|done]. destruct (card_btn c); [|done]. by injection Hh as <-.
    + destruct (_ && _); [|done]. injection Hh as <-.
      destruct (_ || _); [destruct (card_btn c)|]; done.
    + destruct (cfg_links cfg !! i) as [[href []]|]; try done. injection Hh as <-.
      case_bool_decide; [done|]. by apply show_page_faded.
    + destruct (cfg_has_go_btn cfg); [|done]. injection Hh as <-. by apply show_page_faded.
  - destruct (st_timers s) as [|[due []] q]; [done| |]; injection Hfire as <-; [done|].
    by apply apply_dom.
Qed.

Lemma filter_eq_nil (p : jsstr) (l : list jsstr) :
  p ∉ l → List.filter (λ q, bool_decide (q = p)) l = [].
Proof.
  induction l as [|q l IH]; intros Hp; simpl; [done|].
  rewrite bool_decide_false by (intros ->; apply Hp; constructor).
  apply IH. intros H. apply Hp. by constructor.
Qed.

Lemma show_page_links p s :
  d_active_links (st_dom (show_page cfg p s)) =
    zip_with (λ (link : jsstr * bool) (act : bool),
                if bool_decide (link.1 = js "#" ++ p) then true else if link.2 then false else act)
             (cfg_links cfg) (d_active_links (st_dom s)).
Proof.
  unfold show_page. case_bool_decide; [|done].
  unfold with_store at 1. cbn [st_dom]. unfold apply_filters_and_sort. by destruct (negb _).
Qed.

Lemma show_page_active p s :
  d_active_pages (st_dom (show_page cfg p s)) = List.filter (λ q, bool_decide (q = p)) (cfg_pages cfg).
Proof.
  unfold show_page. case_bool_decide; [|done].
  unfold with_store at 1. cbn [st_dom].
  match goal with |- context [apply_filters_and_sort cfg ?y] =>
    by rewrite (proj1 (proj2 (proj2 (apply_dom y)))) end.
Qed.

Lemma show_page_store p s :
  st_store (show_page cfg p s) = Store.set_item (st_store s) Store.key_page p.
Proof.
  unfold show_page. case_bool_decide; [|done].
  unfold with_store at 1. cbn [st_store].
  match goal with |- context [apply_filters_and_sort cfg ?y] =>
    by rewrite (proj2 (apply_frame cfg y)) end.
Qed.

End DomFacts.
(** A small page for the concrete runs: a home and a catalog page, the
    two cards of the spec's scenario, two navigation links and one
    other anchor to the catalog. *)
Definition demo_cfg : config := {|
  cfg_cards := [Pipeline.phone; Pipeline.case_two];
  cfg_has_grid := true;
  cfg_grid0 := [Pipeline.phone; Pipeline.case_two];
  cfg_pages := [js "home"; js "catalog"];
  cfg_links := [(js "#home", true); (js "#catalog", true); (js "#catalog", false)];
  cfg_sort_btns := [js "default"; js "price-asc"; js "price-desc"];
  cfg_filter_btns := [js "all"; js "a"; js "b"];
  cfg_has_search := true;
  cfg_search0 := [];
  cfg_has_go_btn := true |}.

Definition demo_s0 : state :=
  match App.init demo_cfg ∅ with Some s => s | None => App.init_state demo_cfg ∅ [] end.

Definition demo_s1 : state :=
  match App.handle demo_cfg (App.ClickLink 1) demo_s0 with Some s => s | None => demo_s0 end.

Lemma demo_wf : config_wf demo_cfg.
Proof.
  split.
  - repeat constructor; vm_compute; congruence.
  - repeat constructor; vm_compute; congruence.
  - done.
  - repeat constructor; by right.
  - vm_compute. repeat constructor; discriminate.
Qed.

Lemma demo_reach0 : App.reachable demo_cfg demo_s0.
Proof. exists ∅, demo_s0. split; [vm_compute; reflexivity|apply rtc_refl]. Qed.

Lemma demo_reach1 : App.reachable demo_cfg demo_s1.
Proof.
  eapply App.reachable_step; [exact demo_reach0|].
  apply (App.step_event _ (App.ClickLink 1)). vm_compute. reflexivity.
Qed.

(** The catalog after its first render has run. *)
Definition demo_s2 : state :=
  match App.fire demo_cfg demo_s1 with Some s => s | None => demo_s1 end.

Lemma demo_reach2 : App.reachable demo_cfg demo_s2.
Proof. eapply App.reachable_step; [exact demo_reach1|]. apply App.step_fire. vm_compute. reflexivity. Qed.

(** A reload on the catalog with the search text case stored. *)
Definition demo_store : storage :=
  <[Store.key_search := js "case"]> (<[Store.key_page := js "catalog"]> ∅).

Definition demo_s3 : state :=
  match App.init demo_cfg demo_store with Some s => s | None => demo_s0 end.

(** The same page without [#products-grid]. *)
Definition demo_nogrid_cfg : config := {|
  cfg_cards := cfg_cards demo_cfg; cfg_has_grid := false; cfg_grid0 := cfg_grid0 demo_cfg;
  cfg_pages := cfg_pages demo_cfg; cfg_links := cfg_links demo_cfg;
  cfg_sort_btns := cfg_sort_btns demo_cfg; cfg_filter_btns := cfg_filter_btns demo_cfg;
  cfg_has_search := true; cfg_search0 := []; cfg_has_go_btn := true |}.

Definition demo_nogrid_s : state :=
  match App.init demo_nogrid_cfg demo_store with Some s => s | None => demo_s0 end.

Lemma demo_nogrid_reach : App.reachable demo_nogrid_cfg demo_nogrid_s.
Proof. exists demo_store, demo_nogrid_s. split; [vm_compute; reflexivity|apply rtc_refl]. Qed.

Section AppTheorems.
Import App.


(** C16. In every reachable state no callback waits long: each pending
    callback is due at most 200 ms after the current time (a render is
    never scheduled further ahead than the 200 ms of line 115, and the
    start-up callback of line 227 is due at 100 ms).  And
    [applyFiltersAndSort] with a bound grid schedules its render after
    every callback already pending, with the [visibleCards] of the
    current view: the renders run in the order of the calls, so the last
    call's list is the one left in the grid. *)
Theorem apply_render_last cfg s :
  reachable cfg s →
  Forall (λ e, e.1 <= st_now s + 200) (st_timers s) ∧
  (v_grid (st_view s) = true →
   st_timers (apply_filters_and_sort cfg s) =
     st_timers s ++ [(st_now s + 200,
                      RenderTask (Pipeline.visible_cards (cfg_cards cfg) (search_of cfg (st_view s))
                                    (v_filter (st_view s)) (v_sort (st_view s))))]).
Proof.
  intros Hr. split; [exact (reachable_bounded cfg s Hr)|]. intros Hg.
  unfold apply_filters_and_sort. rewrite Hg. simpl.
  by rewrite insert_timer_last by (apply (reachable_bounded cfg s Hr)).
Qed.

Lemma apply_render_last_witness :
  st_timers (apply_filters_and_sort demo_cfg demo_s1) =
    st_timers demo_s1 ++ [(st_now demo_s1 + 200,
      RenderTask (Pipeline.visible_cards (cfg_cards demo_cfg) (search_of demo_cfg (st_view demo_s1))
                    (v_filter (st_view demo_s1)) (v_sort (st_view demo_s1))))].
Proof. apply (proj2 (apply_render_last demo_cfg demo_s1 demo_reach1)). vm_compute. reflexivity. Defined.

(** C17. The reload contract: in every reachable state of a well-formed
    page, starting the script afresh on the stored preferences succeeds
    and restores the same sort, filter, favourites, page and search
    text. *)
Theorem reload_restores_view cfg s :
  config_wf cfg → reachable cfg s →
  ∃ s', init cfg (st_store s) = Some s' ∧
        v_sort (st_view s') = v_sort (st_view s) ∧
        v_filter (st_view s') = v_filter (st_view s) ∧
        v_favorites (st_view s') = v_favorites (st_view s) ∧
        v_page (st_view s') = v_page (st_view s) ∧
        (cfg_has_search cfg = true → v_search (st_view s') = v_search (st_view s)).
Proof.
  intros Hwf Hr. destruct (reachable_persisted cfg s Hwf Hr) as [(Hso & Hfi & Hfa & Hpa) Hse].
  destruct (init cfg (st_store s)) as [s'|] eqn:Hi.
  - exists s'. destruct (init_view cfg _ s' Hi) as (Hfa' & Hso' & Hfi' & Hpa' & Hse').
    rewrite Hfa in Hfa'. injection Hfa' as Hfa'.
    repeat split; try congruence. intros Hs. rewrite Hse' by done. by apply Hse.
  - unfold init in Hi. by rewrite Hfa in Hi.
Qed.

Lemma reload_restores_view_witness :
  ∃ s', init demo_cfg (st_store demo_s1) = Some s' ∧
        v_sort (st_view s') = v_sort (st_view demo_s1) ∧
        v_filter (st_view s') = v_filter (st_view demo_s1) ∧
        v_favorites (st_view s') = v_favorites (st_view demo_s1) ∧
        v_page (st_view s') = v_page (st_view demo_s1) ∧
        (cfg_has_search demo_cfg = true → v_search (st_view s') = v_search (st_view demo_s1)).
Proof. apply reload_restores_view; [exact demo_wf|exact demo_reach1]. Defined.

(** C18. In every reachable state of a well-formed page, the heart of
    every card still in the document shows whether the card is a
    favourite: [updateUI] and the deferred render keep the buttons in
    step with [favorites]. *)
Theorem hearts_consistent cfg s c b :
  config_wf cfg → reachable cfg s → c ∈ cfg_cards cfg → attached (st_dom s) c = true →
  card_btn c = Some b → d_heart (st_dom s) c = Fav.includes_id (v_favorites (st_view s)) b.
Proof. intros Hwf Hr. by apply (reachable_hearts cfg s Hwf Hr). Qed.

Lemma hearts_consistent_witness :
  d_heart (st_dom demo_s1) Pipeline.phone = Fav.includes_id (v_favorites (st_view demo_s1)) (js "1").
Proof.
  apply (hearts_consistent demo_cfg demo_s1 Pipeline.phone (js "1"));
    [exact demo_wf|exact demo_reach1|apply list_elem_of_In; by left|vm_compute; reflexivity|reflexivity].
Defined.

(** C24. A click on a sort button sets and stores the sort but does not
    move the [active] class of the sort buttons: [updateAndSave] never
    calls [updateUI], so after clicking "price-asc" on a fresh catalog the
    highlighted button still says "default". *)
Theorem sort_click_keeps_highlight cfg s s' x :
  handle cfg (ClickSort x) s = Some s' →
  v_sort (st_view s') = x ∧ d_sort_hl (st_dom s') = d_sort_hl (st_dom s) ∧
  d_filter_hl (st_dom s') = d_filter_hl (st_dom s).
Proof.
  simpl. case_bool_decide; [|done]. intros [= <-].
  split; [apply update_and_save_sort|apply update_and_save_hl].
Qed.

Lemma sort_click_keeps_highlight_witness :
  let s' := match handle demo_cfg (ClickSort (js "price-asc")) demo_s1 with Some t => t | None => demo_s1 end in
  (v_sort (st_view s') = js "price-asc" ∧ d_sort_hl (st_dom s') = d_sort_hl (st_dom demo_s1) ∧
   d_filter_hl (st_dom s') = d_filter_hl (st_dom demo_s1)) ∧
  d_sort_hl (st_dom s') = js "default".
Proof.
  split; [apply (sort_click_keeps_highlight demo_cfg demo_s1); vm_compute; reflexivity|].
  vm_compute. reflexivity.
Defined.

(** C25. The [fade-out] class is never removed: once [applyFiltersAndSort]
    has marked the cards, every later step keeps them marked. *)
Theorem fade_out_sticky cfg s s' :
  step cfg s s' → d_faded (st_dom s) = true → d_faded (st_dom s') = true.
Proof. apply step_faded. Qed.

Lemma fade_out_sticky_witness :
  d_faded (st_dom (match fire demo_cfg demo_s1 with Some t => t | None => demo_s1 end)) = true.
Proof.
  apply (fade_out_sticky demo_cfg demo_s1); [apply step_fire; vm_compute; reflexivity|].
  vm_compute. reflexivity.
Defined.

Lemma show_unknown_page_of cfg p s :
  p ∉ cfg_pages cfg → p ≠ [] →
  d_active_pages (st_dom (show_page cfg p s)) = [] ∧
  v_page (st_view (show_page cfg p s)) = p ∧
  Store.load_page (st_store (show_page cfg p s)) = p.
Proof.
  intros Hp Hne. destruct (show_page_view cfg p s) as (_ & _ & _ & Hpg & _).
  split; [|split; [done|]].
  - rewrite show_page_active. by apply filter_eq_nil.
  - rewrite show_page_store. unfold Store.load_page. by rewrite Store.get_or_set_same.
Qed.

Lemma stray_anchor_of cfg i href p s :
  cfg_links cfg !! i = Some (href, false) → href ≠ js "#" ++ p →
  d_active_links (st_dom s) !! i = Some true →
  d_active_links (st_dom (show_page cfg p s)) !! i = Some true.
Proof.
  intros Hl Hne Ha. rewrite show_page_links, lookup_zip_with, Hl, Ha. simpl.
  by rewrite bool_decide_false.
Qed.

(** C26. The [active] classes [showPage] leaves.  An id that names no
    [.page] section deactivates every page and is still recorded and
    persisted, so the page goes blank and stays blank on every reload.
    And an anchor to a page that is not one of [navLinks] keeps its
    [active] class for ever: line 29 clears the class on [navLinks]
    only, while line 30 sets it on every anchor to the shown page, so
    after [showPage] of any page whose fragment is not the anchor's own,
    such an anchor that was active is still active. *)
Theorem show_page_activation cfg p s :
  (p ∉ cfg_pages cfg → p ≠ [] →
   d_active_pages (st_dom (show_page cfg p s)) = [] ∧
   v_page (st_view (show_page cfg p s)) = p ∧
   Store.load_page (st_store (show_page cfg p s)) = p) ∧
  (∀ i href, cfg_links cfg !! i = Some (href, false) → href ≠ js "#" ++ p →
   d_active_links (st_dom s) !! i = Some true →
   d_active_links (st_dom (show_page cfg p s)) !! i = Some true).
Proof. split; [apply show_unknown_page_of|intros i href; apply stray_anchor_of]. Qed.

Lemma show_page_activation_witness :
  (d_active_pages (st_dom (show_page demo_cfg (js "about") demo_s1)) = [] ∧
   v_page (st_view (show_page demo_cfg (js "about") demo_s1)) = js "about" ∧
   Store.load_page (st_store (show_page demo_cfg (js "about") demo_s1)) = js "about") ∧
  d_active_links (st_dom (show_page demo_cfg (js "home") demo_s1)) !! 2%nat = Some true.
Proof.
  split.
  - apply (show_page_activation demo_cfg (js "about") demo_s1);
      [vm_compute; intros H; inversion H; subst;
       repeat match goal with H : _ ∈ _ |- _ => inversion H; subst; clear H end|done].
  - apply (proj2 (show_page_activation demo_cfg (js "home") demo_s1) 2%nat (js "#catalog"));
      [reflexivity|vm_compute; discriminate|vm_compute; reflexivity].
Defined.

(** C28. Malformed stored favourites stop the whole script: when the
    stored favourites are a non-empty text that [JSON.parse] rejects, line
    18 throws, so start-up produces no state at all (no preference is
    restored and no handler is installed), where the spec asks for empty
    favourites. *)
Theorem malformed_favorites_abort cfg st t :
  t ≠ [] → Parse.parse t = inl SyntaxError →
  init cfg (<[Store.key_favorites := t]> st) = None.
Proof.
  intros Ht Hp. unfold init, Store.load_favorites, Store.get_or.
  rewrite lookup_insert_eq. destruct t as [|c t]; [done|]. by rewrite Hp.
Qed.

Lemma malformed_favorites_abort_witness :
  Parse.parse (js "[1") = inl SyntaxError ∧
  init demo_cfg (<[Store.key_favorites := js "[1"]> demo_store) = None.
Proof.
  split; [vm_compute; reflexivity|].
  apply malformed_favorites_abort; [discriminate|vm_compute; reflexivity].
Defined.

(** C19. The favourites badge is always up to date: in every reachable
    state it shows the number of favourites, in the accent colour when
    there is at least one and in the neutral colour otherwise. *)
Theorem badge_consistent cfg s :
  reachable cfg s →
  Fav.badge_count (d_badge (st_dom s)) = Z.of_nat (length (v_favorites (st_view s))) ∧
  (Fav.badge_color_of (d_badge (st_dom s)) = Fav.Accent ↔ v_favorites (st_view s) ≠ []).
Proof.
  intros Hr. rewrite (reachable_badge cfg s Hr). split; [done|]. simpl.
  destruct (v_favorites (st_view s)) as [|x l]; simpl.
  - split; [discriminate|by intros []].
  - split; intros _; [discriminate|reflexivity].
Qed.

Lemma badge_consistent_witness :
  Fav.badge_count (d_badge (st_dom demo_s1)) = Z.of_nat (length (v_favorites (st_view demo_s1))) ∧
  (Fav.badge_color_of (d_badge (st_dom demo_s1)) = Fav.Accent ↔ v_favorites (st_view demo_s1) ≠ []).
Proof. apply (badge_consistent demo_cfg). exact demo_reach1. Defined.

End AppTheorems.
