(* ===== verification/AppRender.v ===== *)
(** The deferred renders of [applyFiltersAndSort] and the callback queue:
    the queue always drains (a weight argument), and the grid invariant
    [grid_inv] shows that once no callback is pending the catalog grid
    holds exactly the cards of the current view, so the last call's
    render is the one left on screen.  Also the page without a grid,
    where every call is a no-op, and the stale first render of start-up. *)

From S2P Require Import Prelude JsString StableSort JsNumber Pipeline Favorites Json Store App AppInv.
Local Open Scope Z_scope.

(** The work left in the queue: a render is one callback, the start-up
    callback is two (it schedules one render). *)
Definition task_weight (t : task) : nat :=
  match t with RenderTask _ => 1 | InitApplyTask => 2 end.

Definition queue_weight (q : list (Z * task)) : nat := sum_list_with (λ e, task_weight e.2) q.

(** Without [#products-grid]: the grid is never bound, no render is ever
    pending and the grid's markup is never touched. *)
Definition no_grid_inv (cfg : config) (s : state) : Prop :=
  v_grid (st_view s) = false ∧ Forall (λ e, e.2 = InitApplyTask) (st_timers s) ∧
  d_children (st_dom s) = cfg_grid0 cfg.

(** The cards the pipeline selects for the current view of [s]. *)
Definition expected (cfg : config) (s : state) : list card :=
  Pipeline.visible_cards (cfg_cards cfg) (App.search_of cfg (st_view s))
    (v_filter (st_view s)) (v_sort (st_view s)).

Definition is_init_task (e : Z * task) : bool :=
  match e.2 with InitApplyTask => true | RenderTask _ => false end.

(** The grid's children once the pending renders of [q] have run in
    order, starting from [children]. *)
Definition render_outcome (q : list (Z * task)) (children : list card) : list card :=
  fold_left (λ acc e, match e.2 with RenderTask vis => vis | InitApplyTask => acc end) q children.

(** The grid invariant: a bound grid exists in the markup, and while the
    catalog is shown with a bound grid and no start-up callback pending,
    the pending renders leave the grid showing the current view. *)
Definition grid_inv (cfg : config) (s : state) : Prop :=
  (v_grid (st_view s) = true → cfg_has_grid cfg = true) ∧
  (v_grid (st_view s) = true → v_page (st_view s) = js "catalog" →
   existsb is_init_task (st_timers s) = false →
   render_outcome (st_timers s) (d_children (st_dom s)) = expected cfg s).

(** One timer callback firing. *)
Definition fires (cfg : config) : relation state := λ a b, App.fire cfg a = Some b.

Section Queue.
Import App.
Variable cfg : config.

Lemma insert_timer_weight due t q :
  queue_weight (insert_timer due t q) = (queue_weight q + task_weight t)%nat.
Proof.
  induction q as [|[d t'] q IH]; simpl; [unfold queue_weight; simpl; by rewrite Nat.add_0_r|].
  destruct (d <=? due); unfold queue_weight in *; simpl in *; [rewrite IH|]; lia.
Qed.

Lemma apply_weight s :
  (queue_weight (st_timers (apply_filters_and_sort cfg s)) <= queue_weight (st_timers s) + 1)%nat.
Proof.
  unfold apply_filters_and_sort. destruct (negb _); simpl; [lia|].
  rewrite insert_timer_weight. simpl. lia.
Qed.

(** Firing a callback always lowers the work left. *)
Lemma fire_progress s :
  st_timers s ≠ [] →
  ∃ s', fire cfg s = Some s' ∧ (queue_weight (st_timers s') < queue_weight (st_timers s))%nat.
Proof.
  unfold fire. destruct (st_timers s) as [|[due t] q] eqn:Ht; [done|]. intros _.
  eexists. split; [reflexivity|]. destruct t; simpl.
  - unfold queue_weight. simpl. lia.
  - match goal with |- context [apply_filters_and_sort cfg ?y] => pose proof (apply_weight y) as Hw end.
    simpl in Hw. unfold queue_weight in *. simpl in *. lia.
Qed.

(** Draining the queue by callbacks alone, keeping any invariant [I]
    that callbacks keep. *)
Lemma fires_drain (I : state → Prop) :
  (∀ s s', I s → fire cfg s = Some s' → I s') →
  ∀ s, I s → ∃ s', rtc (fires cfg) s s' ∧ st_timers s' = [] ∧ I s'.
Proof.
  intros Hpres s.
  induction s as [s IH] using (induction_ltof1 _ (λ s, queue_weight (st_timers s))).
  unfold ltof in IH. intros HI. destruct (st_timers s) as [|e q] eqn:Ht.
  - exists s. split; [apply rtc_refl|done].
  - destruct (fire_progress s) as (s1 & Hf & Hlt); [by rewrite Ht|].
    rewrite Ht in Hlt. destruct (IH s1 Hlt (Hpres s s1 HI Hf)) as (s2 & Hr & He & HI2).
    exists s2. split; [|done]. eapply rtc_l; [exact Hf|exact Hr].
Qed.

Lemma apply_no_grid s : v_grid (st_view s) = false → apply_filters_and_sort cfg s = s.
Proof. unfold apply_filters_and_sort. by intros ->. Qed.

End Queue.

Section GridInv.
Import App.
Variable cfg : config.

Lemma render_outcome_snoc q c d vis : render_outcome (q ++ [(d, RenderTask vis)]) c = vis.
Proof. unfold render_outcome. by rewrite fold_left_app. Qed.

Lemma grid_inv_off s : v_grid (st_view s) = false → grid_inv cfg s.
Proof. intros H. split; by rewrite H. Qed.

Lemma grid_inv_page_off s :
  (v_grid (st_view s) = true → cfg_has_grid cfg = true) → v_page (st_view s) ≠ js "catalog" →
  grid_inv cfg s.
Proof. intros H1 Hp. split; [done|]. by intros _ ?. Qed.

Lemma grid_inv_init_pending s :
  (v_grid (st_view s) = true → cfg_has_grid cfg = true) → existsb is_init_task (st_timers s) = true →
  grid_inv cfg s.
Proof. intros H1 He. split; [done|]. intros _ _. by rewrite He. Qed.

(** [applyFiltersAndSort] on a bound grid makes the grid end up showing
    the current view, whatever renders were pending. *)
Lemma apply_grid_inv s :
  timers_bounded s → v_grid (st_view s) = true → cfg_has_grid cfg = true →
  grid_inv cfg (apply_filters_and_sort cfg s).
Proof.
  intros Hb Hg Hh. unfold apply_filters_and_sort. rewrite Hg.
  split; [done|]. intros _ _ _. unfold set_timeout, with_timers. cbn [st_timers st_dom st_view d_children].
  rewrite insert_timer_last by done. apply render_outcome_snoc.
Qed.

Lemma apply_grid_has s :
  timers_bounded s → (v_grid (st_view s) = true → cfg_has_grid cfg = true) →
  grid_inv cfg (apply_filters_and_sort cfg s).
Proof.
  intros Hb H1. destruct (v_grid (st_view s)) eqn:Hg.
  - by apply apply_grid_inv; [| |apply H1].
  - rewrite apply_no_grid by done. by apply grid_inv_off.
Qed.

Lemma show_page_grid_inv p s :
  timers_bounded s → (v_grid (st_view s) = true → cfg_has_grid cfg = true) →
  grid_inv cfg (show_page cfg p s).
Proof.
  intros Hb H1. unfold show_page. case_bool_decide as Hp.
  - apply (apply_grid_has (with_view (set_grid (cfg_has_grid cfg)) _)); [exact Hb|done].
  - apply grid_inv_page_off; [exact H1|exact Hp].
Qed.

Lemma update_and_save_grid_inv so fo s :
  timers_bounded s → (v_grid (st_view s) = true → cfg_has_grid cfg = true) →
  grid_inv cfg (update_and_save cfg so fo s).
Proof.
  intros Hb H1. unfold update_and_save.
  destruct so, fo; cbv zeta; destruct (bool_decide _ && _) eqn:Hc;
    try (apply apply_grid_has; [exact Hb|exact H1]);
    (split; [exact H1|]; intros Hg Hp;
     cbn [st_view with_view with_store set_sort set_filter v_grid v_page] in Hg, Hp, Hc;
     rewrite Hg, bool_decide_true in Hc by exact Hp; discriminate).
Qed.

Lemma toggle_favorite_grid_inv id s : grid_inv cfg s → grid_inv cfg (toggle_favorite id s).
Proof. intros [H1 H2]. split; [exact H1|exact H2]. Qed.

Lemma handle_grid_inv ev s s' :
  timers_bounded s → grid_inv cfg s → handle cfg ev s = Some s' → grid_inv cfg s'.
Proof.
  intros Hb Hi Hh. revert Hb Hi.
  apply (handle_ind cfg (λ a b, timers_bounded a → grid_inv cfg a → grid_inv cfg b)) with ev; [..|exact Hh].
  - intros so fo t Hb Hi. by apply update_and_save_grid_inv; [|apply Hi].
  - intros x t Hb Hi. by apply update_and_save_grid_inv; [|apply Hi].
  - intros id t _. apply toggle_favorite_grid_inv.
  - intros p t Hb Hi. by apply show_page_grid_inv; [|apply Hi].
  - done.
Qed.

Lemma fire_grid_inv s s' :
  timers_bounded s → grid_inv cfg s → fire cfg s = Some s' → grid_inv cfg s'.
Proof.
  unfold fire, timers_bounded. intros Hb [H1 H2].
  destruct (st_timers s) as [|[due t] q] eqn:Ht; [done|]. intros [= <-].
  apply Forall_cons in Hb as [_ Hq]. destruct t as [vis|]; simpl.
  - split; [exact H1|]. intros Hg Hp He. exact (H2 Hg Hp He).
  - apply apply_grid_has; [|done]. eapply Forall_impl; [exact Hq|]. simpl. lia.
Qed.

Lemma init_grid_inv store0 s0 : init cfg store0 = Some s0 → grid_inv cfg s0.
Proof.
  unfold init. destruct (Store.load_favorites store0) as [|[favs|]]; try done. intros [= <-].
  match goal with |- grid_inv cfg (init_finish cfg ?x) =>
    assert (Hx : grid_inv cfg x) by (apply show_page_grid_inv; [constructor|done]) end.
  destruct Hx as [H1 _]. unfold init_finish.
  destruct (cfg_has_search cfg); case_bool_decide as Hp;
    try (apply grid_inv_page_off; [exact H1|exact Hp]);
    (apply grid_inv_init_pending; [exact H1|]; unfold set_timeout, with_timers; cbn [st_timers];
     apply existsb_exists; eexists (_, InitApplyTask);
     split; [apply insert_timer_in|done]).
Qed.

Lemma reachable_grid_inv s : reachable cfg s → grid_inv cfg s.
Proof.
  intros Hr. enough (H : grid_inv cfg s ∧ timers_bounded s) by apply H. revert s Hr.
  apply reachable_ind.
  - intros store0 s0 Hi. split; [by eapply init_grid_inv|by eapply init_bounded].
  - intros s s' [Hg Hb] Hs. split; [|by eapply step_bounded].
    destruct Hs as [ev ? ? Hh|? ? Hf|]; [by eapply handle_grid_inv|by eapply fire_grid_inv|exact Hg].
Qed.

Lemma fire_view s s' :
  grid_inv cfg s → v_grid (st_view s) = true → fire cfg s = Some s' → st_view s' = st_view s.
Proof.
  unfold fire. intros [H1 _] Hg. destruct (st_timers s) as [|[due t] q]; [done|]. intros [= <-].
  destruct t; [done|]. simpl. rewrite (proj1 (apply_frame cfg _)). simpl.
  rewrite (H1 Hg). destruct (st_view s); simpl in *. by subst.
Qed.

(** From a state showing the catalog with a bound grid, the pending
    callbacks alone empty the queue, leave the view as it is and leave
    the grid showing the pipeline's result for that view. *)
Lemma drain_shows_view s :
  timers_bounded s → grid_inv cfg s → v_grid (st_view s) = true → v_page (st_view s) = js "catalog" →
  ∃ s', rtc (fires cfg) s s' ∧ st_timers s' = [] ∧ st_view s' = st_view s ∧
        d_children (st_dom s') = expected cfg s.
Proof.
  intros Hb Hi Hg Hp.
  destruct (fires_drain cfg (λ x, timers_bounded x ∧ grid_inv cfg x ∧ st_view x = st_view s)) with s
    as (s' & Hr & He & Hb' & [_ H2] & Hv); [|done|].
  - intros x x' (Hbx & Hix & Hvx) Hf. split; [by eapply fire_bounded|].
    split; [by eapply fire_grid_inv|]. rewrite <- Hvx. apply (fire_view x); [done|by rewrite Hvx|done].
  - exists s'. do 3 (split; [done|]). unfold expected. rewrite <- Hv.
    rewrite Hv, He in H2. exact (H2 Hg Hp eq_refl).
Qed.

Lemma show_catalog_grid s : v_grid (st_view (show_page cfg (js "catalog") s)) = cfg_has_grid cfg.
Proof.
  unfold show_page. rewrite bool_decide_true by done. cbn [st_view with_store].
  by rewrite (proj1 (apply_frame cfg _)).
Qed.

End GridInv.

Section NoGrid.
Import App.
Variable cfg : config.
Hypothesis no_grid : cfg_has_grid cfg = false.

Ltac no_grid_solve :=
  repeat match goal with
  | |- context [apply_filters_and_sort cfg ?x] => rewrite (apply_no_grid cfg x) by (simpl; congruence)
  end; by repeat split.

Lemma show_page_no_grid p s : no_grid_inv cfg s → no_grid_inv cfg (show_page cfg p s).
Proof. intros (Hg & Ht & Hc). unfold show_page. case_bool_decide; no_grid_solve. Qed.

Lemma update_and_save_no_grid so fo s : no_grid_inv cfg s → no_grid_inv cfg (update_and_save cfg so fo s).
Proof.
  intros (Hg & Ht & Hc). unfold update_and_save.
  destruct so, fo; cbv zeta; destruct (_ && _); no_grid_solve.
Qed.

Lemma handle_no_grid ev s s' : no_grid_inv cfg s → handle cfg ev s = Some s' → no_grid_inv cfg s'.
Proof.
  revert ev s s'. apply handle_pres.
  - apply update_and_save_no_grid.
  - intros x t (? & ? & ?). apply update_and_save_no_grid. by repeat split.
  - intros id t (? & ? & ?). by repeat split.
  - apply show_page_no_grid.
Qed.

Lemma fire_no_grid s s' : no_grid_inv cfg s → fire cfg s = Some s' → no_grid_inv cfg s'.
Proof.
  unfold fire. intros (Hg & Ht & Hc). destruct (st_timers s) as [|[due t] q]; [done|]. intros [= <-].
  apply Forall_cons in Ht as [Ht Hq]. simpl in Ht. subst t. simpl. no_grid_solve.
Qed.

Lemma init_no_grid store0 s0 : init cfg store0 = Some s0 → no_grid_inv cfg s0.
Proof.
  unfold init. destruct (Store.load_favorites store0) as [|[favs|]]; try done. intros [= <-].
  match goal with |- no_grid_inv cfg (init_finish cfg ?x) =>
    assert (Hx : no_grid_inv cfg x) by (apply show_page_no_grid; by repeat split) end.
  destruct Hx as (Hg & Ht & Hc). unfold init_finish.
  destruct (cfg_has_search cfg); case_bool_decide;
    (split; [done|]; split; [|done]); try exact Ht; by apply insert_timer_Forall.
Qed.

Lemma reachable_no_grid s : reachable cfg s → no_grid_inv cfg s.
Proof.
  apply reachable_ind; [apply init_no_grid|]. apply step_cases.
  - apply handle_no_grid.
  - apply fire_no_grid.
  - intros x d Hi _ _. exact Hi.
Qed.

End NoGrid.

Section RenderTheorems.
Import App.

(** C20. Last call wins: in every reachable state that shows the catalog
    with a bound grid and has no callback pending, the grid holds exactly
    the cards the pipeline selects, in its order, for the current sort,
    filter and search.  The renders queued by earlier calls all ran
    before the render of the last call. *)
Theorem quiescent_grid_shows_view cfg s :
  reachable cfg s → v_grid (st_view s) = true → v_page (st_view s) = js "catalog" →
  st_timers s = [] →
  d_children (st_dom s) =
    Pipeline.visible_cards (cfg_cards cfg) (search_of cfg (st_view s))
      (v_filter (st_view s)) (v_sort (st_view s)).
Proof.
  intros Hr Hg Hp Ht. destruct (reachable_grid_inv cfg s Hr) as [_ H2].
  specialize (H2 Hg Hp). rewrite Ht in H2. exact (H2 eq_refl).
Qed.

Lemma quiescent_grid_shows_view_witness :
  d_children (st_dom demo_s2) =
    Pipeline.visible_cards (cfg_cards demo_cfg) (search_of demo_cfg (st_view demo_s2))
      (v_filter (st_view demo_s2)) (v_sort (st_view demo_s2)).
Proof.
  apply quiescent_grid_shows_view; [exact demo_reach2|vm_compute; reflexivity..].
Defined.

(** C21. The spec's first-visit scenario: from any reachable state of a
    page that has [#products-grid], [showPage('catalog')] binds the grid,
    and the pending callbacks alone then leave it showing the cards of the
    current sort, filter and search, with nothing left pending. *)
Theorem show_catalog_renders cfg s :
  reachable cfg s → cfg_has_grid cfg = true →
  ∃ s', rtc (fires cfg) (show_page cfg (js "catalog") s) s' ∧ st_timers s' = [] ∧
        v_grid (st_view s') = true ∧
        d_children (st_dom s') =
          Pipeline.visible_cards (cfg_cards cfg) (search_of cfg (st_view s))
            (v_filter (st_view s)) (v_sort (st_view s)).
Proof.
  intros Hr Hh. pose proof (reachable_bounded cfg s Hr) as Hb.
  destruct (show_page_view cfg (js "catalog") s) as (Hso & Hfi & _ & Hpg & Hse).
  destruct (drain_shows_view cfg (show_page cfg (js "catalog") s)) as (s' & Hrt & He & Hv & Hc).
  - eapply sched_ext_bounded; [exact Hb|by apply show_page_sched].
  - apply show_page_grid_inv; [exact Hb|apply (proj1 (reachable_grid_inv cfg s Hr))].
  - by rewrite show_catalog_grid.
  - exact Hpg.
  - exists s'. split; [done|]. split; [done|]. split; [rewrite Hv; by rewrite show_catalog_grid|].
    rewrite Hc. unfold expected, search_of. by rewrite Hso, Hfi, Hse.
Qed.

Lemma show_catalog_renders_witness :
  ∃ s', rtc (fires demo_cfg) (show_page demo_cfg (js "catalog") demo_s0) s' ∧ st_timers s' = [] ∧
        v_grid (st_view s') = true ∧
        d_children (st_dom s') =
          Pipeline.visible_cards (cfg_cards demo_cfg) (search_of demo_cfg (st_view demo_s0))
            (v_filter (st_view demo_s0)) (v_sort (st_view demo_s0)).
Proof. apply show_catalog_renders; [exact demo_reach0|reflexivity]. Defined.

(** C22. The callback queue always drains: from any state, firing the
    pending callbacks in order reaches a state with nothing pending (each
    render removes one entry and the start-up callback replaces itself by
    one render). *)
Theorem queue_drains cfg s : ∃ s', rtc (step cfg) s s' ∧ st_timers s' = [].
Proof.
  destruct (fires_drain cfg (λ _, True)) with s as (s' & Hr & He & _); [done..|].
  exists s'. split; [|done]. eapply rtc_subrel; [|exact Hr]. intros x y. apply step_fire.
Qed.

(** C23. On a page without [#products-grid] the grid is never bound: in
    every reachable state no render is pending, the grid's markup keeps
    its initial children, and only the start-up callback can be pending
    (the guard of line 66 makes every call a no-op). *)
Theorem no_grid_never_renders cfg s :
  cfg_has_grid cfg = false → reachable cfg s →
  v_grid (st_view s) = false ∧ Forall (λ e, e.2 = InitApplyTask) (st_timers s) ∧
  d_children (st_dom s) = cfg_grid0 cfg.
Proof. intros Hng. apply (reachable_no_grid cfg Hng). Qed.

Lemma no_grid_never_renders_witness :
  v_grid (st_view demo_nogrid_s) = false ∧
  Forall (λ e, e.2 = InitApplyTask) (st_timers demo_nogrid_s) ∧
  d_children (st_dom demo_nogrid_s) = cfg_grid0 demo_nogrid_cfg.
Proof. apply no_grid_never_renders; [reflexivity|exact demo_nogrid_reach]. Defined.

(** C27. Start-up on the catalog renders with a stale search: when the
    stored page is the catalog, [showPage] (line 216) schedules its render
    before line 219 restores the stored search text, so the first render
    (due at 200 ms) filters with the markup's initial search value; only
    the start-up callback (due at 100 ms, line 224) schedules a render
    with the restored text. *)
Theorem init_catalog_stale_render cfg store0 s :
  cfg_has_grid cfg = true → Store.load_page store0 = js "catalog" → init cfg store0 = Some s →
  st_timers s =
    [(100, InitApplyTask);
     (200, RenderTask (Pipeline.visible_cards (cfg_cards cfg)
                         (if cfg_has_search cfg then Some (cfg_search0 cfg) else None)
                         (v_filter (st_view s)) (v_sort (st_view s))))].
Proof.
  intros Hh Hp Hi. destruct (init_view cfg store0 s Hi) as (_ & Hso & Hfi & _).
  rewrite Hso, Hfi. revert Hi. unfold init.
  destruct (Store.load_favorites store0) as [|[favs|]]; try done. intros [= <-].
  cbn [init_state st_view v_page]. rewrite Hp. unfold show_page. rewrite bool_decide_true by done.
  unfold init_finish, apply_filters_and_sort. cbn [st_view with_store with_view with_dom set_grid v_grid].
  rewrite Hh. destruct (cfg_has_search cfg) eqn:Hs; rewrite bool_decide_true by done;
    unfold search_of; rewrite Hs; reflexivity.
Qed.

Lemma init_catalog_stale_render_witness :
  st_timers demo_s3 =
    [(100, InitApplyTask);
     (200, RenderTask (Pipeline.visible_cards (cfg_cards demo_cfg)
                         (if cfg_has_search demo_cfg then Some (cfg_search0 demo_cfg) else None)
                         (v_filter (st_view demo_s3)) (v_sort (st_view demo_s3))))] ∧
  Pipeline.visible_cards (cfg_cards demo_cfg) (Some (cfg_search0 demo_cfg))
    (v_filter (st_view demo_s3)) (v_sort (st_view demo_s3)) = [Pipeline.phone; Pipeline.case_two] ∧
  v_search (st_view demo_s3) = js "case" ∧
  expected demo_cfg demo_s3 = [Pipeline.case_two].
Proof.
  split; [apply (init_catalog_stale_render demo_cfg demo_store); [reflexivity|vm_compute; reflexivity|]|].
  - vm_compute. reflexivity.
  - vm_compute. repeat split; reflexivity.
Defined.

End RenderTheorems.
