(* ===== verification/ViewSpec.v ===== *)
(** The spec's abstract view machine (sections 3 and 4.6): a ViewState of
    page, sort, filter and search text with a FavoriteSet, changed only by
    the transitions the event binding layer names.  The theorems show that
    the script model refines it: every step of [App.step] is one abstract
    transition or leaves the abstract state as it is, as long as the
    favourites list has no duplicates, which every step preserves. *)

From S2P Require Import Prelude JsString StableSort JsNumber Pipeline Favorites Json Store App AppInv.
Local Open Scope Z_scope.
Local Set Warnings "-clear-no-such-hyp".

(** The spec's ViewState and FavoriteSet. *)
Record vstate := {
  a_page : jsstr;
  a_sort : jsstr;
  a_filter : jsstr;
  a_search : jsstr;
  a_favs : gset jsstr
}.

Module ViewSpec.

Definition with_sort x (a : vstate) : vstate :=
  {| a_page := a_page a; a_sort := x; a_filter := a_filter a; a_search := a_search a; a_favs := a_favs a |}.
Definition with_filter x (a : vstate) : vstate :=
  {| a_page := a_page a; a_sort := a_sort a; a_filter := x; a_search := a_search a; a_favs := a_favs a |}.
Definition with_search x (a : vstate) : vstate :=
  {| a_page := a_page a; a_sort := a_sort a; a_filter := a_filter a; a_search := x; a_favs := a_favs a |}.
Definition with_page x (a : vstate) : vstate :=
  {| a_page := x; a_sort := a_sort a; a_filter := a_filter a; a_search := a_search a; a_favs := a_favs a |}.
Definition with_favs x (a : vstate) : vstate :=
  {| a_page := a_page a; a_sort := a_sort a; a_filter := a_filter a; a_search := a_search a; a_favs := x |}.

(** Toggling an id flips its membership in the set. *)
Definition flip (id : jsstr) (f : gset jsstr) : gset jsstr :=
  if bool_decide (id ∈ f) then f ∖ {[id]} else f ∪ {[id]}.

(** The page ids a user can ask for: the fragment of a navigation link,
    or the catalog through [#go-to-catalog-btn]. *)
Definition page_target (cfg : config) (p : jsstr) : Prop :=
  (∃ i href, cfg_links cfg !! i = Some (href, true) ∧ p = drop 1 href ∧ p ≠ []) ∨
  (cfg_has_go_btn cfg = true ∧ p = js "catalog").

(** The transitions of section 4.6, one per kind of control. *)
Inductive astep (cfg : config) : vstate → vstate → Prop :=
  | a_set_sort x a : x ∈ cfg_sort_btns cfg → astep cfg a (with_sort x a)
  | a_set_filter x a : x ∈ cfg_filter_btns cfg → astep cfg a (with_filter x a)
  | a_set_search x a : cfg_has_search cfg = true → astep cfg a (with_search x a)
  | a_toggle c id a : c ∈ cfg_cards cfg → card_btn c = Some id → astep cfg a (with_favs (flip id (a_favs a)) a)
  | a_show p a : page_target cfg p → astep cfg a (with_page p a).

(** The abstraction of a script state: its closure variables, the
    favourites list read as a set, and the grid binding forgotten. *)
Definition abs_view (v : view) : vstate :=
  {| a_page := v_page v; a_sort := v_sort v; a_filter := v_filter v; a_search := v_search v;
     a_favs := list_to_set (v_favorites v) |}.

Definition abs (s : state) : vstate := abs_view (st_view s).

End ViewSpec.

Section Refinement.
Import App ViewSpec.
Variable cfg : config.

Lemma flip_toggle id l :
  NoDup l → list_to_set (Fav.toggle id l) = flip id (list_to_set l : gset jsstr).
Proof.
  intros Hl. unfold flip. apply leibniz_equiv. intros x.
  rewrite elem_of_list_to_set, list_elem_of_In, toggle_In_helper by done.
  case_bool_decide as Hid; rewrite ?elem_of_difference, ?elem_of_union, elem_of_singleton,
    !elem_of_list_to_set, !list_elem_of_In in *; naive_solver.
Qed.

Lemma view_update_and_save so fo s :
  st_view (update_and_save cfg so fo s) =
    (match fo with Some x => set_filter x | None => id end)
      ((match so with Some x => set_sort x | None => id end) (st_view s)).
Proof.
  unfold update_and_save.
  destruct so, fo; cbv zeta; destruct (_ && _); try rewrite (proj1 (apply_frame cfg _)); reflexivity.
Qed.

Lemma abs_update_and_save so fo s :
  abs (update_and_save cfg so fo s) =
    (match fo with Some x => with_filter x | None => id end)
      ((match so with Some x => with_sort x | None => id end) (abs s)).
Proof. unfold abs. rewrite view_update_and_save. by destruct so, fo. Qed.

Lemma favs_update_and_save so fo s :
  v_favorites (st_view (update_and_save cfg so fo s)) = v_favorites (st_view s).
Proof. rewrite view_update_and_save. by destruct so, fo. Qed.

Lemma abs_show_page p s : abs (show_page cfg p s) = with_page p (abs s).
Proof.
  destruct (show_page_view cfg p s) as (Hso & Hfi & Hfa & Hpg & Hse).
  unfold abs, abs_view. by rewrite Hso, Hfi, Hfa, Hpg, Hse.
Qed.

Lemma abs_fire s s' : fire cfg s = Some s' → abs s' = abs s.
Proof.
  unfold fire. destruct (st_timers s) as [|[due t] q]; [done|]. intros [= <-].
  destruct t; [reflexivity|]. unfold abs. simpl. by rewrite (proj1 (apply_frame cfg _)).
Qed.

(** What an event does to the closure variables: either the favourites
    stay and the abstract state stutters or takes a non-favourite
    transition, or the favourites list is toggled at the id of a card's
    heart button and nothing else changes. *)
Lemma handle_view ev s s' :
  handle cfg ev s = Some s' →
  (v_favorites (st_view s') = v_favorites (st_view s) ∧ (abs s' = abs s ∨ astep cfg (abs s) (abs s'))) ∨
  (∃ c id, c ∈ cfg_cards cfg ∧ card_btn c = Some id ∧
           st_view s' = set_favorites (Fav.toggle id (v_favorites (st_view s))) (st_view s)).
Proof.
  intros Hh. destruct ev as [x|x|x|c|c key|i|]; simpl in Hh.
  - case_bool_decide; [|done]. injection Hh as <-. left.
    rewrite abs_update_and_save. split; [by rewrite favs_update_and_save|]. right. by constructor.
  - case_bool_decide; [|done]. injection Hh as <-. left.
    rewrite abs_update_and_save. split; [by rewrite favs_update_and_save|]. right. by constructor.
  - destruct (cfg_has_search cfg) eqn:Hs; [|done]. injection Hh as <-. left.
    rewrite abs_update_and_save. split; [by rewrite favs_update_and_save|]. right.
    by apply (a_set_search cfg x (abs s)).
  - destruct (_ && _) eqn:Hc; [|done]. destruct (card_btn c) as [id|] eqn:Hb; [|done].
    injection Hh as <-. right. exists c, id. bool_hyps. split; [by apply bool_decide_eq_true in H|done].
  - destruct (_ && _) eqn:Hc; [|done]. injection Hh as <-. bool_hyps. apply bool_decide_eq_true in H.
    destruct (_ || _); [destruct (card_btn c) as [id|] eqn:Hb|]; [right; by exists c, id|left; auto..].
  - destruct (cfg_links cfg !! i) as [[href []]|] eqn:Hl; try done. injection Hh as <-.
    case_bool_decide as Ht; [left; auto|]. left. split; [apply (show_page_view cfg)|].
    right. rewrite abs_show_page. constructor. left. by exists i, href.
  - destruct (cfg_has_go_btn cfg) eqn:Hg; [|done]. injection Hh as <-. left.
    split; [apply (show_page_view cfg)|]. right. rewrite abs_show_page. constructor. by right.
Qed.

Lemma abs_toggle_view s s' id :
  NoDup (v_favorites (st_view s)) →
  st_view s' = set_favorites (Fav.toggle id (v_favorites (st_view s))) (st_view s) →
  abs s' = with_favs (flip id (a_favs (abs s))) (abs s).
Proof. intros Hl Hv. unfold abs. rewrite Hv. unfold abs_view. simpl. by rewrite flip_toggle. Qed.

(** One step of the script keeps the favourites free of duplicates and
    is one abstract transition or a stutter. *)
Lemma step_refines s s' :
  NoDup (v_favorites (st_view s)) → step cfg s s' →
  NoDup (v_favorites (st_view s')) ∧ (abs s' = abs s ∨ astep cfg (abs s) (abs s')).
Proof.
  intros Hl Hs. destruct Hs as [ev s s' Hh|s s' Hf|s d].
  - destruct (handle_view ev s s' Hh) as [[Hfa Ha]|(c & id & Hc & Hb & Hv)].
    + by rewrite Hfa.
    + split; [rewrite Hv; by apply toggle_nodup_helper|]. right.
      rewrite (abs_toggle_view s s' id Hl Hv). by eapply a_toggle.
  - split; [|left; by apply abs_fire].
    unfold fire in Hf. destruct (st_timers s) as [|[due t] q]; [done|]. injection Hf as <-.
    destruct t; [done|]. simpl. by rewrite (proj1 (apply_frame cfg _)).
  - split; [done|by left].
Qed.

End Refinement.

Section RefinementTheorems.
Import App ViewSpec.

(** C14. Refinement of the spec's view machine: along any run of the
    script from a state whose favourites have no duplicates, the
    abstract ViewState and FavoriteSet change only by the transitions of
    section 4.6 (set a sort or filter offered by a button, set the search
    text, flip the membership of a card's id, show a page a link or the
    catalog button names); callbacks, waits and inert events leave them
    unchanged. *)
Theorem run_refines cfg s s' :
  NoDup (v_favorites (st_view s)) → rtc (step cfg) s s' →
  rtc (λ a b, a = b ∨ astep cfg a b) (abs s) (abs s').
Proof.
  intros Hl Hr. induction Hr as [|x y z Hxy Hyz IH]; [apply rtc_refl|].
  destruct (step_refines cfg x y Hl Hxy) as [Hl' Ha]. eapply rtc_l; [destruct Ha as [Ha|Ha]; [left; by rewrite Ha|by right]|by apply IH].
Qed.

Lemma run_refines_witness :
  rtc (λ a b, a = b ∨ astep demo_cfg a b) (abs demo_s0) (abs demo_s1).
Proof.
  apply run_refines; [vm_compute; constructor|].
  eapply rtc_l; [apply (step_event _ (ClickLink 1)); vm_compute; reflexivity|apply rtc_refl].
Defined.

(** C15. Conversely, every control on the page realises its abstract
    transition in one step: a sort or filter button, the search box, the
    heart of a card still in the document, a navigation link or the
    catalog button.  The heart of a card the last render removed from the
    grid cannot be clicked, which is the one abstract transition the page
    does not always offer. *)
Theorem controls_realise cfg s :
  (∀ x, x ∈ cfg_sort_btns cfg → ∃ s', step cfg s s' ∧ abs s' = with_sort x (abs s)) ∧
  (∀ x, x ∈ cfg_filter_btns cfg → ∃ s', step cfg s s' ∧ abs s' = with_filter x (abs s)) ∧
  (cfg_has_search cfg = true → ∀ x, ∃ s', step cfg s s' ∧ abs s' = with_search x (abs s)) ∧
  (NoDup (v_favorites (st_view s)) → ∀ c id, c ∈ cfg_cards cfg → attached (st_dom s) c = true →
     card_btn c = Some id →
     ∃ s', step cfg s s' ∧ abs s' = with_favs (flip id (a_favs (abs s))) (abs s)) ∧
  (∀ p, page_target cfg p → ∃ s', step cfg s s' ∧ abs s' = with_page p (abs s)).
Proof.
  split_and!.
  - intros x Hx. eexists. split; [apply (step_event _ (ClickSort x)); simpl; by rewrite bool_decide_true|].
    by rewrite abs_update_and_save.
  - intros x Hx. eexists. split; [apply (step_event _ (ClickFilter x)); simpl; by rewrite bool_decide_true|].
    by rewrite abs_update_and_save.
  - intros Hs x. eexists. split; [apply (step_event _ (InputSearch x)); simpl; by rewrite Hs|].
    by rewrite abs_update_and_save.
  - intros Hl c id Hc Ha Hb. eexists.
    split; [apply (step_event _ (ClickFav c)); simpl; by rewrite bool_decide_true, Ha, Hb|].
    by apply abs_toggle_view.
  - intros p [(i & href & Hi & -> & Hne)|[Hg ->]]; eexists.
    + split; [apply (step_event _ (ClickLink i)); simpl; rewrite Hi; by rewrite bool_decide_false|].
      apply abs_show_page.
    + split; [apply (step_event _ ClickGoCatalog); simpl; by rewrite Hg|]. apply abs_show_page.
Qed.

Lemma controls_realise_witness :
  (∀ x, x ∈ cfg_sort_btns demo_cfg → ∃ s', step demo_cfg demo_s1 s' ∧ abs s' = with_sort x (abs demo_s1)) ∧
  (∀ x, x ∈ cfg_filter_btns demo_cfg → ∃ s', step demo_cfg demo_s1 s' ∧ abs s' = with_filter x (abs demo_s1)) ∧
  (cfg_has_search demo_cfg = true → ∀ x, ∃ s', step demo_cfg demo_s1 s' ∧ abs s' = with_search x (abs demo_s1)) ∧
  (NoDup (v_favorites (st_view demo_s1)) → ∀ c id, c ∈ cfg_cards demo_cfg → attached (st_dom demo_s1) c = true →
     card_btn c = Some id →
     ∃ s', step demo_cfg demo_s1 s' ∧ abs s' = with_favs (flip id (a_favs (abs demo_s1))) (abs demo_s1)) ∧
  (∀ p, page_target demo_cfg p → ∃ s', step demo_cfg demo_s1 s' ∧ abs s' = with_page p (abs demo_s1)).
Proof. apply controls_realise. Defined.

End RefinementTheorems.
