(* ===== verification/AppQuota.v ===== *)
(** Storage writes that fail.  [localStorage.setItem(k, v)] throws a
    [QuotaExceededError] when the value cannot be stored (HTML Standard,
    the Storage interface: a store over its quota, or a browser that gives
    the origin no storage at all), and src/script.js catches none of these
    throws.  The exception ends the handler at the failing call; the
    effects before it stay; the browser reports it and goes on dispatching
    events.  This file models the handlers in a small state and exception
    monad over [App.state] ([Script]), proves that with storage that
    accepts every write they are the handlers of [App], and states what a
    failing write leaves behind. *)

From S2P Require Import Prelude JsString StableSort JsNumber Pipeline Favorites Json Store App AppInv.
Local Open Scope Z_scope.

(** The exceptions of the script: a storage write over the quota, and a
    property read or method call on a value without it ([AppNull]). *)
Inductive exn := QuotaExceededError | TypeError.

(** How a script computation ends: normally, or by a throw. *)
Inductive completion := Normal | Throw (e : exn).

(** A script computation on the page: the state it leaves and how it
    ends; a throw keeps the state reached so far. *)
Definition act := state → state * completion.

Module Script.
Definition lift (f : state → state) : act := λ s, (f s, Normal).
Definition seq (a b : act) : act :=
  λ s, match a s with (s1, Normal) => b s1 | r => r end.
Definition when (c : state → bool) (a : act) : act := λ s, if c s then a s else (s, Normal).
(** [a] keeps [I] whether it ends normally or throws. *)
Definition act_pres (I : state → Prop) (a : act) : Prop := ∀ s, I s → I (a s).1.
End Script.

Declare Scope script_scope.
Delimit Scope script_scope with script.
Notation "a ;; b" := (Script.seq a b) (at level 100, right associativity) : script_scope.
Local Open Scope script_scope.

Module Quota.

(** What a store holds against the quota: the code units of its keys and
    values. *)
Definition store_size (st : storage) : nat :=
  map_fold (λ k v acc, length k + length v + acc)%nat 0%nat st.

(** [setItem(k, v)] under the origin's quota ([None]: unlimited): nothing
    to do when [k] already holds [v]; otherwise the write throws when the
    store would outgrow the quota. *)
Definition set_item (quota : option nat) (st : storage) (k v : jsstr) : option storage :=
  if bool_decide (st !! k = Some v) then Some st
  else
    let st' := Store.set_item st k v in
    match quota with
    | Some n => if (store_size st' <=? n)%nat then Some st' else None
    | None => Some st'
    end.

End Quota.

Module AppQ.
Import App Script.

Section Handlers.
Variable cfg : config.
Variable quota : option nat.

(** [localStorage.setItem(k, v)] with the value read from the state. *)
Definition set_item (k : jsstr) (v : state → jsstr) : act := λ s,
  match Quota.set_item quota (st_store s) k (v s) with
  | Some st => (with_store (λ _, st) s, Normal)
  | None => (s, Throw QuotaExceededError)
  end.

(** Lines 23-30: the [active] class of the pages and the anchors. *)
Definition activate (pageId : jsstr) (d : dom) : dom :=
  {| d_children := d_children d; d_detached := d_detached d; d_faded := d_faded d;
     d_heart := d_heart d;
     d_active_pages := List.filter (λ p, bool_decide (p = pageId)) (cfg_pages cfg);
     d_active_links :=
       zip_with (λ (link : jsstr * bool) (act : bool),
                   if bool_decide (link.1 = js "#" ++ pageId) then true
                   else if link.2 then false else act) (cfg_links cfg) (d_active_links d);
     d_sort_hl := d_sort_hl d; d_filter_hl := d_filter_hl d; d_badge := d_badge d |}.

(** [showPage(pageId)] (lines 22-39): the write of line 38 comes last. *)
Definition show_page (pageId : jsstr) : act :=
  lift (with_view (set_page pageId)) ;;
  lift (with_dom (activate pageId)) ;;
  when (λ _, bool_decide (pageId = js "catalog"))
       (lift (λ s, apply_filters_and_sort cfg (with_view (set_grid (cfg_has_grid cfg)) s))) ;;
  set_item Store.key_page (λ _, pageId).

(** [updateAndSave(sortType, filterType)] (lines 142-155): three writes,
    then the re-render. *)
Definition update_and_save (sortType filterType : option jsstr) : act :=
  lift (λ s, match sortType with Some x => with_view (set_sort x) s | None => s end) ;;
  lift (λ s, match filterType with Some x => with_view (set_filter x) s | None => s end) ;;
  set_item Store.key_sort (λ s, v_sort (st_view s)) ;;
  set_item Store.key_filter (λ s, v_filter (st_view s)) ;;
  when (λ _, cfg_has_search cfg) (set_item Store.key_search (λ s, v_search (st_view s))) ;;
  when (λ s, bool_decide (v_page (st_view s) = js "catalog") && v_grid (st_view s))
       (lift (apply_filters_and_sort cfg)).

(** [toggleFavorite(id)] (lines 52-62): the array changes before the
    write of line 59; the badge and the hearts after it. *)
Definition toggle_favorite (id : jsstr) : act :=
  lift (λ s, with_view (set_favorites (Fav.toggle id (v_favorites (st_view s)))) s) ;;
  set_item Store.key_favorites (λ s, Stringify.stringify_strings (v_favorites (st_view s))) ;;
  lift update_favorites_count ;;
  lift update_ui.

(** The listeners (lines 158-211).  [favBtn.click()] of line 208
    dispatches a click whose listener's exception is reported, not
    rethrown: the keydown listener ends normally. *)
Definition handle (ev : event) (s : state) : option (state * completion) :=
  match ev with
  | ClickSort x =>
      if bool_decide (x ∈ cfg_sort_btns cfg) then Some (update_and_save (Some x) None s) else None
  | ClickFilter x =>
      if bool_decide (x ∈ cfg_filter_btns cfg) then Some (update_and_save None (Some x) s) else None
  | InputSearch x =>
      if cfg_has_search cfg then Some (update_and_save None None (with_view (set_search x) s))
      else None
  | ClickFav c =>
      if bool_decide (c ∈ cfg_cards cfg) && attached (st_dom s) c then
        match card_btn c with Some id => Some (toggle_favorite id s) | None => None end
      else None
  | KeyCard c key =>
      if bool_decide (c ∈ cfg_cards cfg) && attached (st_dom s) c then
        Some (if bool_decide (key = js "Enter") || bool_decide (key = js " ") then
                match card_btn c with Some id => ((toggle_favorite id s).1, Normal) | None => (s, Normal) end
              else (s, Normal))
      else None
  | ClickLink i =>
      match cfg_links cfg !! i with
      | Some (href, true) =>
          let target := drop 1 href in
          Some (if bool_decide (target = []) then (s, Normal) else show_page target s)
      | _ => None
      end
  | ClickGoCatalog => if cfg_has_go_btn cfg then Some (show_page (js "catalog") s) else None
  end.

(** Lines 214-228, run once the listeners are installed: a throw in
    [showPage(currentPage)] skips the search restore and the start-up
    callback, and leaves the listeners in place. *)
Definition start_up : act :=
  lift update_favorites_count ;;
  lift update_ui ;;
  (λ s, show_page (v_page (st_view s)) s) ;;
  lift (init_finish cfg).

Definition init (store0 : storage) : option state :=
  match Store.load_favorites store0 with
  | inr (Some favs) => Some (start_up (init_state cfg store0 favs)).1
  | _ => None
  end.

(** Steps as in [App.step], the event handlers being those above. *)
Inductive step : state → state → Prop :=
  | step_event ev s r : handle ev s = Some r → step s r.1
  | step_fire s s' : fire cfg s = Some s' → step s s'
  | step_wait s delta :
      0 <= delta → Forall (λ e, st_now s + delta <= e.1) (st_timers s) →
      step s (advance delta s).

Definition reachable (s : state) : Prop :=
  ∃ store0 s0, init store0 = Some s0 ∧ rtc step s0 s.

End Handlers.
End AppQ.

Section QuotaFacts.
Import App Script.

(** With unlimited storage every write succeeds and is [Store.set_item]. *)
Lemma quota_unlimited st k v : Quota.set_item None st k v = Some (Store.set_item st k v).
Proof. unfold Quota.set_item, Store.set_item. case_bool_decide as H; [by rewrite insert_id|done]. Qed.

(** A write that succeeds under any quota is [Store.set_item]. *)
Lemma quota_set_ok quota st k v st' :
  Quota.set_item quota st k v = Some st' → st' = Store.set_item st k v.
Proof.
  unfold Quota.set_item, Store.set_item. case_bool_decide as H.
  - intros [= <-]. by rewrite insert_id.
  - destruct quota as [n|]; [destruct (_ <=? _)%nat|]; congruence.
Qed.

Lemma set_item_unlimited k v s :
  AppQ.set_item None k v s = (with_store (λ st, Store.set_item st k (v s)) s, Normal).
Proof. unfold AppQ.set_item. by rewrite quota_unlimited. Qed.

Lemma set_item_fail quota k v s :
  Quota.set_item quota (st_store s) k (v s) = None →
  AppQ.set_item quota k v s = (s, Throw QuotaExceededError).
Proof. unfold AppQ.set_item. by intros ->. Qed.

Lemma seq_normal (a b : act) s s1 : a s = (s1, Normal) → (a ;; b) s = b s1.
Proof. unfold Script.seq. by intros ->. Qed.

Lemma seq_throw (a b : act) s s1 e : a s = (s1, Throw e) → (a ;; b) s = (s1, Throw e).
Proof. unfold Script.seq. by intros ->. Qed.

End QuotaFacts.

#[export] Hint Rewrite quota_unlimited set_item_unlimited : catalog_rw.

Ltac script_simpl :=
  unfold Script.seq, Script.lift, Script.when; cbn beta iota;
  repeat (rewrite ?set_item_unlimited; cbn beta iota).

Section Unlimited.
Import App Script.
Variable cfg : config.

Lemma show_page_unlimited p s : AppQ.show_page cfg None p s = (show_page cfg p s, Normal).
Proof. unfold AppQ.show_page, show_page. script_simpl. by case_bool_decide; script_simpl. Qed.

Lemma update_and_save_unlimited so fo s :
  AppQ.update_and_save cfg None so fo s = (update_and_save cfg so fo s, Normal).
Proof.
  unfold AppQ.update_and_save, update_and_save. script_simpl.
  destruct (cfg_has_search cfg); script_simpl; by destruct (_ && _).
Qed.

Lemma toggle_favorite_unlimited id s : AppQ.toggle_favorite None id s = (toggle_favorite id s, Normal).
Proof. unfold AppQ.toggle_favorite. by script_simpl. Qed.

Lemma handle_unlimited ev s :
  AppQ.handle cfg None ev s = option_map (λ s', (s', Normal)) (handle cfg ev s).
Proof.
  destruct ev as [x|x|x|c|c key|i|]; simpl;
    rewrite ?update_and_save_unlimited, ?toggle_favorite_unlimited, ?show_page_unlimited.
  all: repeat (case_match; simpl; rewrite ?update_and_save_unlimited, ?toggle_favorite_unlimited,
                 ?show_page_unlimited); done.
Qed.

Lemma init_unlimited store0 : AppQ.init cfg None store0 = init cfg store0.
Proof.
  unfold AppQ.init, init. destruct (Store.load_favorites store0) as [|[favs|]]; [done| |done].
  unfold AppQ.start_up. script_simpl. by rewrite show_page_unlimited.
Qed.

Lemma step_unlimited s s' : AppQ.step cfg None s s' ↔ step cfg s s'.
Proof.
  split.
  - intros [ev x r Hh|x x' Hf|x d Hd Hq].
    + rewrite handle_unlimited in Hh. destruct (handle cfg ev x) eqn:E; [|done].
      injection Hh as <-. by apply (step_event cfg ev).
    + by apply step_fire.
    + by apply step_wait.
  - intros [ev x x' Hh|x x' Hf|x d Hd Hq].
    + apply (AppQ.step_event cfg None ev x (x', Normal)). by rewrite handle_unlimited, Hh.
    + by apply AppQ.step_fire.
    + by apply AppQ.step_wait.
Qed.

(** With storage that accepts every write, the handlers with exceptions
    are the handlers of [App]: the same steps, the same start-up and the
    same reachable states.  This relates the two models of the same code;
    the theorems of [App] are those of the script in such a browser. *)
Lemma unlimited_storage_agrees :
  (∀ s s', AppQ.step cfg None s s' ↔ App.step cfg s s') ∧
  (∀ store0, AppQ.init cfg None store0 = App.init cfg store0) ∧
  (∀ s, AppQ.reachable cfg None s ↔ App.reachable cfg s).
Proof.
  split_and!; [apply step_unlimited|apply init_unlimited|]. intros s. split.
  - intros (st0 & s0 & Hi & Hr). exists st0, s0. rewrite <-init_unlimited.
    split; [done|]. eapply rtc_subrel; [|exact Hr]. intros x y. apply step_unlimited.
  - intros (st0 & s0 & Hi & Hr). exists st0, s0. rewrite init_unlimited.
    split; [done|]. eapply rtc_subrel; [|exact Hr]. intros x y. apply step_unlimited.
Qed.

End Unlimited.

Section ActPres.
Import App Script.

Lemma seq_pres I (a b : act) : act_pres I a → act_pres I b → act_pres I (a ;; b).
Proof.
  intros Ha Hb s Hs. unfold Script.seq. specialize (Ha s Hs).
  destruct (a s) as [s1 []]; simpl in *; [by apply Hb|done].
Qed.

Lemma lift_pres I f : (∀ s, I s → I (f s)) → act_pres I (lift f).
Proof. intros Hf s. apply Hf. Qed.

Lemma when_pres I c (a : act) : act_pres I a → act_pres I (when c a).
Proof. intros Ha s Hs. unfold Script.when. destruct (c s); [by apply Ha|done]. Qed.

(** A write changes the store only, whether it succeeds or throws. *)
Lemma set_item_pres I quota k v :
  (∀ f s, I s → I (with_store f s)) → act_pres I (AppQ.set_item quota k v).
Proof. intros Hst s Hs. unfold AppQ.set_item. destruct (Quota.set_item _ _ _ _); [by apply Hst|done]. Qed.

End ActPres.

(** The demo page of [AppInv] in a browser that lets the origin store 16
    code units: start-up on an empty store writes [sotohit-page = home]
    (16 units) and fills it. *)
Definition demo_quota : option nat := Some 16%nat.

Definition demo_q_s0 : state :=
  match AppQ.init demo_cfg demo_quota ∅ with Some s => s | None => demo_s0 end.

(** A click on the phone's heart: its write of [["1"]] overflows. *)
Definition demo_q_r1 : state * completion :=
  match AppQ.handle demo_cfg demo_quota (App.ClickFav Pipeline.phone) demo_q_s0 with
  | Some r => r
  | None => (demo_q_s0, Normal)
  end.

Lemma demo_q_reach1 : AppQ.reachable demo_cfg demo_quota demo_q_r1.1.
Proof.
  exists ∅, demo_q_s0. split; [vm_compute; reflexivity|]. apply rtc_once.
  apply (AppQ.step_event demo_cfg demo_quota (App.ClickFav Pipeline.phone) demo_q_s0 demo_q_r1).
  vm_compute. reflexivity.
Qed.

Section QuotaTheorems.
Import App Script.

(** C29. A heart click whose write of line 59 throws has changed the
    favourites array and nothing else: the store keeps the old list and
    [updateFavoritesCount] and [updateUI] never run, so the badge and the
    hearts show the list before the click.  On the demo page with a
    16-unit quota one click already leaves a reachable state whose badge
    count is not the number of favourites. *)
Theorem favorites_write_failure quota id s :
  Quota.set_item quota (st_store s) Store.key_favorites
    (Stringify.stringify_strings (Fav.toggle id (v_favorites (st_view s)))) = None →
  AppQ.toggle_favorite quota id s =
    (with_view (set_favorites (Fav.toggle id (v_favorites (st_view s)))) s, Throw QuotaExceededError) ∧
  ∃ s', AppQ.reachable demo_cfg demo_quota s' ∧
        Fav.badge_count (d_badge (st_dom s')) ≠ Z.of_nat (length (v_favorites (st_view s'))).
Proof.
  intros H. split.
  - unfold AppQ.toggle_favorite, Script.seq, Script.lift. cbn beta iota.
    by rewrite set_item_fail.
  - exists demo_q_r1.1. split; [exact demo_q_reach1|]. vm_compute. discriminate.
Qed.

Lemma favorites_write_failure_witness :
  Quota.set_item (Some 0%nat) (st_store demo_s1) Store.key_favorites
    (Stringify.stringify_strings (Fav.toggle (js "1") (v_favorites (st_view demo_s1)))) = None ∧
  AppQ.toggle_favorite (Some 0%nat) (js "1") demo_s1 =
    (with_view (set_favorites (Fav.toggle (js "1") (v_favorites (st_view demo_s1)))) demo_s1,
     Throw QuotaExceededError).
Proof.
  assert (H : Quota.set_item (Some 0%nat) (st_store demo_s1) Store.key_favorites
    (Stringify.stringify_strings (Fav.toggle (js "1") (v_favorites (st_view demo_s1)))) = None)
    by (vm_compute; reflexivity).
  split; [exact H|]. apply (proj1 (favorites_write_failure (Some 0%nat) (js "1") demo_s1 H)).
Defined.

(** C30. A failing write stops [updateAndSave] where it is: the new sort
    or filter is in the closure variables, the writes before the failing
    one have taken effect and the later ones have not, and no render is
    scheduled, so the grid keeps the order and filter of the last render
    although [currentSort] and [currentFilter] have changed. *)
Theorem update_and_save_failure cfg quota so fo s :
  let s2 := match fo with Some x => with_view (set_filter x) | None => id end
              (match so with Some x => with_view (set_sort x) s | None => s end) in
  (Quota.set_item quota (st_store s) Store.key_sort (v_sort (st_view s2)) = None →
   AppQ.update_and_save cfg quota so fo s = (s2, Throw QuotaExceededError)) ∧
  (∀ st1, Quota.set_item quota (st_store s) Store.key_sort (v_sort (st_view s2)) = Some st1 →
   Quota.set_item quota st1 Store.key_filter (v_filter (st_view s2)) = None →
   AppQ.update_and_save cfg quota so fo s = (with_store (λ _, st1) s2, Throw QuotaExceededError)).
Proof.
  cbv zeta. unfold AppQ.update_and_save, Script.seq, Script.lift, AppQ.set_item.
  destruct so, fo; split;
    first [intros H; cbn -[Quota.set_item] in *; by rewrite H
          |intros st1 H1 H2; cbn -[Quota.set_item] in *; rewrite H1; cbn -[Quota.set_item]; by rewrite H2].
Qed.

Lemma update_and_save_failure_witness :
  Quota.set_item (Some 0%nat) (st_store demo_s1) Store.key_sort (js "price-asc") = None ∧
  AppQ.update_and_save demo_cfg (Some 0%nat) (Some (js "price-asc")) None demo_s1 =
    (with_view (set_sort (js "price-asc")) demo_s1, Throw QuotaExceededError).
Proof.
  assert (H : Quota.set_item (Some 0%nat) (st_store demo_s1) Store.key_sort (js "price-asc") = None)
    by (vm_compute; reflexivity).
  split; [exact H|]. apply (proj1 (update_and_save_failure demo_cfg (Some 0%nat) (Some (js "price-asc")) None demo_s1)).
  exact H.
Defined.

End QuotaTheorems.
