(* ===== verification/AppNull.v ===== *)
(** Stored favourites that parse to [null].  [localStorage.setItem(k, null)]
    stores the text ["null"], and line 18 then reads [favorites = null]
    (src/script.js).  The listeners are installed (lines 158-211) before
    the first use of [favorites]; that use, [favorites.length] at line 43
    inside the start-up call of line 214, throws a TypeError, so start-up
    stops there and the page keeps its listeners.  From then on every use
    of [favorites] throws: [indexOf] in [toggleFavorite] (line 53) and
    [includes] in the render callback (line 106), which has emptied the
    grid by then.  Module [AppNull] is this regime: the handlers of
    [AppQ] for everything that does not read [favorites], and the
    throwing ones for what does.  The [v_favorites] field of the state is
    not read here; the value it stands for is [null]. *)

From S2P Require Import Prelude JsString StableSort JsNumber Pipeline Favorites Json Store App AppInv AppQuota.
Local Open Scope Z_scope.
Local Open Scope script_scope.

Module AppNull.
Import App Script.

(** The visible cards the render callback appends before it reaches a
    card with a [.btn-fav]: line 106 reads [favorites.includes] only when
    [btn] is not null. *)
Fixpoint appended_before_throw (visible : list card) : list card :=
  match visible with
  | [] => []
  | c :: rest => match card_btn c with None => c :: appended_before_throw rest | Some _ => [] end
  end.

(** The render callback (lines 100-115) with [favorites = null]: the grid
    is emptied, the cards before the first heart button are appended, and
    [favorites.includes(id)] throws on that button. *)
Definition render (visible : list card) : act := λ s,
  let shown := appended_before_throw visible in
  (App.render shown s, if bool_decide (shown = visible) then Normal else Throw TypeError).

(** [toggleFavorite(id)]: [favorites.indexOf(id)] throws at line 53,
    before anything has changed. *)
Definition toggle_favorite (id : jsstr) : act := λ s, (s, Throw TypeError).

Section Handlers.
Variable cfg : config.
Variable quota : option nat.

(** The listeners: the heart buttons and the keydown of the cards call
    [toggleFavorite]; every other listener runs as in [AppQ]. *)
Definition handle (ev : event) (s : state) : option (state * completion) :=
  match ev with
  | ClickFav c =>
      if bool_decide (c ∈ cfg_cards cfg) && attached (st_dom s) c then
        match card_btn c with Some id => Some (toggle_favorite id s) | None => None end
      else None
  | KeyCard c key =>
      if bool_decide (c ∈ cfg_cards cfg) && attached (st_dom s) c then
        Some (if bool_decide (key = js "Enter") || bool_decide (key = js " ") then
                match card_btn c with Some id => ((toggle_favorite id s).1, Normal) | None => (s, Normal) end
              else (s, Normal))
      else None
  | _ => AppQ.handle cfg quota ev s
  end.

Definition run_task (t : task) : act :=
  match t with
  | RenderTask visible => render visible
  | InitApplyTask => lift (App.run_task cfg InitApplyTask)
  end.

Definition fire (s : state) : option state :=
  match st_timers s with
  | [] => None
  | (due, t) :: q =>
      Some (run_task t {| st_view := st_view s; st_dom := st_dom s; st_store := st_store s;
                          st_now := Z.max (st_now s) due; st_timers := q |}).1
  end.

(** Start-up when line 18 reads [null]: line 214 throws at once, so the
    state is the one the listeners were installed in. *)
Definition init (store0 : storage) : option state :=
  match Parse.parse (Store.get_or store0 Store.key_favorites (js "[]")) with
  | inr JNull => Some (init_state cfg store0 [])
  | _ => None
  end.

Inductive step : state → state → Prop :=
  | step_event ev s r : handle ev s = Some r → step s r.1
  | step_fire s s' : fire s = Some s' → step s s'
  | step_wait s delta :
      0 <= delta → Forall (λ e, st_now s + delta <= e.1) (st_timers s) →
      step s (advance delta s).

Definition reachable (s : state) : Prop :=
  ∃ store0 s0, init store0 = Some s0 ∧ rtc step s0 s.

End Handlers.
End AppNull.

(** What the null regime keeps: the grid holds its markup or cards
    without a heart button, and no heart has been written. *)
Definition null_inv (cfg : config) (s : state) : Prop :=
  (d_children (st_dom s) = cfg_grid0 cfg ∨ Forall (λ c, card_btn c = None) (d_children (st_dom s))) ∧
  ∀ c, d_heart (st_dom s) c = false.

Section NullFacts.
Import App Script.
Variable cfg : config.
Variable quota : option nat.

Lemma appended_no_btn vis : Forall (λ c, card_btn c = None) (AppNull.appended_before_throw vis).
Proof. induction vis as [|c vis IH]; simpl; [done|]. destruct (card_btn c) eqn:E; by constructor. Qed.

Lemma apply_null_inv s : null_inv cfg s → null_inv cfg (apply_filters_and_sort cfg s).
Proof. unfold apply_filters_and_sort. by destruct (negb _). Qed.

Lemma render_null_inv vis : act_pres (null_inv cfg) (AppNull.render vis).
Proof.
  intros s [_ Hh]. split; [right; apply appended_no_btn|]. intros c. simpl.
  case_bool_decide as Hc; [|apply Hh]. simpl.
  rewrite (proj1 (Forall_forall _ _) (appended_no_btn vis) c Hc). apply Hh.
Qed.

Ltac null_act :=
  repeat first [apply seq_pres | apply when_pres | apply set_item_pres; intros ?f ?s ?Hs; exact Hs
               | apply lift_pres; intros ?s ?Hs].

Lemma show_page_null_inv p : act_pres (null_inv cfg) (AppQ.show_page cfg quota p).
Proof. unfold AppQ.show_page. null_act; [done|done|by apply apply_null_inv]. Qed.

Lemma update_and_save_null_inv so fo : act_pres (null_inv cfg) (AppQ.update_and_save cfg quota so fo).
Proof.
  unfold AppQ.update_and_save.
  null_act; [by destruct so|by destruct fo|by apply apply_null_inv].
Qed.

Lemma handle_null_inv ev s r :
  null_inv cfg s → AppNull.handle cfg quota ev s = Some r → null_inv cfg r.1.
Proof.
  intros Hs Hh. destruct ev as [x|x|x|c|c key|i|]; simpl in Hh; repeat (case_match; simplify_eq/=);
    first [apply update_and_save_null_inv, Hs | apply show_page_null_inv, Hs | exact Hs].
Qed.

Lemma fire_null_inv s s' : null_inv cfg s → AppNull.fire cfg s = Some s' → null_inv cfg s'.
Proof.
  unfold AppNull.fire. intros Hs. destruct (st_timers s) as [|[due [vis|]] q]; [done| |];
    intros [= <-]; [by apply render_null_inv|by apply apply_null_inv].
Qed.

Lemma reachable_null_inv s : AppNull.reachable cfg quota s → null_inv cfg s.
Proof.
  intros (st0 & s0 & Hi & Hr). unfold AppNull.init in Hi.
  destruct (Parse.parse _) as [|[]]; try done. injection Hi as <-.
  assert (H0 : null_inv cfg (init_state cfg st0 [])) by (split; [by left|done]).
  induction Hr as [|x y z Hxy _ IH]; [done|]. apply IH.
  destruct Hxy as [ev x r Hh|x x' Hf|x d]; [by eapply handle_null_inv|by eapply fire_null_inv|done].
Qed.

End NullFacts.

(** The demo page of [AppInv] with the text ["null"] stored for the
    favourites: start-up, a click on the catalog link, and the render. *)
Definition demo_null_store : storage := <[Store.key_favorites := js "null"]> ∅.

Definition demo_null_s0 : state :=
  match AppNull.init demo_cfg demo_null_store with Some s => s | None => demo_s0 end.

Definition demo_null_r1 : state * completion :=
  match AppNull.handle demo_cfg None (App.ClickLink 1) demo_null_s0 with
  | Some r => r
  | None => (demo_null_s0, Normal)
  end.

Definition demo_null_s2 : state :=
  match AppNull.fire demo_cfg demo_null_r1.1 with Some s => s | None => demo_null_r1.1 end.

Lemma demo_null_reach2 : AppNull.reachable demo_cfg None demo_null_s2.
Proof.
  exists demo_null_store, demo_null_s0. split; [vm_compute; reflexivity|].
  eapply rtc_l; [apply (AppNull.step_event demo_cfg None (App.ClickLink 1) demo_null_s0 demo_null_r1);
                 vm_compute; reflexivity|].
  apply rtc_once, AppNull.step_fire. vm_compute. reflexivity.
Qed.

Section NullTheorems.
Import App Script.

(** C31. With [null] favourites the catalog never shows a card that has a
    heart button: in every reachable state the grid holds its markup or
    only cards without a [.btn-fav], because each render empties the grid
    and throws at the first such card, and no heart is ever written.  On
    the demo page, whose cards all have a heart button, showing the
    catalog leaves it empty once the render has run. *)
Theorem null_favorites_empty_catalog cfg quota s :
  AppNull.reachable cfg quota s →
  (d_children (st_dom s) = cfg_grid0 cfg ∨ Forall (λ c, card_btn c = None) (d_children (st_dom s))) ∧
  (∀ c, d_heart (st_dom s) c = false) ∧
  ∃ s', AppNull.reachable demo_cfg None s' ∧ v_page (st_view s') = js "catalog" ∧
        st_timers s' = [] ∧ d_children (st_dom s') = [].
Proof.
  intros Hr. destruct (reachable_null_inv cfg quota s Hr) as [Hg Hh]. split_and!; [done|done|].
  exists demo_null_s2. split; [exact demo_null_reach2|]. vm_compute. split_and!; reflexivity.
Qed.

Lemma null_favorites_empty_catalog_witness :
  d_children (st_dom demo_null_s2) = cfg_grid0 demo_cfg ∨
  Forall (λ c, card_btn c = None) (d_children (st_dom demo_null_s2)).
Proof. apply (null_favorites_empty_catalog demo_cfg None demo_null_s2), demo_null_reach2. Defined.

End NullTheorems.
